(** * UnraWheel: section layout and interaction state machine

    A shallow embedding of [src/unrawheel.js] (the [UnraWheel] custom
    element) and of the script of its demo page, the properties of its
    specification, and further properties of the code.

    Conventions of the embedding.
    - Section indices and section counts are JavaScript numbers that
      only ever hold integers; they are modelled as [Z].  The
      [section-count] attribute is taken to be integer valued (or not a
      number at all).
    - Angles, the label radius and the pointer rotation are IEEE 754
      binary64 values, modelled by Rocq's primitive [float]s, which
      have the same format and rounding.
    - Every [throw] of the source and every engine-raised [TypeError]
      is a [Throw]; a handler that throws keeps the mutations it made
      before the throw.
    - The five parallel element arrays of [#elements] always have the
      same length; they are modelled as one list of per-index records.
    - [Math.cos] and [Math.sin] are not modelled: a sector is recorded
      by its two angles.
    - Strings are held in UTF-8, as [JSON.stringify] and the page
      source have them; the [length] of a string is counted in UTF-16
      code units, as the engine does.
    - The 100 ms timer that clears the [section--selected] class is not
      modelled. *)

From Stdlib Require Import ZArith Floats Uint63 Reals Lra Lia.
From stdpp Require Import gmap strings list pretty.

Local Open Scope Z_scope.
#[local] Set Warnings "-register-all".

(** ** JavaScript values *)

(** Numbers carried by section data are integers here; an object is
    the finite map of its own properties. *)
Inductive value : Type :=
| VUndefined
| VNull
| VBool (b : bool)
| VNum (z : Z)
| VStr (s : string)
| VArr (l : list value)
| VObj (o : gmap string value).

(** Every exception of the source is a [TypeError]; the constructors
    tell the [throw] statements of [#setData] apart, [EngineTypeError]
    is a [TypeError] raised by the engine itself (a property read on
    [undefined] or [null]). *)
Inductive error : Type :=
| ParseFailed
| NotArray
| EmptyArray
| TooManyOptions
| MissingValue (i : nat)
| MissingText (i : nat)
| TextNotString (i : nat)
| ImageNotString (i : nat)
| BadKey (i : nat)
| BadSectionCount
| EngineTypeError (what : string).

Inductive result (A : Type) : Type :=
| Ok (a : A)
| Throw (e : error).
Arguments Ok {A} a.
Arguments Throw {A} e.

(** The errors raised by the validation of [#setData]. *)
Definition is_validation_error (e : error) : bool :=
  match e with
  | ParseFailed | NotArray | EmptyArray | TooManyOptions
  | MissingValue _ | MissingText _ | TextNotString _
  | ImageNotString _ | BadKey _ => true
  | BadSectionCount | EngineTypeError _ => false
  end.

(** ** Numbers *)

(** [Math.PI]. *)
Definition Math_PI : float := 0x1.921fb54442d18p+1%float.

(** The binary64 value of an integer (exact below 2^53). *)
Definition num (z : Z) : float :=
  if z <? 0 then PrimFloat.opp (PrimFloat.of_uint63 (Uint63.of_Z (- z)))
  else PrimFloat.of_uint63 (Uint63.of_Z z).

(** ** The widget instance *)

(** What is kept of the elements created for section [i]: the two
    angles its sector [path] is drawn between (the corners are their
    cosines and sines scaled by [#radiusScale]), the classes of the
    [path] ([section--selected], [section--empty]), the [tabindex] of
    the link, the text of the two labels. *)
Record SectionEl : Type := MkSectionEl {
  startAngle : float;
  endAngle : float;
  selected : bool;
  empty : bool;
  tabindex : Z;
  contentText : value;
  keyText : value
}.

(** The section pointer: its [section-pointer--show] class and the
    angle of its [rotate(..deg)] transform, if one was set. *)
Record PointerEl : Type := MkPointerEl {
  show : bool;
  transform : option float
}.

(** The private fields of the instance and what is kept of the elements
    it owns: the per-section elements, the section pointer, and whether
    the [svg] carries the [unrawheel--locked] class (which turns pointer
    events off). *)
Record state : Type := MkState {
  data : option (list (gmap string value));
  angleStep : float;
  angleOffset : float;
  prevHoverIndex : Z;
  currSectionPointerRotation : float;
  keyDistanceFromCenter : float;
  sectionCount : Z;
  isMouseOver : bool;
  isLocked : bool;
  autoLockWheel : bool;
  staticSectionCount : bool;
  sections : list SectionEl;
  sectionPointerElem : option PointerEl;
  svgLocked : bool
}.

(** The field initialisers of the class. *)
Definition initial : state := {|
  data := None;
  angleStep := 0%float;
  angleOffset := 0%float;
  prevHoverIndex := 0;
  currSectionPointerRotation := 0%float;
  keyDistanceFromCenter := 0%float;
  sectionCount := 0;
  isMouseOver := false;
  isLocked := true;
  autoLockWheel := false;
  staticSectionCount := false;
  sections := [];
  sectionPointerElem := None;
  svgLocked := false
|}.

Definition set_data (d : list (gmap string value)) (s : state) : state :=
  MkState (Some d) (angleStep s) (angleOffset s) (prevHoverIndex s)
    (currSectionPointerRotation s) (keyDistanceFromCenter s) (sectionCount s)
    (isMouseOver s) (isLocked s) (autoLockWheel s) (staticSectionCount s)
    (sections s) (sectionPointerElem s) (svgLocked s).

Definition set_layout (step off key : float) (s : state) : state :=
  MkState (data s) step off (prevHoverIndex s)
    (currSectionPointerRotation s) key (sectionCount s)
    (isMouseOver s) (isLocked s) (autoLockWheel s) (staticSectionCount s)
    (sections s) (sectionPointerElem s) (svgLocked s).

Definition set_hover (i : Z) (rot : float) (s : state) : state :=
  MkState (data s) (angleStep s) (angleOffset s) i
    rot (keyDistanceFromCenter s) (sectionCount s)
    (isMouseOver s) (isLocked s) (autoLockWheel s) (staticSectionCount s)
    (sections s) (sectionPointerElem s) (svgLocked s).

Definition set_sectionCount (n : Z) (s : state) : state :=
  MkState (data s) (angleStep s) (angleOffset s) (prevHoverIndex s)
    (currSectionPointerRotation s) (keyDistanceFromCenter s) n
    (isMouseOver s) (isLocked s) (autoLockWheel s) (staticSectionCount s)
    (sections s) (sectionPointerElem s) (svgLocked s).

Definition set_isMouseOver (b : bool) (s : state) : state :=
  MkState (data s) (angleStep s) (angleOffset s) (prevHoverIndex s)
    (currSectionPointerRotation s) (keyDistanceFromCenter s) (sectionCount s)
    b (isLocked s) (autoLockWheel s) (staticSectionCount s)
    (sections s) (sectionPointerElem s) (svgLocked s).

Definition set_svgLocked (b : bool) (s : state) : state :=
  MkState (data s) (angleStep s) (angleOffset s) (prevHoverIndex s)
    (currSectionPointerRotation s) (keyDistanceFromCenter s) (sectionCount s)
    (isMouseOver s) (isLocked s) (autoLockWheel s) (staticSectionCount s)
    (sections s) (sectionPointerElem s) b.

Definition set_config (auto static : bool) (s : state) : state :=
  MkState (data s) (angleStep s) (angleOffset s) (prevHoverIndex s)
    (currSectionPointerRotation s) (keyDistanceFromCenter s) (sectionCount s)
    (isMouseOver s) (isLocked s) auto static
    (sections s) (sectionPointerElem s) (svgLocked s).

Definition set_isLocked (b : bool) (s : state) : state :=
  MkState (data s) (angleStep s) (angleOffset s) (prevHoverIndex s)
    (currSectionPointerRotation s) (keyDistanceFromCenter s) (sectionCount s)
    (isMouseOver s) b (autoLockWheel s) (staticSectionCount s)
    (sections s) (sectionPointerElem s) (svgLocked s).

Definition set_sections (l : list SectionEl) (s : state) : state :=
  MkState (data s) (angleStep s) (angleOffset s) (prevHoverIndex s)
    (currSectionPointerRotation s) (keyDistanceFromCenter s) (sectionCount s)
    (isMouseOver s) (isLocked s) (autoLockWheel s) (staticSectionCount s)
    l (sectionPointerElem s) (svgLocked s).

Definition set_pointer (p : option PointerEl) (s : state) : state :=
  MkState (data s) (angleStep s) (angleOffset s) (prevHoverIndex s)
    (currSectionPointerRotation s) (keyDistanceFromCenter s) (sectionCount s)
    (isMouseOver s) (isLocked s) (autoLockWheel s) (staticSectionCount s)
    (sections s) p (svgLocked s).

(** ** Handlers: state, exceptions and dispatched events

    A handler runs on the instance, may throw, and may dispatch
    [section-select] events; [out] lists the [detail.value] of the
    events dispatched, in order. *)

Record reply (A : Type) : Type := Reply {
  res : result A;
  st : state;
  out : list value
}.
Arguments Reply {A} res st out.
Arguments res {A} r.
Arguments st {A} r.
Arguments out {A} r.

Definition M (A : Type) : Type := state -> reply A.

Definition ret {A} (a : A) : M A := fun s => Reply (Ok a) s [].

Definition bind {A B} (m : M A) (k : A -> M B) : M B := fun s =>
  match m s with
  | Reply (Ok a) s1 o1 =>
      match k a s1 with
      | Reply r s2 o2 => Reply r s2 (o1 ++ o2)
      end
  | Reply (Throw e) s1 o1 => Reply (Throw e) s1 o1
  end.

Definition throw {A} (e : error) : M A := fun s => Reply (Throw e) s [].
Definition get : M state := fun s => Reply (Ok s) s [].
Definition modify (f : state -> state) : M unit := fun s => Reply (Ok tt) (f s) [].
Definition dispatchEvent (v : value) : M unit := fun s => Reply (Ok tt) s [v].
Definition lift {A} (r : result A) : M A :=
  match r with Ok a => ret a | Throw e => throw e end.

#[export] Instance M_ret : MRet M := @ret.
#[export] Instance M_bind : MBind M := fun A B k m => bind m k.

#[export] Instance result_ret : MRet result := @Ok.
#[export] Instance result_bind : MBind result := fun A B k r =>
  match r with Ok a => k a | Throw e => Throw e end.

(** ** Section model: [#setData] *)

(** [#defaultKeys]. *)
Definition defaultKeys : list string :=
  ["a"; "s"; "d"; "f"; "g"; "h"; "j"; "k"; "l";
   "q"; "w"; "e"; "r"; "t"; "y"; "u"; "i"; "o"; "p";
   "z"; "x"; "c"; "v"; "b"; "n"; "m";
   "1"; "2"; "3"; "4"; "5"; "6"; "7"; "8"; "9"; "0"]%string.

(** [#defaultKeys[i]]: [undefined] past the end of the table. *)
Definition defaultKeys_at (i : nat) : value :=
  match defaultKeys !! i with
  | Some k => VStr k
  | None => VUndefined
  end.

(** [Array.isArray]. *)
Definition isArray (v : value) : option (list value) :=
  match v with
  | VArr l => Some l
  | _ => None
  end.

(** [typeof v === 'string']. *)
Definition is_string (v : value) : bool :=
  match v with
  | VStr _ => true
  | _ => false
  end.

(** [str.length]: the number of UTF-16 code units of the string whose
    UTF-8 bytes are [str].  A character of one to three bytes (the
    Basic Multilingual Plane) is one code unit, a character of four
    bytes is a surrogate pair; continuation bytes count nothing. *)
Definition code_units (c : Ascii.ascii) : nat :=
  let b := Ascii.N_of_ascii c in
  if (b <? 128)%N then 1
  else if (b <? 192)%N then 0
  else if (b <? 240)%N then 1
  else 2.

Fixpoint js_length (str : string) : nat :=
  match str with
  | EmptyString => 0
  | String c rest => code_units c + js_length rest
  end.

(** [Object.assign({}, item)]: a fresh object with the own enumerable
    properties of [item]; a string or an array contributes its indexed
    elements (for a string one per byte here: the names are numeric
    either way, and no check of [#setData] reads them), the other
    primitives nothing. *)
Definition assign_empty (item : value) : gmap string value :=
  match item with
  | VObj o => o
  | VArr l => list_to_map (imap (fun i v => (pretty i, v)) l)
  | VStr s =>
      list_to_map
        (imap (fun i c => (pretty i, VStr (String c EmptyString)))
           (String.list_ascii_of_string s))
  | _ => ∅
  end.

(** An object literal. *)
Definition object (fields : list (string * value)) : value :=
  VObj (list_to_map fields).

(** The callback of [data.map] in [#setData].  After [Object.assign]
    the item is an object, so the source's [typeof item !== 'object']
    test never fires. *)
Definition parseUnraWheelData (item : value) (i : nat)
  : result (gmap string value) :=
  let item := assign_empty item in
  match item !! "value"%string with
  | None => Throw (MissingValue i)
  | Some _ =>
      match item !! "text"%string with
      | None => Throw (MissingText i)
      | Some t =>
          if negb (is_string t) then Throw (TextNotString i)
          else
            match item !! "image"%string with
            | Some (VStr _) | None =>
                match item !! "key"%string with
                | None => Ok (<["key"%string := defaultKeys_at i]> item)
                | Some (VStr k) =>
                    if (js_length k =? 1)%nat then Ok item
                    else Throw (BadKey i)
                | Some _ => Throw (BadKey i)
                end
            | Some _ => Throw (ImageNotString i)
            end
      end
  end.

(** [data.map(parseUnraWheelData)], from index [i] on. *)
Fixpoint data_map (l : list value) (i : nat)
  : result (list (gmap string value)) :=
  match l with
  | [] => Ok []
  | item :: rest =>
      o ← parseUnraWheelData item i;
      os ← data_map rest (S i);
      mret (o :: os)
  end.

(** Count-derived constants, as [#setData] computes them; the hexadecimal
    literal is the binary64 value of [0.1]. *)
Definition angleStep_of (n : Z) : float := ((2 * Math_PI) / num n)%float.
Definition angleOffset_of (step : float) : float := (Math_PI + step / 2)%float.
Definition keyDistance_of (n : Z) : float :=
  (0.25 + PrimFloat.abs (0x1.999999999999ap-4 * (num (n - 6) / 20)))%float.

Section Host.

(** [JSON.parse] of the host; [None] when it throws. *)
Variable JSON_parse : string -> option value.

(** The validating part of [#setData]: everything up to the assignment
    to [this.#data]. *)
Definition parse_input (raw : value) : result value :=
  match raw with
  | VStr str =>
      match JSON_parse str with
      | Some v => Ok v
      | None => Throw ParseFailed
      end
  | _ => Ok raw
  end.

Definition normalize (static : bool) (n : Z) (raw : value)
  : result (list (gmap string value)) :=
  d ← parse_input raw;
  match isArray d with
  | None => Throw NotArray
  | Some l =>
      if (length l =? 0)%nat then Throw EmptyArray
      else if static && (Z.of_nat (length l) >? n - 1) then Throw TooManyOptions
      else data_map l 0
  end.

Definition setData (raw : value) : M unit :=
  s ← get;
  items ← lift (normalize (staticSectionCount s) (sectionCount s) raw);
  modify (set_data items);;
  let prevSegCount := sectionCount s in
  (if staticSectionCount s then mret tt
   else modify (set_sectionCount (Z.of_nat (length items) + 1)));;
  s1 ← get;
  (if prevSegCount =? sectionCount s1 then mret tt
   else modify (set_hover 0 0%float));;
  let step := angleStep_of (sectionCount s1) in
  modify (set_layout step (angleOffset_of step) (keyDistance_of (sectionCount s1))).

(** ** Lock state: [toggleLockWheel] *)

Definition set_tabindex (t : Z) (el : SectionEl) : SectionEl :=
  MkSectionEl (startAngle el) (endAngle el) (selected el) (empty el) t (contentText el) (keyText el).

Definition toggleLockWheel (toggleLock : bool) : M unit :=
  s ← get;
  if Bool.eqb toggleLock (isLocked s) then mret tt
  else
    modify (set_isLocked toggleLock);;
    modify (set_svgLocked toggleLock);;
    modify (fun s =>
      set_sections (map (set_tabindex (if toggleLock then -1 else 0)) (sections s)) s).

(** ** Selection resolver: [#onSectionSelect], [#onKeyPress], [#onSectionClick] *)

(** [arr[i]] for a number [i] holding an integer: [undefined] ([None])
    out of range. *)
Definition at_index {A} (l : list A) (i : Z) : option A :=
  if i <? 0 then None else l !! Z.to_nat i.

(** [o.key], [o.value], ...: [undefined] when the property is absent. *)
Definition prop (o : gmap string value) (k : string) : value :=
  default VUndefined (o !! k).

(** [v === str] for a string [str]. *)
Definition strict_eq_string (v : value) (str : string) : bool :=
  match v with
  | VStr k => String.eqb k str
  | _ => false
  end.

Definition set_selected (el : SectionEl) : SectionEl :=
  MkSectionEl (startAngle el) (endAngle el) true (empty el) (tabindex el) (contentText el) (keyText el).

Definition onSectionSelect (sectionIndex : Z) : M unit :=
  s ← get;
  let isBackSection := sectionIndex =? Z.of_nat (length (sections s)) - 1 in
  ignored ←
    (if isBackSection then mret false
     else
       match data s with
       | None => throw (EngineTypeError "cannot read properties of null")
       | Some d =>
           match at_index d sectionIndex with
           | None => mret true
           | Some item => mret (strict_eq_string (prop item "key") "")
           end
       end);
  if (ignored : bool) then mret tt
  else
    match at_index (sections s) sectionIndex with
    | None => throw (EngineTypeError "elem is undefined")
    | Some elem =>
        (if selected elem then mret tt
         else modify (fun s =>
                set_sections (alter set_selected (Z.to_nat sectionIndex) (sections s)) s));;
        (if autoLockWheel s then toggleLockWheel true else mret tt);;
        s1 ← get;
        v ←
          (if (sectionIndex =? -1) || (sectionIndex =? sectionCount s1 - 1)
           then mret (VNum (-1))
           else
             match data s1 with
             | None => throw (EngineTypeError "cannot read properties of null")
             | Some d =>
                 match at_index d sectionIndex with
                 | None => throw (EngineTypeError "cannot read properties of undefined")
                 | Some item => mret (prop item "value")
                 end
             end);
        dispatchEvent v
    end.

(** [arr.findIndex(p)], [-1] when no element satisfies [p]. *)
Fixpoint findIndex_from {A} (p : A -> bool) (l : list A) (i : Z) : Z :=
  match l with
  | [] => -1
  | x :: rest => if p x then i else findIndex_from p rest (i + 1)
  end.

Definition findIndex {A} (p : A -> bool) (l : list A) : Z :=
  findIndex_from p l 0.

Definition onKeyPress (key : string) : M unit :=
  s ← get;
  if isLocked s then mret tt
  else if String.eqb key "Backspace"
  then onSectionSelect (Z.of_nat (length (sections s)) - 1)
  else
    match data s with
    | None => throw (EngineTypeError "cannot read properties of null")
    | Some d =>
        let index := findIndex (fun item => strict_eq_string (prop item "key") key) d in
        if index =? -1 then mret tt else onSectionSelect index
    end.

Definition onSectionClick (index : Z) : M unit := onSectionSelect index.

(** ** Pointer and hover tracker: [#onSectionHover] *)

(** [arr.reduce(f)] without an initial value on the non-empty array
    [x :: rest]: the accumulator starts at [x] and the callback is
    first called on the element of index 1. *)
Fixpoint reduce_from (f : Z -> Z -> nat -> Z) (acc : Z) (l : list Z) (i : nat) : Z :=
  match l with
  | [] => acc
  | x :: rest => reduce_from f (f acc x i) rest (S i)
  end.

Definition reduce (f : Z -> Z -> nat -> Z) (x : Z) (rest : list Z) : Z :=
  reduce_from f x rest 1.

Definition distThroughZero (n prev index : Z) : Z := n - prev + index.
Definition distThroughZeroReverse (n prev index : Z) : Z := - (n + prev - index).
Definition distDirect (prev index : Z) : Z := index - prev.

(** The [distance] of [#onSectionHover]; the callback's parameters are
    named as in the source. *)
Definition hoverDistance (n prevIndex newIndex : Z) : Z :=
  reduce
    (fun dist prev index =>
       if (index =? 0)%nat then dist
       else if Z.abs dist <? Z.abs prev then dist else prev)
    (distThroughZero n prevIndex newIndex)
    [distThroughZeroReverse n prevIndex newIndex; distDirect prevIndex newIndex].

Definition onSectionHover (index : Z) : M unit :=
  s ← get;
  if index =? prevHoverIndex s then mret tt
  else
    match data s with
    | None => throw (EngineTypeError "cannot read properties of null")
    | Some d =>
        if (index >? Z.of_nat (length d) - 1) && negb (index =? sectionCount s - 1)
        then mret tt
        else
          let distance := hoverDistance (sectionCount s) (prevHoverIndex s) index in
          let newRotation :=
            (currSectionPointerRotation s + (360 / num (sectionCount s)) * num distance)%float in
          match sectionPointerElem s with
          | None => throw (EngineTypeError "cannot read properties of undefined")
          | Some p =>
              modify (set_pointer (Some (MkPointerEl (show p) (Some newRotation))));;
              modify (set_hover index newRotation)
          end
    end.

Definition set_show (b : bool) (p : PointerEl) : PointerEl :=
  MkPointerEl b (transform p).

Definition onMouseEnter : M unit :=
  modify (set_isMouseOver true);;
  modify (fun s => set_pointer (set_show true <$> sectionPointerElem s) s).

Definition onMouseLeave : M unit :=
  modify (set_isMouseOver false);;
  modify (fun s => set_pointer (set_show false <$> sectionPointerElem s) s).

(** ** Render reconciler: [indexToDefaultKey], [#render] *)

(** [this.defaultKeys]: the class declares only the private
    [#defaultKeys], so the public property does not exist. *)
Definition this_defaultKeys : value := VUndefined.

(** [v.length]. *)
Definition get_length (v : value) : result value :=
  match v with
  | VUndefined | VNull =>
      Throw (EngineTypeError "cannot read properties of undefined (reading 'length')")
  | VStr str => Ok (VNum (Z.of_nat (js_length str)))
  | VArr l => Ok (VNum (Z.of_nat (length l)))
  | VObj o => Ok (prop o "length")
  | _ => Ok VUndefined
  end.

(** [this.#defaultKeys[index % this.defaultKeys.length]]: the index
    expression is evaluated before the table is read. *)
Definition indexToDefaultKey (index : Z) : result value :=
  len ← get_length this_defaultKeys;
  mret (match len with
        | VNum m =>
            if m =? 0 then VUndefined
            else default VUndefined (VStr <$> at_index defaultKeys (Z.rem index m))
        | _ => VUndefined
        end).

(** [startAngle] and [endAngle] of the generating loop, for the loop
    counter [i]. *)
Definition startAngle_at (step off i : float) : float := (i * step + off)%float.
Definition endAngle_at (step off i : float) : float := ((i + 1) * step + off)%float.

(** The elements created for section [i] by a full rebuild. *)
Definition freshEl (step off : float) (locked : bool) (i : float) : SectionEl :=
  MkSectionEl (startAngle_at step off i) (endAngle_at step off i)
    false false (if locked then -1 else 0) (VStr "") (VStr "").

(** The generating loop [for (let i = 0; i < sectionCount; i++)], with
    [count] iterations left and the counter at [i]. *)
Fixpoint new_sections (count : nat) (i : float) (step off : float) (locked : bool)
  : list SectionEl :=
  match count with
  | O => []
  | S count => freshEl step off locked i :: new_sections count (i + 1)%float step off locked
  end.

(** The [sectionCountChanged] branch of [#render]: every element is
    recreated and the pointer is created with section 0. *)
Definition rebuild : M unit :=
  s ← get;
  modify (set_sections
            (new_sections (Z.to_nat (sectionCount s)) 0%float
               (angleStep s) (angleOffset s) (isLocked s)));;
  (if 0 <? sectionCount s
   then modify (set_pointer (Some (MkPointerEl (isMouseOver s) None)))
   else mret tt);;
  s1 ← get;
  match sectionPointerElem s1 with
  | None => throw (EngineTypeError "appendChild: parameter 1 is not a Node")
  | Some _ => mret tt
  end.

(** [isBackSection] and [isBlankSection] of the content loop. *)
Definition isBackSection (n : Z) (i : nat) : bool := Z.of_nat i =? n - 1.
Definition isBlankSection (n : Z) (len : nat) (i : nat) : bool :=
  negb (isBackSection n i) && (Z.of_nat i >? Z.of_nat len - 1).

Definition set_blank (el : SectionEl) : SectionEl :=
  MkSectionEl (startAngle el) (endAngle el) (selected el) true (tabindex el) (VStr "") (VStr "").
Definition set_contentText (v : value) (el : SectionEl) : SectionEl :=
  MkSectionEl (startAngle el) (endAngle el) (selected el) false (tabindex el) v (keyText el).
Definition set_keyText (v : value) (el : SectionEl) : SectionEl :=
  MkSectionEl (startAngle el) (endAngle el) (selected el) (empty el) (tabindex el) (contentText el) v.

(** A mutation of the elements of section [i], which must exist. *)
Definition update_section (i : nat) (f : SectionEl -> SectionEl) : M unit :=
  s ← get;
  match sections s !! i with
  | None => throw (EngineTypeError "cannot set properties of undefined")
  | Some _ => modify (fun s => set_sections (alter f i (sections s)) s)
  end.

(** One iteration of the content loop of [#render]. *)
Definition setContent (i : nat) : M unit :=
  s ← get;
  if isBackSection (sectionCount s) i
  then
    update_section i (set_contentText (VStr ""));;
    update_section i (set_keyText (VStr ""))
  else
    match data s with
    | None => throw (EngineTypeError "cannot read properties of null")
    | Some d =>
        if isBlankSection (sectionCount s) (length d) i
        then update_section i set_blank
        else
          match d !! i with
          | None => throw (EngineTypeError "cannot read properties of undefined")
          | Some item =>
              update_section i (set_contentText (prop item "text"));;
              k ← match prop item "key" with
                  | VUndefined => lift (indexToDefaultKey (Z.of_nat i))
                  | key => mret key
                  end;
              update_section i (set_keyText k)
          end
    end.

Fixpoint for_each (f : nat -> M unit) (l : list nat) : M unit :=
  match l with
  | [] => mret tt
  | i :: rest => f i;; for_each f rest
  end.

Definition render (sectionCountChanged : bool) : M unit :=
  (if sectionCountChanged then rebuild else mret tt);;
  s ← get;
  for_each setContent (seq 0 (Z.to_nat (sectionCount s))).

(** ** Public entry points: [setSections], the constructor *)

Definition setSections (raw : value) : M unit :=
  s ← get;
  let prevSegCount := match data s with None => 0 | Some _ => sectionCount s end in
  setData raw;;
  s1 ← get;
  render (negb (prevSegCount =? sectionCount s1));;
  if autoLockWheel s1 then toggleLockWheel false else mret tt.

(** [Number(attribute)], for the attribute values the embedding covers:
    [NaN], or an integer [z].  The section count of the instance is an
    integer ([Z]) throughout, so a [section-count] that is not an
    integer is outside the embedding, and so is one of magnitude 2^53
    or more, for which the [+ 1] of the constructor rounds. *)
Inductive number : Type :=
| NaN
| Num (z : Z).

Record attributes : Type := MkAttributes {
  attr_dynamic_section_count : bool;
  attr_section_count : option number;
  attr_auto_lock : bool;
  attr_data : option string
}.

(** [!Number(x) > 0]: the negation binds tighter than the comparison,
    so the test holds exactly when [Number(x)] is [0] or [NaN]. *)
Definition not_number_gt_zero (x : number) : bool :=
  match x with
  | NaN => true
  | Num z => z =? 0
  end.

(** The first half of the constructor: section count and auto-lock.
    [Number(sectionCountOption) + 1] is [z + 1] for the integers below
    2^53 in magnitude. *)
Definition configure (a : attributes) : M unit :=
  (if attr_dynamic_section_count a then mret tt
   else
     match attr_section_count a with
     | None => throw BadSectionCount
     | Some x =>
         if not_number_gt_zero x then throw BadSectionCount
         else
           modify (fun s => set_config (autoLockWheel s) true s);;
           modify (set_sectionCount (match x with Num z => z + 1 | NaN => 0 end))
     end);;
  modify (fun s => set_config (attr_auto_lock a) (staticSectionCount s) s).

(** The constructor body; [#initialRender] only creates the empty
    [svg], without the [unrawheel--locked] class. *)
Definition construct (a : attributes) : M unit :=
  configure a;;
  match attr_data a with
  | Some str =>
      setData (VStr str);;
      modify (set_isLocked false);;
      render true
  | None => mret tt
  end.

(** [new UnraWheel()] on an element with attributes [a]: the instance,
    unless the constructor throws. *)
Definition constructor (a : attributes) : result state :=
  match construct a initial with
  | Reply (Ok _) s _ => Ok s
  | Reply (Throw e) _ _ => Throw e
  end.

(** ** Events of the host *)

Inductive event : Type :=
| SetSections (raw : value)
| ToggleLockWheel (toggleLock : bool)
| KeyDown (key : string)
| Click (index : Z)
| Hover (index : Z)
| MouseEnter
| MouseLeave.

Definition handle (e : event) : M unit :=
  match e with
  | SetSections raw => setSections raw
  | ToggleLockWheel b => toggleLockWheel b
  | KeyDown key => onKeyPress key
  | Click index => onSectionClick index
  | Hover index => onSectionHover index
  | MouseEnter => onMouseEnter
  | MouseLeave => onMouseLeave
  end.

(** A click or a hover comes from an element that exists: its
    [data-section] is the index of a rendered section. *)
Definition deliverable (s : state) (e : event) : Prop :=
  match e with
  | Click index | Hover index => 0 <= index < Z.of_nat (length (sections s))
  | _ => True
  end.

Inductive reachable : state -> Prop :=
| reachable_new a s :
    constructor a = Ok s -> reachable s
| reachable_step s e :
    reachable s -> deliverable s e -> reachable (st (handle e s)).

(** The state after a sequence of events, whatever each handler's
    outcome. *)
Definition run (events : list event) (s : state) : state :=
  fold_left (fun s e => st (handle e s)) events s.

End Host.

(** ** Arcs *)

(** The two angles of a rendered sector. *)
Definition angles (el : SectionEl) : float * float := (startAngle el, endAngle el).

(** The span of a rendered sector and the sum of the spans of a wheel,
    in the arithmetic of the code. *)
Definition arcSpan (el : SectionEl) : float := (endAngle el - startAngle el)%float.
Definition sumSpans (l : list SectionEl) : float :=
  fold_left (fun acc el => (acc + arcSpan el)%float) l 0%float.

(** Every sector ends at the angle the next one starts at. *)
Definition adjacent (l : list SectionEl) : Prop :=
  forall j a b, l !! j = Some a -> l !! S j = Some b -> endAngle a = startAngle b.

(** The layout formulas of [#setData] and [#render] over any
    arithmetic: the code evaluates them in binary64, the specification
    reads them in exact real arithmetic. *)
Module Layout.

Class Arithmetic (T : Type) : Type := {
  zero : T;
  one : T;
  two : T;
  pi : T;
  add : T -> T -> T;
  sub : T -> T -> T;
  mul : T -> T -> T;
  div : T -> T -> T;
  of_Z : Z -> T
}.

Section Formulas.

Context {T : Type} `{Arithmetic T}.

(** [(2 * Math.PI) / this.#sectionCount] and
    [Math.PI + this.#angleStep / 2]. *)
Definition angleStep (n : Z) : T := div (mul two pi) (of_Z n).
Definition angleOffset (step : T) : T := add pi (div step two).

(** [i * this.#angleStep + this.#angleOffset] and
    [(i + 1) * this.#angleStep + this.#angleOffset]. *)
Definition startAngle (step off i : T) : T := add (mul i step) off.
Definition endAngle (step off i : T) : T := add (mul (add i one) step) off.



Definition span (arc : T * T) : T := sub (snd arc) (fst arc).
Definition sumSpans (l : list (T * T)) : T :=
  fold_left (fun acc arc => add acc (span arc)) l zero.

End Formulas.

(** The arithmetic of the code. *)
#[global] Instance binary64 : Arithmetic float := {|
  zero := 0%float;
  one := 1%float;
  two := 2%float;
  pi := Math_PI;
  add := PrimFloat.add;
  sub := PrimFloat.sub;
  mul := PrimFloat.mul;
  div := PrimFloat.div;
  of_Z := num
|}.

(** Exact real arithmetic. *)
#[global] Instance exact : Arithmetic R := {|
  zero := 0%R;
  one := 1%R;
  two := 2%R;
  pi := PI;
  add := Rplus;
  sub := Rminus;
  mul := Rmult;
  div := Rdiv;
  of_Z := IZR
|}.

End Layout.

(** ** Vocabulary of the properties *)

(** [framed P E m]: from every state, the handler [m] ends (normally or
    by a throw) in a state related to the start by [P], and throws only
    errors in [E]. *)
Definition framed (P : state -> state -> Prop) (E : error -> Prop) {A} (m : M A)
  : Prop :=
  forall s,
    P s (st (m s))
    /\ (forall e, res (m s) = Throw e -> E e).

(** The fields that neither rendering nor locking touches. *)
Definition same_model (s s' : state) : Prop :=
  data s' = data s
  /\ sectionCount s' = sectionCount s
  /\ prevHoverIndex s' = prevHoverIndex s
  /\ currSectionPointerRotation s' = currSectionPointerRotation s
  /\ angleStep s' = angleStep s
  /\ angleOffset s' = angleOffset s
  /\ keyDistanceFromCenter s' = keyDistanceFromCenter s
  /\ staticSectionCount s' = staticSectionCount s
  /\ autoLockWheel s' = autoLockWheel s.

(** The same, and as many rendered sections. *)
Definition same_shape (s s' : state) : Prop :=
  same_model s s' /\ length (sections s') = length (sections s).

(** The same sector angles, in the same order. *)
Definition same_angles (s s' : state) : Prop :=
  angles <$> sections s' = angles <$> sections s.

(** The fields only [setSections] changes. *)
Definition same_wheel (s s' : state) : Prop :=
  data s' = data s
  /\ sectionCount s' = sectionCount s
  /\ staticSectionCount s' = staticSectionCount s
  /\ autoLockWheel s' = autoLockWheel s
  /\ length (sections s') = length (sections s).

(** The [TypeError]s raised by the engine. *)
Definition engine_error (e : error) : Prop := exists what, e = EngineTypeError what.

(** The [TypeError] of [indexToDefaultKey]. *)
Definition undefined_length : error :=
  EngineTypeError "cannot read properties of undefined (reading 'length')".

(** Once section data is set, the wheel has one rendered section per
    counted section (the last one being the back section). *)
Definition rendered (s : state) : Prop :=
  data s <> None -> Z.of_nat (length (sections s)) = sectionCount s.

(** The instance after the first half of the constructor. *)
Definition configured (a : attributes) (s : state) : Prop :=
  data s = None
  /\ sections s = []
  /\ sectionPointerElem s = None
  /\ isLocked s = true
  /\ svgLocked s = false
  /\ autoLockWheel s = attr_auto_lock a
  /\ staticSectionCount s = negb (attr_dynamic_section_count a)
  /\ prevHoverIndex s = 0
  /\ currSectionPointerRotation s = 0%float.

(** The state [#setData] builds from a validated list. *)
Definition setData_result (items : list (gmap string value)) (s : state) : state :=
  let n := if staticSectionCount s then sectionCount s
           else Z.of_nat (length items) + 1 in
  let changed := negb (sectionCount s =? n) in
  MkState (Some items)
    (angleStep_of n) (angleOffset_of (angleStep_of n))
    (if changed then 0 else prevHoverIndex s)
    (if changed then 0%float else currSectionPointerRotation s)
    (keyDistance_of n) n
    (isMouseOver s) (isLocked s) (autoLockWheel s) (staticSectionCount s)
    (sections s) (sectionPointerElem s) (svgLocked s).

(** What follows [#setData] in [setSections]. *)
Definition after_setData (prevSegCount : Z) : M unit :=
  s1 ← get;
  render (negb (prevSegCount =? sectionCount s1));;
  if autoLockWheel s1 then toggleLockWheel false else mret tt.

(** Whether iteration [i] of the content loop of [#render] returns or
    throws, as a function of the section data [d], the section count
    [n] and the number [len] of rendered sections. *)
Definition content_outcome (d : option (list (gmap string value))) (n : Z)
    (len : nat) (i : nat) : result unit :=
  let present : result unit :=
    if (i <? len)%nat then Ok tt
    else Throw (EngineTypeError "cannot set properties of undefined") in
  if isBackSection n i then present
  else
    match d with
    | None => Throw (EngineTypeError "cannot read properties of null")
    | Some d =>
        if isBlankSection n (length d) i then present
        else
          match d !! i with
          | None => Throw (EngineTypeError "cannot read properties of undefined")
          | Some item =>
              _ ← present;
              match prop item "key" with
              | VUndefined => Throw undefined_length
              | _ => Ok tt
              end
          end
    end.

(** The same for the iterations [l] in turn. *)
Fixpoint loop_outcome (d : option (list (gmap string value))) (n : Z)
    (len : nat) (l : list nat) : result unit :=
  match l with
  | [] => Ok tt
  | i :: rest => _ ← content_outcome d n len i; loop_outcome d n len rest
  end.

(** The fields of an item other than its key pass the checks of
    [#setData]. *)
Definition fields_valid (v : value) : Prop :=
  is_Some (assign_empty v !! "value"%string)
  /\ (exists t, assign_empty v !! "text"%string = Some (VStr t))
  /\ (assign_empty v !! "image"%string = None
      \/ exists u, assign_empty v !! "image"%string = Some (VStr u)).

(** ** Concrete wheels *)

(** A host whose [JSON.parse] rejects every text; the lists below are
    passed as arrays. *)
Definition rejecting_parse : string -> option value := fun _ => None.

(** [{ value: v, text: t }]. *)
Definition plain_item (v : Z) (t : string) : value :=
  object [("value"%string, VNum v); ("text"%string, VStr t)].

(** The instance a constructor call returned. *)
Definition of_result (r : result state) : state :=
  match r with
  | Ok s => s
  | Throw _ => initial
  end.

(** [<unrawheel-v1 dynamic-section-count>], without data. *)
Definition dynamic_attributes : attributes := MkAttributes true None false None.
Definition dynamic_wheel : state :=
  of_result (constructor rejecting_parse dynamic_attributes).

(** A list of [k] items without keys. *)
Definition items_list (k : nat) : value :=
  VArr (imap (fun i _ => plain_item (Z.of_nat i) "item") (replicate k tt)).

(** The dynamic wheel after [setSections] with [k] such items. *)
Definition wheel_of (k : nat) : state :=
  st (setSections rejecting_parse (items_list k) dynamic_wheel).

(** [<unrawheel-v1 section-count="10">] with three items. *)
Definition fixed_attributes : attributes := MkAttributes false (Some (Num 10)) false None.
Definition fixed_wheel : state :=
  st (setSections rejecting_parse (items_list 3)
        (of_result (constructor rejecting_parse fixed_attributes))).

(** The stored section list ([[]] while [#data] is [null]). *)
Definition data_of (s : state) : list (gmap string value) :=
  default [] (data s).

(** The stored form of a list that passes validation on a dynamic
    wheel. *)
Definition validated (raw : value) : list (gmap string value) :=
  match normalize rejecting_parse false 0 raw with
  | Ok items => items
  | Throw _ => []
  end.

(** The call returned normally. *)
Definition returns {A} (r : result A) : bool :=
  match r with
  | Ok _ => true
  | Throw _ => false
  end.

(** A list whose only item has the empty string as its key. *)
Definition empty_key_item : value :=
  object [("value"%string, VNum 1); ("text"%string, VStr "one");
          ("key"%string, VStr "")].

(** ** Vocabulary of the further properties *)

(** The [tabindex] that [toggleLockWheel] and [#createLinkElement] give a
    link. *)
Definition lock_tabindex (locked : bool) : Z := if locked then -1 else 0.

(** The instance after [toggleLockWheel(toggleLock)]. *)
Definition toggle_result (toggleLock : bool) (s : state) : state :=
  if Bool.eqb toggleLock (isLocked s) then s
  else
    set_sections (map (set_tabindex (if toggleLock then -1 else 0)) (sections s))
      (set_svgLocked toggleLock (set_isLocked toggleLock s)).

(** What the content loop of [#render] leaves of a section's elements:
    the angles, the selection pulse and the [tabindex]. *)
Definition fixture (el : SectionEl) : float * float * bool * Z :=
  (startAngle el, endAngle el, selected el, tabindex el).

(** The same fixtures, and the same instance but for the section
    elements. *)
Definition same_fixtures (s s' : state) : Prop :=
  fixture <$> sections s' = fixture <$> sections s
  /\ set_sections [] s' = set_sections [] s.

(** A handler that dispatches no event. *)
Definition quiet {A} (m : M A) : Prop := forall s, out (m s) = [].


(** The instance after [#onSectionSelect] got past its guard on an
    existing element: the pulse is on and the wheel is locked if
    [auto-lock] is set. *)
Definition select_state (sectionIndex : Z) (s : state) : state :=
  let marked :=
    match at_index (sections s) sectionIndex with
    | Some elem =>
        if selected elem then s
        else set_sections (alter set_selected (Z.to_nat sectionIndex) (sections s)) s
    | None => s
    end in
  if autoLockWheel s then toggle_result true marked else marked.

(** A raw item at index [i] that passes the checks of [#setData] and is
    stored with a key: its own one-character key, or one of the 36
    default keys. *)
Definition item_valid (i : nat) (v : value) : Prop :=
  fields_valid v
  /\ match assign_empty v !! "key"%string with
     | Some k => exists c, k = VStr c /\ js_length c = 1%nat
     | None => (i < 36)%nat
     end.

(** A stored section at index [i]. *)
Definition stored_ok (i : nat) (item : gmap string value) : Prop :=
  is_Some (item !! "value"%string)
  /\ (exists t, item !! "text"%string = Some (VStr t))
  /\ (item !! "image"%string = None
      \/ exists u, item !! "image"%string = Some (VStr u))
  /\ ((exists c, item !! "key"%string = Some (VStr c) /\ js_length c = 1%nat)
      \/ (item !! "key"%string = Some VUndefined /\ (36 <= i)%nat)).

(** What every reachable instance satisfies. *)
Definition lock_inv (s : state) : Prop :=
  Forall (fun el => tabindex el = lock_tabindex (isLocked s)) (sections s)
  /\ (svgLocked s = true -> isLocked s = true).

Definition pointer_inv (s : state) : Prop :=
  match sectionPointerElem s with
  | Some p =>
      show p = isMouseOver s
      /\ currSectionPointerRotation s = default 0%float (transform p)
  | None => currSectionPointerRotation s = 0%float
  end.

Definition shape_inv (s : state) : Prop :=
  0 <= prevHoverIndex s
  /\ match data s with
     | None =>
         sections s = [] /\ sectionPointerElem s = None /\ prevHoverIndex s = 0
     | Some d =>
         d <> []
         /\ Z.of_nat (length d) + 1 <= sectionCount s
         /\ (staticSectionCount s = false -> sectionCount s = Z.of_nat (length d) + 1)
         /\ Z.of_nat (length (sections s)) = sectionCount s
         /\ is_Some (sectionPointerElem s)
         /\ prevHoverIndex s < sectionCount s
     end.

Definition layout_inv (s : state) : Prop :=
  match data s with
  | None => True
  | Some _ =>
      angleStep s = angleStep_of (sectionCount s)
      /\ angleOffset s = angleOffset_of (angleStep s)
      /\ keyDistanceFromCenter s = keyDistance_of (sectionCount s)
      /\ angles <$> sections s
         = angles <$> new_sections (length (sections s)) 0%float
                        (angleStep s) (angleOffset s) false
  end.

Definition items_inv (s : state) : Prop :=
  forall d i item, data s = Some d -> d !! i = Some item -> stored_ok i item.

Definition wheel_inv (s : state) : Prop :=
  lock_inv s /\ pointer_inv s /\ shape_inv s /\ layout_inv s /\ items_inv s.

(** The instance after the [sectionCountChanged] branch of [#render] on a
    wheel with at least one section. *)
Definition rebuilt (s : state) : state :=
  set_pointer (Some (MkPointerEl (isMouseOver s) None))
    (set_sections
       (new_sections (Z.to_nat (sectionCount s)) 0%float
          (angleStep s) (angleOffset s) (isLocked s)) s).



(** [attributeChangedCallback(name, _, newValue)]; the host passes
    [null] as [newValue] when the attribute was removed. *)
Definition attributeChangedCallback (JSON_parse : string -> option value)
    (name : string) (newValue : value) : M unit :=
  if String.eqb name "data" then setSections JSON_parse newValue else mret tt.

(** [{ value: 1, text: 'one', key: '€' }]: a key of one character,
    three bytes in UTF-8. *)
Definition euro_key_item : value :=
  object [("value"%string, VNum 1); ("text"%string, VStr "one");
          ("key"%string, VStr "€")].

(** [{ text: 'x' }]: no value. *)
Definition valueless_item : value := object [("text"%string, VStr "x")].

(** [<unrawheel-v1 dynamic-section-count auto-lock>] after [setSections]
    with three items. *)
Definition auto_attributes : attributes := MkAttributes true None true None.
Definition auto_wheel : state :=
  st (setSections rejecting_parse (items_list 3)
        (of_result (constructor rejecting_parse auto_attributes))).

(** A wheel of three items that was unlocked, entered and hovered. *)
Definition used_wheel : state :=
  run rejecting_parse [ToggleLockWheel false; MouseEnter; Hover 2] (wheel_of 3).

(** ** The demo page script *)

(** The items of the [data] array of the demo page. *)
Definition demo_objects : list (gmap string value) :=
  [ list_to_map [("value"%string, VStr "value_1");
                 ("image"%string, VStr "./icons/apc.png");
                 ("text"%string, VStr "IFVs & APCs")];
    list_to_map [("value"%string, VStr "value_2");
                 ("image"%string, VStr "./icons/turret.png");
                 ("text"%string, VStr "Anti-tank Missile")];
    list_to_map [("value"%string, VStr "value_3");
                 ("image"%string, VStr "./icons/jeep.png");
                 ("text"%string, VStr "Tactical & MRAP")];
    list_to_map [("value"%string, VStr "value_4");
                 ("image"%string, VStr "./icons/flatbed-covered.png");
                 ("text"%string, VStr "Support & Logistics")];
    list_to_map [("value"%string, VStr "value_5");
                 ("image"%string, VStr "./icons/tank.png");
                 ("text"%string, VStr "Tanks & -Support")] ].

Definition demo_data : value := VArr (VObj <$> demo_objects).

(** [v === -1]. *)
Definition is_minus_one (v : value) : bool :=
  match v with
  | VNum z => z =? -1
  | _ => false
  end.

(** The counter of the [section-select] listener after an event with
    the detail value [v]:
    [counter += v === -1 ? -1 : 1; if (counter === -1) counter = 0]. *)
Definition next_counter (v : value) (counter : Z) : Z :=
  let counter := counter + (if is_minus_one v then -1 else 1) in
  if counter =? -1 then 0 else counter.

(** [Object.assign({}, data[i], { text: data[k].text, image: data[k].image })]
    with [k = (i + counter) % 5]; reading a property of a missing
    [data[k]] is a [TypeError]. *)
Definition ndata_item (counter i : Z) : result value :=
  match at_index demo_objects (Z.rem (i + counter) 5) with
  | None => Throw (EngineTypeError "cannot read properties of undefined")
  | Some src =>
      Ok (VObj (<["image"%string := prop src "image"]>
                  (<["text"%string := prop src "text"]>
                     (default ∅ (at_index demo_objects i)))))
  end.

(** The loop that fills [ndata], over the remaining values of [i]. *)
Fixpoint ndata (counter : Z) (indices : list Z) : result (list value) :=
  match indices with
  | [] => Ok []
  | i :: rest =>
      if (i =? 0) && (Z.rem counter 3 =? 0) then ndata counter rest
      else if (i =? 1) && (Z.rem counter 5 =? 0) then ndata counter rest
      else
        item ← ndata_item counter i;
        items ← ndata counter rest;
        mret (item :: items)
  end.

(** What the listener does to the wheel, its counter being [counter]
    already. *)
Definition listener (JSON_parse : string -> option value) (counter : Z) : M unit :=
  items ← lift (ndata counter [0; 1; 2; 3; 4]);
  setSections JSON_parse (VArr items).

(** * Properties *)

(** ** Pointer and hover tracker *)

Ltac run_monad :=
  unfold mbind, mret, M_bind, M_ret, result_bind, result_ret,
    bind, ret, get, modify, throw, lift, dispatchEvent in *;
  cbn [res st out] in *.

(** Laws of the handler monad. *)
Lemma bind_get {B} (k : state -> M B) s : (get ≫= k) s = k s s.
Proof. run_monad. destruct (k s s). reflexivity. Qed.

Lemma bind_ret {A B} (a : A) (k : A -> M B) s : (mret a ≫= k) s = k a s.
Proof. run_monad. destruct (k a s). reflexivity. Qed.

Lemma bind_modify {B} f (k : unit -> M B) s : (modify f ≫= k) s = k tt (f s).
Proof. run_monad. destruct (k tt (f s)). reflexivity. Qed.

Lemma bind_throw {A B} e (k : A -> M B) s :
  (throw e ≫= k) s = Reply (Throw e) s [].
Proof. reflexivity. Qed.

Lemma bind_reply {A B} (m : M A) (k : A -> M B) s :
  (m ≫= k) s =
    match m s with
    | Reply (Ok a) s1 o1 => Reply (res (k a s1)) (st (k a s1)) (o1 ++ out (k a s1))
    | Reply (Throw e) s1 o1 => Reply (Throw e) s1 o1
    end.
Proof.
  run_monad. destruct (m s) as [[a|e] s1 o1]; [|reflexivity].
  destruct (k a s1). reflexivity.
Qed.

Lemma hoverDistance_unfold n prev index :
  hoverDistance n prev index =
    let a :=
      if Z.abs (distThroughZero n prev index) <? Z.abs (distThroughZeroReverse n prev index)
      then distThroughZero n prev index
      else distThroughZeroReverse n prev index in
    if Z.abs a <? Z.abs (distDirect prev index) then a else distDirect prev index.
Proof. reflexivity. Qed.

(** The chosen distance is one of the three candidates and no other
    candidate is smaller in magnitude, whatever the arguments. *)
Lemma hoverDistance_minimal n prev index :
  let d := hoverDistance n prev index in
  (d = distDirect prev index \/ d = distThroughZero n prev index
   \/ d = distThroughZeroReverse n prev index)
  /\ Z.abs d <= Z.abs (distDirect prev index)
  /\ Z.abs d <= Z.abs (distThroughZero n prev index)
  /\ Z.abs d <= Z.abs (distThroughZeroReverse n prev index).
Proof.
  cbv zeta. rewrite hoverDistance_unfold. cbv zeta.
  repeat case_match; repeat match goal with
    | H : (_ <? _) = true |- _ => apply Z.ltb_lt in H
    | H : (_ <? _) = false |- _ => apply Z.ltb_ge in H
    end; lia.
Qed.

(** Between two indices of the wheel the chosen distance covers at most
    half of the wheel. *)
Lemma hoverDistance_half n prev index :
  0 <= prev < n -> 0 <= index < n ->
  Z.abs (hoverDistance n prev index) <= n / 2.
Proof.
  intros Hp Hi.
  destruct (hoverDistance_minimal n prev index) as (_ & Hd & Hf & Hr).
  unfold distDirect, distThroughZero, distThroughZeroReverse in *.
  assert (2 * Z.abs (hoverDistance n prev index) <= n) by lia.
  apply Z.div_le_lower_bound; lia.
Qed.

(** What an accepted hover does to the interaction state. *)
Lemma onSectionHover_accepted s d p index :
  data s = Some d ->
  sectionPointerElem s = Some p ->
  index <> prevHoverIndex s ->
  index <= Z.of_nat (length d) - 1 \/ index = sectionCount s - 1 ->
  let newRotation :=
    (currSectionPointerRotation s
     + (360 / num (sectionCount s))
       * num (hoverDistance (sectionCount s) (prevHoverIndex s) index))%float in
  onSectionHover index s =
    Reply (Ok tt)
      (set_hover index newRotation
         (set_pointer (Some (MkPointerEl (show p) (Some newRotation))) s)) [].
Proof.
  intros Hd Hp Hne Hacc. unfold onSectionHover. run_monad.
  destruct (Z.eqb_spec index (prevHoverIndex s)) as [|_]; [contradiction|].
  rewrite Hd, Hp.
  assert ((index >? Z.of_nat (length d) - 1) && negb (index =? sectionCount s - 1) = false) as ->.
  { apply andb_false_iff. destruct Hacc as [H|H].
    - left. lia.
    - right. subst index. rewrite Z.eqb_refl. reflexivity. }
  reflexivity.
Qed.

(** C1: for a section count [n >= 2] and an accepted hover from
    [prevIndex] to a different [newIndex], both in [0, n), the signed
    step count the hover handler uses is one of the direct candidate
    [newIndex - prevIndex], the forward-wrap candidate
    [n - prevIndex + newIndex] and the backward-wrap candidate
    [-(n + prevIndex - newIndex)], none of the three is smaller in
    absolute value, its magnitude is at most [n / 2], and the handler
    turns the pointer by that many steps; with [n = 6], hovering from
    index 0 to index 4 gives [-2]. *)
Theorem hover_shortest_path s d p index :
  data s = Some d ->
  sectionPointerElem s = Some p ->
  2 <= sectionCount s ->
  0 <= prevHoverIndex s < sectionCount s ->
  0 <= index < sectionCount s ->
  index <> prevHoverIndex s ->
  index <= Z.of_nat (length d) - 1 \/ index = sectionCount s - 1 ->
  let n := sectionCount s in
  let prev := prevHoverIndex s in
  let steps := hoverDistance n prev index in
  let r := onSectionHover index s in
  (steps = index - prev \/ steps = n - prev + index
   \/ steps = - (n + prev - index))
  /\ Z.abs steps <= Z.abs (index - prev)
  /\ Z.abs steps <= Z.abs (n - prev + index)
  /\ Z.abs steps <= Z.abs (- (n + prev - index))
  /\ Z.abs steps <= n / 2
  /\ res r = Ok tt
  /\ prevHoverIndex (st r) = index
  /\ currSectionPointerRotation (st r)
     = (currSectionPointerRotation s + (360 / num n) * num steps)%float
  /\ hoverDistance 6 0 4 = -2.
Proof.
  intros Hd Hp Hn Hprev Hidx Hne Hacc n prev steps r.
  destruct (hoverDistance_minimal n prev index) as (Hc & H1 & H2 & H3).
  pose proof (hoverDistance_half n prev index Hprev Hidx) as Hhalf.
  unfold distDirect, distThroughZero, distThroughZeroReverse in Hc, H1, H2, H3.
  subst r. rewrite (onSectionHover_accepted s d p index Hd Hp Hne Hacc).
  repeat split; try assumption; reflexivity.
Qed.

(** C2, as the code has it: when candidates tie in absolute value the
    reduction keeps the last minimal one in the order forward-wrap,
    backward-wrap, direct; the direct candidate is chosen as soon as
    its magnitude is not larger than that of both wrap candidates.  With
    [sectionCount = 4], [prevIndex = 0], [newIndex = 2] the result is
    the direct value [+2]. *)
Theorem hover_tie_keeps_last n prev index :
  hoverDistance n prev index =
    (if Z.abs (distDirect prev index)
        <=? Z.min (Z.abs (distThroughZero n prev index))
                  (Z.abs (distThroughZeroReverse n prev index))
     then distDirect prev index
     else if Z.abs (distThroughZeroReverse n prev index)
             <=? Z.abs (distThroughZero n prev index)
          then distThroughZeroReverse n prev index
          else distThroughZero n prev index)
  /\ hoverDistance 4 0 2 = 2.
Proof.
  split; [|reflexivity].
  rewrite hoverDistance_unfold. cbv zeta.
  repeat case_match; repeat match goal with
    | H : (_ <? _) = true |- _ => apply Z.ltb_lt in H
    | H : (_ <? _) = false |- _ => apply Z.ltb_ge in H
    | H : (_ <=? _) = true |- _ => apply Z.leb_le in H
    | H : (_ <=? _) = false |- _ => apply Z.leb_gt in H
    end; try reflexivity; lia.
Qed.

(** C2 as stated fails: at the tie between the direct value [+2] and
    the backward-wrap value [-2] the handler uses [+2]. *)
Lemma hover_tie_counterexample :
  Z.abs (distDirect 0 2) = Z.abs (distThroughZeroReverse 4 0 2)
  /\ hoverDistance 4 0 2 = distDirect 0 2
  /\ hoverDistance 4 0 2 <> -2.
Proof. repeat split; vm_compute; congruence. Qed.

(** ** Frame reasoning for handlers *)

Section Frame.

Variable P : state -> state -> Prop.
Variable E : error -> Prop.
Hypothesis P_refl : forall s, P s s.
Hypothesis P_trans : forall a b c, P a b -> P b c -> P a c.

Lemma framed_ret {A} (a : A) : framed P E (mret a).
Proof. intros s. run_monad. split; [apply P_refl | discriminate]. Qed.

Lemma framed_get : framed P E get.
Proof. intros s. run_monad. split; [apply P_refl | discriminate]. Qed.

Lemma framed_dispatchEvent v : framed P E (dispatchEvent v).
Proof. intros s. run_monad. split; [apply P_refl | discriminate]. Qed.

Lemma framed_throw {A} e : E e -> framed P E (@throw A e).
Proof.
  intros He s. run_monad. split; [apply P_refl|].
  intros e' [= <-]. exact He.
Qed.

Lemma framed_modify f : (forall s, P s (f s)) -> framed P E (modify f).
Proof. intros Hf s. run_monad. split; [apply Hf | discriminate]. Qed.

Lemma framed_bind {A B} (m : M A) (k : A -> M B) :
  framed P E m -> (forall a, framed P E (k a)) -> framed P E (m ≫= k).
Proof.
  intros Hm Hk s. specialize (Hm s). run_monad.
  destruct (m s) as [[a|e] s1 o1]; cbn [res st out] in *.
  - specialize (Hk a s1). destruct (k a s1) as [r s2 o2]; cbn [res st out] in *.
    destruct Hm as (Hp & _). destruct Hk as (Hp2 & He).
    split; [eapply P_trans; eassumption | exact He].
  - destruct Hm as (Hp & He). split; [exact Hp|].
    intros e' [= <-]. apply He. reflexivity.
Qed.

Lemma framed_lift {A} (r : result A) :
  (forall e, r = Throw e -> E e) -> framed P E (lift r).
Proof.
  intros Hr. destruct r as [a|e]; [apply framed_ret|].
  apply framed_throw, Hr. reflexivity.
Qed.

Lemma framed_for_each (f : nat -> M unit) l :
  (forall i, framed P E (f i)) -> framed P E (for_each f l).
Proof.
  intros Hf. induction l as [|i l IH]; cbn [for_each].
  - apply framed_ret.
  - apply framed_bind; [apply Hf | intros _; exact IH].
Qed.

End Frame.

Lemma same_model_refl s : same_model s s.
Proof. repeat split. Qed.

Lemma same_model_trans a b c : same_model a b -> same_model b c -> same_model a c.
Proof. unfold same_model. intros; intuition congruence. Qed.

Lemma same_shape_refl s : same_shape s s.
Proof. split; [apply same_model_refl | reflexivity]. Qed.

Lemma same_shape_trans a b c : same_shape a b -> same_shape b c -> same_shape a c.
Proof.
  intros [H1 L1] [H2 L2]. split; [eapply same_model_trans; eassumption | congruence].
Qed.

Lemma same_angles_refl s : same_angles s s.
Proof. reflexivity. Qed.

Lemma same_angles_trans a b c : same_angles a b -> same_angles b c -> same_angles a c.
Proof. unfold same_angles. congruence. Qed.

Lemma fmap_alter_angles f i (l : list SectionEl) :
  (forall el, angles (f el) = angles el) ->
  angles <$> alter f i l = angles <$> l.
Proof.
  intros Hf. revert i. induction l as [|el l IH]; intros [|i]; cbn; [reflexivity.. | |].
  - rewrite Hf. reflexivity.
  - f_equal. apply IH.
Qed.

Lemma fmap_map_angles f (l : list SectionEl) :
  (forall el, angles (f el) = angles el) ->
  angles <$> map f l = angles <$> l.
Proof.
  intros Hf. induction l as [|el l IH]; cbn; [reflexivity|].
  rewrite Hf. f_equal. exact IH.
Qed.

Lemma engine_error_not_validation e : engine_error e -> is_validation_error e = false.
Proof. intros [what ->]. reflexivity. Qed.

Create HintDb frame.
#[local] Hint Resolve same_model_refl same_model_trans
  same_shape_refl same_shape_trans same_angles_refl same_angles_trans : frame.

Ltac frame_side := solve [ eauto with frame ].

Ltac frame_step :=
  first
    [ apply framed_bind; [ frame_side .. | | intros ? ]
    | apply framed_ret; frame_side
    | apply framed_get; frame_side
    | apply framed_dispatchEvent; frame_side
    | apply framed_for_each; [ frame_side .. | intros ? ]
    | apply framed_modify; intros ?;
        first
          [ solve [ repeat split; cbn; rewrite ?length_map, ?length_alter; reflexivity ]
          | solve [ unfold same_angles; cbn;
                    first [ reflexivity
                          | apply fmap_alter_angles; intros ?; reflexivity
                          | apply fmap_map_angles; intros ?; reflexivity ] ] ]
    | apply framed_throw; [ frame_side .. | first [ reflexivity | eexists; reflexivity ] ]
    | assumption
    | progress case_match ].

Ltac frame := repeat frame_step.

Lemma toggleLockWheel_framed E b : framed same_shape E (toggleLockWheel b).
Proof. unfold toggleLockWheel. frame. Qed.

Lemma indexToDefaultKey_throws index :
  indexToDefaultKey index
  = Throw (EngineTypeError "cannot read properties of undefined (reading 'length')").
Proof. reflexivity. Qed.

Lemma update_section_framed i f :
  framed same_shape engine_error (update_section i f).
Proof. unfold update_section. frame. Qed.

Lemma setContent_framed i : framed same_shape engine_error (setContent i).
Proof.
  unfold setContent. pose proof update_section_framed.
  frame; try apply H.
Qed.

Lemma content_loop_framed l :
  framed same_shape engine_error (for_each setContent l).
Proof.
  apply framed_for_each; [frame_side .. |]. apply setContent_framed.
Qed.

Lemma framed_weaken (P Q : state -> state -> Prop) E {A} (m : M A) :
  (forall s s', P s s' -> Q s s') -> framed P E m -> framed Q E m.
Proof. intros HPQ Hm s. destruct (Hm s) as [Hp He]. split; [apply HPQ, Hp | exact He]. Qed.

Lemma same_shape_model s s' : same_shape s s' -> same_model s s'.
Proof. intros [H _]. exact H. Qed.

Lemma onSectionSelect_framed index :
  framed same_shape engine_error (onSectionSelect index).
Proof.
  unfold onSectionSelect. pose proof (toggleLockWheel_framed engine_error true).
  frame.
Qed.

Lemma onKeyPress_framed key : framed same_shape engine_error (onKeyPress key).
Proof.
  unfold onKeyPress. pose proof onSectionSelect_framed. frame; apply H.
Qed.


Lemma rebuild_framed : framed same_model engine_error rebuild.
Proof. unfold rebuild. frame. Qed.

Lemma render_framed flag : framed same_model engine_error (render flag).
Proof.
  unfold render. pose proof rebuild_framed.
  pose proof (fun l => framed_weaken _ _ _ _ same_shape_model (content_loop_framed l)).
  frame.
Qed.

(** ** Section model *)

Section Model.

Variable JSON_parse : string -> option value.

Lemma parseUnraWheelData_validation item i e :
  parseUnraWheelData item i = Throw e -> is_validation_error e = true.
Proof.
  unfold parseUnraWheelData. intros H.
  repeat case_match; try discriminate; injection H as <-; reflexivity.
Qed.

Lemma data_map_validation l i e :
  data_map l i = Throw e -> is_validation_error e = true.
Proof.
  revert i. induction l as [|item l IH]; intros i; cbn [data_map]; [discriminate|].
  run_monad.
  destruct (parseUnraWheelData item i) as [o|e'] eqn:Hp.
  - destruct (data_map l (S i)) as [os|e'] eqn:Hm; [discriminate|].
    intros [= <-]. eapply IH. exact Hm.
  - intros [= <-]. eapply parseUnraWheelData_validation. exact Hp.
Qed.

Lemma normalize_validation static n raw e :
  normalize JSON_parse static n raw = Throw e -> is_validation_error e = true.
Proof.
  unfold normalize. run_monad.
  destruct (parse_input JSON_parse raw) as [d|e'] eqn:Hp.
  - destruct (isArray d) as [l|]; [|intros [= <-]; reflexivity].
    destruct (length l =? 0)%nat; [intros [= <-]; reflexivity|].
    destruct (static && _); [intros [= <-]; reflexivity|].
    apply data_map_validation.
  - intros [= <-]. unfold parse_input in Hp.
    repeat case_match; try discriminate; injection Hp as <-; reflexivity.
Qed.

(** A failed validation leaves the instance as it was. *)
Lemma setData_throw s raw e :
  normalize JSON_parse (staticSectionCount s) (sectionCount s) raw = Throw e ->
  setData JSON_parse raw s = Reply (Throw e) s [].
Proof. intros H. unfold setData. run_monad. rewrite H. reflexivity. Qed.

Lemma setData_ok s raw items :
  normalize JSON_parse (staticSectionCount s) (sectionCount s) raw = Ok items ->
  setData JSON_parse raw s = Reply (Ok tt) (setData_result items s) [].
Proof.
  intros H. unfold setData, setData_result. run_monad. rewrite H.
  destruct s as [d st0 off hov rot key n over lock auto static secs ptr svg].
  cbn in *. destruct static; cbn.
  - rewrite Z.eqb_refl. reflexivity.
  - destruct (n =? Z.of_nat (length items) + 1); reflexivity.
Qed.

Lemma setSections_unfold raw s :
  setSections JSON_parse raw s =
    (setData JSON_parse raw;;
     after_setData (match data s with None => 0 | Some _ => sectionCount s end)) s.
Proof. unfold setSections. rewrite bind_get. reflexivity. Qed.

Lemma after_setData_framed prev : framed same_model engine_error (after_setData prev).
Proof.
  unfold after_setData.
  pose proof render_framed.
  pose proof (fun b => framed_weaken _ _ _ _ same_shape_model
                         (toggleLockWheel_framed engine_error b)).
  frame; first [apply H | apply H0].
Qed.

(** [setSections] after a successful validation: the outcome is that of
    rendering the new list. *)
Lemma setSections_validated s raw items :
  normalize JSON_parse (staticSectionCount s) (sectionCount s) raw = Ok items ->
  setSections JSON_parse raw s =
    after_setData (match data s with None => 0 | Some _ => sectionCount s end)
      (setData_result items s).
Proof.
  intros H. rewrite setSections_unfold, bind_reply.
  rewrite (setData_ok s raw items H).
  destruct (after_setData _ _) as [r s2 o2]. reflexivity.
Qed.

Lemma setSections_rejected s raw e :
  normalize JSON_parse (staticSectionCount s) (sectionCount s) raw = Throw e ->
  setSections JSON_parse raw s = Reply (Throw e) s [].
Proof.
  intros H. rewrite setSections_unfold, bind_reply.
  rewrite (setData_throw s raw e H). reflexivity.
Qed.

(** The inputs on which the validation raises. *)
Lemma normalize_unparseable static n str :
  JSON_parse str = None ->
  normalize JSON_parse static n (VStr str) = Throw ParseFailed.
Proof. intros H. unfold normalize, parse_input. run_monad. rewrite H. reflexivity. Qed.

Lemma normalize_not_array static n raw d :
  parse_input JSON_parse raw = Ok d -> isArray d = None ->
  normalize JSON_parse static n raw = Throw NotArray.
Proof. intros H1 H2. unfold normalize. run_monad. rewrite H1, H2. reflexivity. Qed.

Lemma normalize_empty static n raw :
  parse_input JSON_parse raw = Ok (VArr []) ->
  normalize JSON_parse static n raw = Throw EmptyArray.
Proof. intros H. unfold normalize. run_monad. rewrite H. reflexivity. Qed.

Lemma normalize_over_capacity n raw l :
  parse_input JSON_parse raw = Ok (VArr l) -> l <> [] ->
  n - 1 < Z.of_nat (length l) ->
  normalize JSON_parse true n raw = Throw TooManyOptions.
Proof.
  intros H Hl Hn. unfold normalize. run_monad. rewrite H. cbn.
  destruct l; [contradiction|]. cbn [length Nat.eqb].
  replace (_ >? _) with true; [reflexivity|]. symmetry. apply Z.gtb_lt. exact Hn.
Qed.

Lemma normalize_bad_item static n raw l e :
  parse_input JSON_parse raw = Ok (VArr l) -> l <> [] ->
  (static = true -> Z.of_nat (length l) <= n - 1) ->
  data_map l 0 = Throw e ->
  normalize JSON_parse static n raw = Throw e.
Proof.
  intros H Hl Hn Hm. unfold normalize. run_monad. rewrite H. cbn.
  destruct l; [contradiction|]. cbn [length Nat.eqb].
  destruct static; cbn [andb]; [|exact Hm].
  replace (_ >? _) with false; [exact Hm|].
  symmetry. rewrite Z.gtb_ltb. apply Z.ltb_ge. apply Hn. reflexivity.
Qed.

(** C5: when [setSections] raises one of the validation errors
    (unparseable JSON text, not an array, empty array, too many options,
    an item failing the checks of value, text, image or key), the call
    itself returns the error, nothing was dispatched, and the whole
    instance (section data, section count, angle step and offset, label
    radius, hover index, pointer rotation, lock state, rendered
    elements) is exactly as before the call. *)
Theorem setSections_failure_aborts s raw e s' o :
  setSections JSON_parse raw s = Reply (Throw e) s' o ->
  is_validation_error e = true ->
  s' = s /\ o = [].
Proof.
  intros H He.
  destruct (normalize JSON_parse (staticSectionCount s) (sectionCount s) raw)
    as [items|e'] eqn:Hn.
  - rewrite (setSections_validated s raw items Hn) in H.
    destruct (after_setData_framed
                (match data s with None => 0 | Some _ => sectionCount s end)
                (setData_result items s)) as (_ & Herr).
    rewrite H in Herr. cbn in Herr.
    specialize (Herr e eq_refl). apply engine_error_not_validation in Herr. congruence.
  - rewrite (setSections_rejected s raw e' Hn) in H.
    injection H as _ <- <-. split; reflexivity.
Qed.

(** C6 (first part): a successful [setSections] resets the hover index
    and the pointer rotation to 0 when the section count changed, and
    leaves both as they were when it did not. *)
Lemma setSections_reset_iff s raw s' o :
  setSections JSON_parse raw s = Reply (Ok tt) s' o ->
  (sectionCount s' <> sectionCount s ->
   prevHoverIndex s' = 0 /\ currSectionPointerRotation s' = 0%float)
  /\ (sectionCount s' = sectionCount s ->
      prevHoverIndex s' = prevHoverIndex s
      /\ currSectionPointerRotation s' = currSectionPointerRotation s).
Proof.
  intros H.
  destruct (normalize JSON_parse (staticSectionCount s) (sectionCount s) raw)
    as [items|e'] eqn:Hn.
  2: { rewrite (setSections_rejected s raw e' Hn) in H. discriminate. }
  rewrite (setSections_validated s raw items Hn) in H.
  destruct (after_setData_framed
              (match data s with None => 0 | Some _ => sectionCount s end)
              (setData_result items s)) as (Hsame & _).
  rewrite H in Hsame. cbn [st] in Hsame.
  destruct Hsame as (_ & Hc & Hh & Hr & _).
  rewrite Hc, Hh, Hr. unfold setData_result. cbn.
  destruct (Z.eqb_spec (sectionCount s)
              (if staticSectionCount s then sectionCount s
               else Z.of_nat (length items) + 1)) as [Heq|Hne]; cbn.
  - split; [intros Hx; congruence | intros _; split; reflexivity].
  - split; [intros _; split; reflexivity | intros Hx; congruence].
Qed.

End Model.

(** ** Rendered wheels *)

Lemma st_bind {A B} (m : M A) (k : A -> M B) s :
  st ((m ≫= k) s) =
    match m s with
    | Reply (Ok a) s1 _ => st (k a s1)
    | Reply (Throw _) s1 _ => s1
    end.
Proof. rewrite bind_reply. destruct (m s) as [[a|e] s1 o1]; reflexivity. Qed.

Lemma res_bind {A B} (m : M A) (k : A -> M B) s :
  res ((m ≫= k) s) =
    match m s with
    | Reply (Ok a) s1 _ => res (k a s1)
    | Reply (Throw e) _ _ => Throw e
    end.
Proof. rewrite bind_reply. destruct (m s) as [[a|e] s1 o1]; reflexivity. Qed.

Lemma length_new_sections count i step off locked :
  length (new_sections count i step off locked) = count.
Proof.
  revert i. induction count as [|count IH]; intros i; cbn; [reflexivity|].
  rewrite IH. reflexivity.
Qed.

Lemma rebuild_ok s :
  0 < sectionCount s ->
  rebuild s =
    Reply (Ok tt)
      (set_pointer (Some (MkPointerEl (isMouseOver s) None))
         (set_sections
            (new_sections (Z.to_nat (sectionCount s)) 0%float
               (angleStep s) (angleOffset s) (isLocked s)) s)) [].
Proof.
  intros Hn. unfold rebuild. rewrite bind_get, bind_modify.
  replace (0 <? sectionCount s) with true by (symmetry; apply Z.ltb_lt; exact Hn).
  rewrite bind_modify, bind_get. reflexivity.
Qed.

(** A render of a non-empty wheel leaves as many section elements as
    there are sections when it rebuilds, and as many as there were when
    it only refreshes the contents; also when it throws on the way. *)
Lemma render_length flag s :
  0 < sectionCount s ->
  length (sections (st (render flag s)))
  = if flag then Z.to_nat (sectionCount s) else length (sections s).
Proof.
  intros Hn. unfold render. rewrite st_bind.
  destruct flag.
  - rewrite (rebuild_ok s Hn). rewrite bind_get.
    destruct (content_loop_framed
                (seq 0 (Z.to_nat (sectionCount
                   (set_pointer (Some (MkPointerEl (isMouseOver s) None))
                      (set_sections
                         (new_sections (Z.to_nat (sectionCount s)) 0%float
                            (angleStep s) (angleOffset s) (isLocked s)) s)))))
                (set_pointer (Some (MkPointerEl (isMouseOver s) None))
                   (set_sections
                      (new_sections (Z.to_nat (sectionCount s)) 0%float
                         (angleStep s) (angleOffset s) (isLocked s)) s)))
      as ((_ & Hlen) & _).
    rewrite Hlen. cbn. apply length_new_sections.
  - cbv beta iota delta [mret M_ret ret].
    rewrite bind_get.
    destruct (content_loop_framed (seq 0 (Z.to_nat (sectionCount s))) s)
      as ((_ & Hlen) & _).
    exact Hlen.
Qed.

Lemma same_wheel_refl s : same_wheel s s.
Proof. repeat split. Qed.

Lemma same_wheel_trans a b c : same_wheel a b -> same_wheel b c -> same_wheel a c.
Proof. unfold same_wheel. intros; intuition congruence. Qed.

Lemma same_shape_wheel s s' : same_shape s s' -> same_wheel s s'.
Proof. unfold same_shape, same_model, same_wheel. intros; intuition congruence. Qed.

#[local] Hint Resolve same_wheel_refl same_wheel_trans : frame.

Lemma onSectionHover_framed index :
  framed same_wheel engine_error (onSectionHover index).
Proof. unfold onSectionHover. frame. Qed.

Lemma onMouseEnter_framed : framed same_wheel engine_error onMouseEnter.
Proof. unfold onMouseEnter. frame. Qed.

Lemma onMouseLeave_framed : framed same_wheel engine_error onMouseLeave.
Proof. unfold onMouseLeave. frame. Qed.

(** Every handler but [setSections] keeps the section data, the section
    count, the configuration and the number of rendered sections, and
    raises nothing but engine errors. *)
Lemma handle_framed JSON_parse e :
  (forall raw, e <> SetSections raw) ->
  framed same_wheel engine_error (handle JSON_parse e).
Proof.
  intros He. destruct e as [raw|b|key|index|index| |]; cbn [handle].
  - destruct (He raw). reflexivity.
  - apply (framed_weaken _ _ _ _ same_shape_wheel), toggleLockWheel_framed.
  - apply (framed_weaken _ _ _ _ same_shape_wheel), onKeyPress_framed.
  - apply (framed_weaken _ _ _ _ same_shape_wheel), onSectionSelect_framed.
  - apply onSectionHover_framed.
  - apply onMouseEnter_framed.
  - apply onMouseLeave_framed.
Qed.

Lemma rendered_same_wheel s s' : same_wheel s s' -> rendered s -> rendered s'.
Proof.
  intros (Hd & Hc & _ & _ & Hl) Hr Hne. rewrite Hl, Hc. apply Hr. congruence.
Qed.

Section Reachability.

Variable JSON_parse : string -> option value.

Lemma data_map_length l i items :
  data_map l i = Ok items -> length items = length l.
Proof.
  revert i items. induction l as [|item l IH]; intros i items; cbn [data_map].
  - intros [= <-]. reflexivity.
  - run_monad. destruct (parseUnraWheelData item i) as [o|e]; [|discriminate].
    destruct (data_map l (S i)) as [os|e] eqn:Hm; [|discriminate].
    intros [= <-]. cbn. f_equal. eapply IH. exact Hm.
Qed.

(** What a successful validation went through. *)
Lemma normalize_ok_inv static n raw items :
  normalize JSON_parse static n raw = Ok items ->
  exists l,
    parse_input JSON_parse raw = Ok (VArr l)
    /\ l <> []
    /\ (static = true -> Z.of_nat (length l) <= n - 1)
    /\ data_map l 0 = Ok items.
Proof.
  unfold normalize. run_monad.
  destruct (parse_input JSON_parse raw) as [d|e]; [|discriminate].
  destruct d as [| | | | |l|]; cbn [isArray]; try discriminate.
  destruct l as [|v l]; [discriminate|]. cbn [length Nat.eqb].
  destruct static; cbn [andb].
  - destruct (Z.gtb_spec (Z.of_nat (S (length l))) (n - 1)) as [|Hle]; [discriminate|].
    intros H. exists (v :: l). repeat split; [discriminate | intros _; exact Hle | exact H].
  - intros H. exists (v :: l). repeat split; [discriminate | discriminate | exact H].
Qed.

(** A validated list is non-empty and, under a static section count,
    leaves room for the back section. *)
Lemma normalize_ok_length static n raw items :
  normalize JSON_parse static n raw = Ok items ->
  (1 <= length items)%nat
  /\ (static = true -> Z.of_nat (length items) <= n - 1).
Proof.
  intros H. destruct (normalize_ok_inv _ _ _ _ H) as (l & _ & Hne & Hcap & Hm).
  rewrite (data_map_length _ _ _ Hm).
  split; [destruct l; [contradiction | cbn; lia] | exact Hcap].
Qed.

Lemma setData_result_count s raw items :
  normalize JSON_parse (staticSectionCount s) (sectionCount s) raw = Ok items ->
  Z.of_nat (length items) + 1 <= sectionCount (setData_result items s).
Proof.
  intros H. destruct (normalize_ok_length _ _ _ _ H) as [_ Hcap].
  unfold setData_result. cbn.
  destruct (staticSectionCount s); [specialize (Hcap eq_refl)|]; lia.
Qed.

(** [setSections] keeps the wheel rendered, whether it returns or
    throws. *)
Lemma setSections_rendered raw s :
  rendered s -> rendered (st (setSections JSON_parse raw s)).
Proof.
  intros Hr.
  destruct (normalize JSON_parse (staticSectionCount s) (sectionCount s) raw)
    as [items|e] eqn:Hn.
  2: { rewrite (setSections_rejected JSON_parse s raw e Hn). exact Hr. }
  rewrite (setSections_validated JSON_parse s raw items Hn).
  pose proof (setData_result_count s raw items Hn) as Hcount.
  destruct (normalize_ok_length _ _ _ _ Hn) as [Hlen _].
  set (s1 := setData_result items s) in *.
  intros _. unfold after_setData. rewrite bind_get, st_bind.
  set (flag := negb (_ =? sectionCount s1)).
  pose proof (render_length flag s1 ltac:(lia)) as Hrl.
  destruct (render_framed flag s1) as [(_ & Hc & _) _].
  destruct (render flag s1) as [[[]|e] s2 o2]; cbn [st] in *.
  2: { rewrite Hrl, Hc. destruct flag eqn:Hf; [lia|].
       apply negb_false_iff, Z.eqb_eq in Hf.
       destruct (data s) eqn:Hd; [|lia].
       assert (sectionCount s1 = sectionCount s) as Hsame by lia.
       rewrite Hsame. apply Hr. congruence. }
  assert (Z.of_nat (length (sections s2)) = sectionCount s2) as Hgoal.
  { rewrite Hrl, Hc. destruct flag eqn:Hf; [lia|].
    apply negb_false_iff, Z.eqb_eq in Hf.
    destruct (data s) eqn:Hd; [|lia].
    assert (sectionCount s1 = sectionCount s) as Hsame by lia.
    rewrite Hsame. apply Hr. congruence. }
  destruct (autoLockWheel s1).
  - destruct (toggleLockWheel_framed engine_error false s2) as [((_ & Hc2 & _) & Hl2) _].
    rewrite Hl2, Hc2. exact Hgoal.
  - exact Hgoal.
Qed.

Lemma handle_rendered e s : rendered s -> rendered (st (handle JSON_parse e s)).
Proof.
  intros Hr. destruct e as [raw|b|key|index|index| |].
  1: { apply setSections_rendered. exact Hr. }
  all: eapply rendered_same_wheel; [|exact Hr];
    apply handle_framed; discriminate.
Qed.

Lemma configure_ok a s o :
  configure a initial = Reply (Ok tt) s o -> configured a s.
Proof.
  destruct a as [dyn sc auto d]. unfold configure. cbn [attr_dynamic_section_count
    attr_section_count attr_auto_lock].
  destruct dyn.
  - rewrite bind_ret. intros [= <- _]. repeat split.
  - destruct sc as [x|]; [|rewrite bind_throw; discriminate].
    destruct (not_number_gt_zero x); [rewrite bind_throw; discriminate|].
    rewrite bind_reply. cbn. intros [= <- _]. repeat split.
Qed.

Lemma construct_unfold a :
  construct JSON_parse a initial =
    match configure a initial with
    | Reply (Ok _) s0 o0 =>
        match attr_data a with
        | Some str =>
            Reply
              (res ((setData JSON_parse (VStr str);;
                     modify (set_isLocked false);; render true) s0))
              (st ((setData JSON_parse (VStr str);;
                    modify (set_isLocked false);; render true) s0))
              (o0 ++ out ((setData JSON_parse (VStr str);;
                           modify (set_isLocked false);; render true) s0))
        | None => Reply (Ok tt) s0 (o0 ++ [])
        end
    | Reply (Throw e) s0 o0 => Reply (Throw e) s0 o0
    end.
Proof.
  unfold construct. rewrite bind_reply.
  destruct (configure a initial) as [[[]|e] s0 o0]; [|reflexivity].
  destruct (attr_data a); reflexivity.
Qed.


Lemma constructor_rendered a s : constructor JSON_parse a = Ok s -> rendered s.
Proof.
  unfold constructor. rewrite construct_unfold.
  destruct (configure a initial) as [[[]|e] s0 o0] eqn:Hc; [|discriminate].
  destruct (attr_data a) as [str|].
  2: { intros [= <-] Hne. destruct (configure_ok _ _ _ Hc) as (Hd & _). congruence. }
  set (m := (setData JSON_parse (VStr str);; modify (set_isLocked false);; render true)).
  destruct (res (m s0)) eqn:Hres; [|discriminate].
  intros [= <-] _. subst m. revert Hres. rewrite res_bind, st_bind.
  destruct (normalize JSON_parse (staticSectionCount s0) (sectionCount s0) (VStr str))
    as [items|e] eqn:Hn.
  2: { rewrite (setData_throw JSON_parse s0 _ e Hn). discriminate. }
  rewrite (setData_ok JSON_parse s0 _ items Hn).
  pose proof (setData_result_count s0 _ items Hn) as Hcount.
  rewrite bind_modify. intros _.
  set (s1 := set_isLocked false (setData_result items s0)).
  assert (0 < sectionCount s1) as Hpos by (cbn in *; lia).
  rewrite (render_length true s1 Hpos).
  destruct (render_framed true s1) as [(_ & Hc1 & _) _].
  rewrite Hc1. lia.
Qed.

Lemma reachable_rendered s : reachable JSON_parse s -> rendered s.
Proof.
  induction 1 as [a s Hc|s e _ IH _].
  - eapply constructor_rendered. exact Hc.
  - apply handle_rendered. exact IH.
Qed.

End Reachability.

(** ** The outcome of a render *)

Lemma update_section_reply i f s :
  update_section i f s =
    match sections s !! i with
    | Some _ => Reply (Ok tt) (set_sections (alter f i (sections s)) s) []
    | None => Reply (Throw (EngineTypeError "cannot set properties of undefined")) s []
    end.
Proof.
  unfold update_section. rewrite bind_get. destruct (sections s !! i); reflexivity.
Qed.

Lemma lookup_ltb {A} (l : list A) i :
  (i <? length l)%nat = bool_decide (is_Some (l !! i)).
Proof.
  destruct (Nat.ltb_spec i (length l)) as [H|H]; symmetry.
  - apply bool_decide_eq_true. apply lookup_lt_is_Some. exact H.
  - apply bool_decide_eq_false. intros [x Hx]. apply lookup_lt_Some in Hx. lia.
Qed.

Lemma setContent_res i s :
  res (setContent i s)
  = content_outcome (data s) (sectionCount s) (length (sections s)) i.
Proof.
  unfold setContent, content_outcome. rewrite bind_get.
  destruct (isBackSection (sectionCount s) i).
  { rewrite res_bind, update_section_reply.
    destruct (sections s !! i) as [el|] eqn:Hel.
    - rewrite update_section_reply. cbn [sections set_sections].
      rewrite list_lookup_alter_eq, Hel.
      apply lookup_lt_Some, Nat.ltb_lt in Hel. rewrite Hel. reflexivity.
    - apply lookup_ge_None, Nat.ltb_ge in Hel. rewrite Hel. reflexivity. }
  destruct (data s) as [d|]; [|reflexivity].
  destruct (isBlankSection (sectionCount s) (length d) i).
  { rewrite update_section_reply.
    destruct (sections s !! i) as [el|] eqn:Hel.
    - apply lookup_lt_Some, Nat.ltb_lt in Hel. rewrite Hel. reflexivity.
    - apply lookup_ge_None, Nat.ltb_ge in Hel. rewrite Hel. reflexivity. }
  destruct (d !! i) as [item|]; [|reflexivity].
  rewrite res_bind, update_section_reply.
  destruct (sections s !! i) as [el|] eqn:Hel.
  2: { apply lookup_ge_None, Nat.ltb_ge in Hel. rewrite Hel. reflexivity. }
  pose proof Hel as Hlt. apply lookup_lt_Some in Hlt.
  apply Nat.ltb_lt in Hlt as Hltb. rewrite Hltb. run_monad.
  destruct (prop item "key"); try reflexivity;
    rewrite update_section_reply; cbn [sections set_sections];
    rewrite list_lookup_alter_eq, Hel; reflexivity.
Qed.

Lemma content_loop_res l s :
  res (for_each setContent l s)
  = loop_outcome (data s) (sectionCount s) (length (sections s)) l.
Proof.
  revert s. induction l as [|i l IH]; intros s; cbn [for_each loop_outcome].
  - reflexivity.
  - rewrite res_bind. pose proof (setContent_res i s) as Hres.
    destruct (setContent_framed i s) as [((Hd & Hc & _) & Hl) _].
    destruct (setContent i s) as [[[]|e] s1 o1]; cbn [res st] in *.
    + rewrite <- Hres. rewrite IH, Hd, Hc, Hl. reflexivity.
    + rewrite <- Hres. reflexivity.
Qed.

Lemma render_res flag s :
  0 < sectionCount s ->
  res (render flag s)
  = loop_outcome (data s) (sectionCount s)
      (if flag then Z.to_nat (sectionCount s) else length (sections s))
      (seq 0 (Z.to_nat (sectionCount s))).
Proof.
  intros Hn. unfold render. rewrite res_bind. destruct flag.
  - rewrite (rebuild_ok s Hn), bind_get, content_loop_res.
    cbn [data sectionCount sections set_pointer set_sections].
    rewrite length_new_sections. reflexivity.
  - cbv beta iota delta [mret M_ret ret]. rewrite bind_get.
    apply content_loop_res.
Qed.

(** An item past the default-key table whose key is [undefined] makes
    the content loop throw from [indexToDefaultKey], when all the
    section elements exist. *)
Lemma loop_outcome_undefined_key d n len a k i item :
  Z.of_nat (length d) + 1 <= n ->
  (a + k <= len)%nat ->
  (a <= i < a + k)%nat ->
  d !! i = Some item ->
  prop item "key" = VUndefined ->
  loop_outcome (Some d) n len (seq a k) = Throw undefined_length.
Proof.
  intros Hn. revert a. induction k as [|k IH]; intros a Hlen Hi Hd Hkey; [lia|].
  cbn [seq loop_outcome]. run_monad.
  destruct (decide (a = i)) as [->|Hne].
  - assert (content_outcome (Some d) n len i = Throw undefined_length) as ->;
      [|reflexivity].
    unfold content_outcome.
    replace (i <? len)%nat with true by (symmetry; apply Nat.ltb_lt; lia).
    apply lookup_lt_Some in Hd as Hlt.
    replace (isBackSection n i) with false
      by (symmetry; unfold isBackSection; lia).
    replace (isBlankSection n (length d) i) with false
      by (symmetry; unfold isBlankSection, isBackSection; lia).
    rewrite Hd, Hkey. reflexivity.
  - assert (content_outcome (Some d) n len a = Ok tt
            \/ content_outcome (Some d) n len a = Throw undefined_length) as [->| ->];
      [|apply IH; try assumption; lia|reflexivity].
    unfold content_outcome.
    replace (a <? len)%nat with true by (symmetry; apply Nat.ltb_lt; lia).
    destruct (isBackSection n a); [left; reflexivity|].
    destruct (isBlankSection n (length d) a) eqn:Hb; [left; reflexivity|].
    destruct (d !! a) as [it|] eqn:Ha.
    + run_monad. destruct (prop it "key"); auto.
    + apply lookup_ge_None in Ha. apply lookup_lt_Some in Hd. lia.
Qed.

(** ** Keys of the stored sections *)

Lemma defaultKeys_length_one j k :
  defaultKeys !! j = Some k -> js_length k = 1%nat.
Proof.
  assert (Forall (fun k => js_length k = 1%nat) defaultKeys) as HF
    by (unfold defaultKeys; repeat constructor).
  intros H. eapply Forall_lookup_1 in HF; [exact HF | exact H].
Qed.

Lemma defaultKeys_at_undefined j :
  defaultKeys_at j = VUndefined <-> (36 <= j)%nat.
Proof.
  unfold defaultKeys_at. split.
  - destruct (defaultKeys !! j) eqn:H; [discriminate|].
    intros _. apply lookup_ge_None in H. exact H.
  - intros H. replace (defaultKeys !! j) with (@None string); [reflexivity|].
    symmetry. apply lookup_ge_None. exact H.
Qed.

(** The key of a validated item: the given one-character string, or
    the positional default, which is [undefined] past the table. *)
Lemma parseUnraWheelData_key v j o :
  parseUnraWheelData v j = Ok o ->
  match assign_empty v !! "key"%string with
  | Some given =>
      o = assign_empty v
      /\ exists k, given = VStr k /\ js_length k = 1%nat
  | None => prop o "key" = defaultKeys_at j
  end.
Proof.
  unfold parseUnraWheelData.
  destruct (assign_empty v !! "value"%string); [|discriminate].
  destruct (assign_empty v !! "text"%string) as [t|]; [|discriminate].
  destruct (negb (is_string t)); [discriminate|].
  assert (forall r : result (gmap string value),
    match assign_empty v !! "key"%string with
    | Some (VStr k) => if (js_length k =? 1)%nat then Ok (assign_empty v) else Throw (BadKey j)
    | Some _ => Throw (BadKey j)
    | None => Ok (<["key"%string := defaultKeys_at j]> (assign_empty v))
    end = Ok o ->
    match assign_empty v !! "key"%string with
    | Some given => o = assign_empty v /\ exists k, given = VStr k /\ js_length k = 1%nat
    | None => prop o "key" = defaultKeys_at j
    end) as Hkey.
  { intros _. destruct (assign_empty v !! "key"%string) as [given|].
    - destruct given; try discriminate.
      destruct (Nat.eqb_spec (js_length s) 1); [|discriminate].
      intros [= <-]. split; [reflexivity|]. eexists. split; [reflexivity | assumption].
    - intros [= <-]. unfold prop. rewrite lookup_insert_eq. reflexivity. }
  destruct (assign_empty v !! "image"%string) as [[]|];
    try discriminate; apply Hkey; exact (Ok o).
Qed.

Lemma data_map_lookup l k items i v :
  data_map l k = Ok items ->
  l !! i = Some v ->
  exists o, parseUnraWheelData v (k + i) = Ok o /\ items !! i = Some o.
Proof.
  revert k items i. induction l as [|item l IH]; intros k items i; [discriminate|].
  cbn [data_map]. run_monad.
  destruct (parseUnraWheelData item k) as [o|e] eqn:Hp; [|discriminate].
  destruct (data_map l (S k)) as [os|e] eqn:Hm; [|discriminate].
  intros [= <-]. destruct i as [|i]; cbn.
  - intros [= <-]. exists o. rewrite Nat.add_0_r. split; [exact Hp | reflexivity].
  - intros Hl. destruct (IH _ _ _ Hm Hl) as (o' & Hp' & Hi).
    exists o'. replace (k + S i)%nat with (S k + i)%nat by lia. split; assumption.
Qed.

Lemma data_map_lookup_inv l k items i o :
  data_map l k = Ok items ->
  items !! i = Some o ->
  exists v, l !! i = Some v /\ parseUnraWheelData v (k + i) = Ok o.
Proof.
  intros Hm Hi.
  assert (is_Some (l !! i)) as [v Hv].
  { apply lookup_lt_is_Some. rewrite <- (data_map_length _ _ _ Hm).
    eapply lookup_lt_Some. exact Hi. }
  destruct (data_map_lookup _ _ _ _ _ Hm Hv) as (o' & Hp & Hi').
  exists v. split; [exact Hv | congruence].
Qed.

Section Claims.

Variable JSON_parse : string -> option value.

(** No stored section has the empty string as its key, and a stored
    [undefined] key sits past the 36 default keys. *)
Lemma normalize_keys static n raw items i item :
  normalize JSON_parse static n raw = Ok items ->
  items !! i = Some item ->
  (exists k, prop item "key" = VStr k /\ js_length k = 1%nat)
  \/ (prop item "key" = VUndefined /\ (36 <= i)%nat).
Proof.
  intros Hn Hi. destruct (normalize_ok_inv _ _ _ _ _ Hn) as (l & _ & _ & _ & Hm).
  destruct (data_map_lookup_inv _ _ _ _ _ Hm Hi) as (v & Hv & Hp).
  apply parseUnraWheelData_key in Hp. cbn in Hp.
  destruct (assign_empty v !! "key"%string) as [given|] eqn:Hk.
  - destruct Hp as (-> & k & -> & Hlen). left. exists k.
    unfold prop. rewrite Hk. split; [reflexivity | exact Hlen].
  - rewrite Hp. unfold defaultKeys_at.
    destruct (defaultKeys !! i) as [k|] eqn:Hd.
    + left. exists k. split; [reflexivity | eapply defaultKeys_length_one; exact Hd].
    + right. split; [reflexivity | apply lookup_ge_None in Hd; exact Hd].
Qed.

Lemma toggleLockWheel_returns b s : res (toggleLockWheel b s) = Ok tt.
Proof.
  destruct (toggleLockWheel_framed (fun _ => False) b s) as [_ He].
  destruct (res (toggleLockWheel b s)) as [[]|e]; [reflexivity|].
  destruct (He e eq_refl).
Qed.

(** The outcome of [setSections] on a list that passes validation. *)
Lemma setSections_res s raw items :
  normalize JSON_parse (staticSectionCount s) (sectionCount s) raw = Ok items ->
  let s1 := setData_result items s in
  let prev := match data s with None => 0 | Some _ => sectionCount s end in
  res (setSections JSON_parse raw s)
  = loop_outcome (Some items) (sectionCount s1)
      (if negb (prev =? sectionCount s1) then Z.to_nat (sectionCount s1)
       else length (sections s))
      (seq 0 (Z.to_nat (sectionCount s1))).
Proof.
  intros Hn s1 prev.
  rewrite (setSections_validated JSON_parse s raw items Hn).
  pose proof (setData_result_count JSON_parse s raw items Hn) as Hcount.
  fold s1 prev in Hcount |- *.
  transitivity (res (render (negb (prev =? sectionCount s1)) s1));
    [|rewrite render_res by lia; reflexivity].
  unfold after_setData. rewrite bind_get, res_bind.
  destruct (render _ s1) as [[[]|e] s2 o2]; [|reflexivity].
  destruct (autoLockWheel s1); [apply toggleLockWheel_returns | reflexivity].
Qed.

(** C9: [indexToDefaultKey] raises a [TypeError] for every index: it
    reads [length] of the nonexistent public property [defaultKeys]
    before the modulus is taken.  Consequently, when a list that passes
    validation has an item at an index of 36 or more without a key of
    its own (so that its key defaulted to [undefined]), [setSections]
    stores the list and then raises that [TypeError] from the render
    instead of wrapping around the table. *)
Theorem default_key_lookup_raises s raw l items i v :
  rendered s ->
  parse_input JSON_parse raw = Ok (VArr l) ->
  normalize JSON_parse (staticSectionCount s) (sectionCount s) raw = Ok items ->
  l !! i = Some v ->
  assign_empty v !! "key"%string = None ->
  (36 <= i)%nat ->
  (forall index, indexToDefaultKey index = Throw undefined_length)
  /\ (36 < length items)%nat
  /\ (exists item, items !! i = Some item /\ prop item "key" = VUndefined)
  /\ exists s' o,
       setSections JSON_parse raw s = Reply (Throw undefined_length) s' o
       /\ data s' = Some items.
Proof.
  intros Hr Hparse Hn Hv Hkey Hi.
  destruct (normalize_ok_inv _ _ _ _ _ Hn) as (l' & Hparse' & _ & _ & Hm).
  assert (l' = l) as -> by congruence.
  destruct (data_map_lookup _ _ _ _ _ Hm Hv) as (item & Hp & Hitem).
  apply parseUnraWheelData_key in Hp. rewrite Hkey in Hp. cbn in Hp.
  assert (prop item "key" = VUndefined) as Hundef.
  { rewrite Hp. apply defaultKeys_at_undefined. exact Hi. }
  split; [exact indexToDefaultKey_throws|].
  split; [apply lookup_lt_Some in Hitem; lia|].
  split; [exists item; split; assumption|].
  pose proof (setSections_res s raw items Hn) as Hres. cbv zeta in Hres.
  pose proof (setData_result_count JSON_parse s raw items Hn) as Hcount.
  set (s1 := setData_result items s) in *.
  set (prev := match data s with None => 0 | Some _ => sectionCount s end) in *.
  rewrite (loop_outcome_undefined_key items (sectionCount s1) _ 0
             (Z.to_nat (sectionCount s1)) i item) in Hres;
    try assumption.
  - destruct (setSections JSON_parse raw s) as [r s' o] eqn:Hs. cbn in Hres. subst r.
    exists s', o. split; [reflexivity|].
    rewrite (setSections_validated JSON_parse s raw items Hn) in Hs.
    destruct (after_setData_framed prev s1) as [(Hd & _) _].
    unfold prev, s1 in Hd. rewrite Hs in Hd. exact Hd.
  - destruct (negb (prev =? sectionCount s1)) eqn:Hf; [lia|].
    apply negb_false_iff, Z.eqb_eq in Hf. subst prev.
    destruct (data s) eqn:Hd; [|lia].
    assert (Z.of_nat (length (sections s)) = sectionCount s) by (apply Hr; congruence).
    lia.
  - apply lookup_lt_Some in Hitem. lia.
Qed.

(** ** Reconciling a new list *)

Lemma normalize_dynamic n n' raw :
  normalize JSON_parse false n raw = normalize JSON_parse false n' raw.
Proof. reflexivity. Qed.

Lemma after_setData_length prev s1 :
  0 < sectionCount s1 ->
  length (sections (st (after_setData prev s1)))
  = if negb (prev =? sectionCount s1) then Z.to_nat (sectionCount s1)
    else length (sections s1).
Proof.
  intros Hpos. unfold after_setData. rewrite bind_get, st_bind.
  pose proof (render_length (negb (prev =? sectionCount s1)) s1 Hpos) as Hrl.
  destruct (render _ s1) as [[[]|e] s2 o2]; cbn [st] in *; [|exact Hrl].
  destruct (autoLockWheel s1); [|exact Hrl].
  destruct (toggleLockWheel_framed engine_error false s2) as [(_ & Hl) _].
  rewrite Hl. exact Hrl.
Qed.

(** The handlers other than [setSections] never change what the
    reconciliation depends on. *)
Lemma run_same_wheel events s :
  Forall (fun e => forall raw, e <> SetSections raw) events ->
  same_wheel s (run JSON_parse events s).
Proof.
  intros HF. revert s. induction HF as [|e events He _ IH]; intros s; cbn.
  - apply same_wheel_refl.
  - eapply same_wheel_trans; [|apply IH].
    apply (handle_framed JSON_parse e He s).
Qed.

(** C6: after a successful [setSections], the hover index and the
    pointer rotation are 0 if the section count changed and are what
    they were before the call if it did not.  In particular, from any
    state that later hovers, clicks, key presses or lock requests lead
    to, a second call with the same list succeeds, keeps the section
    count, and keeps the hover index and the pointer rotation, whatever
    their values. *)
Theorem setSections_resets_only_on_count_change s raw s' o :
  setSections JSON_parse raw s = Reply (Ok tt) s' o ->
  (sectionCount s' <> sectionCount s ->
   prevHoverIndex s' = 0 /\ currSectionPointerRotation s' = 0%float)
  /\ (sectionCount s' = sectionCount s ->
      prevHoverIndex s' = prevHoverIndex s
      /\ currSectionPointerRotation s' = currSectionPointerRotation s)
  /\ forall s'',
       same_wheel s' s'' ->
       exists s3 o3,
         setSections JSON_parse raw s'' = Reply (Ok tt) s3 o3
         /\ sectionCount s3 = sectionCount s''
         /\ prevHoverIndex s3 = prevHoverIndex s''
         /\ currSectionPointerRotation s3 = currSectionPointerRotation s''.
Proof.
  intros H.
  destruct (setSections_reset_iff JSON_parse s raw s' o H) as [Hchanged Hsame].
  split; [exact Hchanged|]. split; [exact Hsame|].
  intros s'' (Hd2 & Hc2 & Hst2 & _ & Hl2).
  destruct (normalize JSON_parse (staticSectionCount s) (sectionCount s) raw)
    as [items|e'] eqn:Hn.
  2: { rewrite (setSections_rejected JSON_parse s raw e' Hn) in H. discriminate. }
  pose proof (setSections_res s raw items Hn) as Hres. cbv zeta in Hres.
  pose proof (setData_result_count JSON_parse s raw items Hn) as Hcount.
  pose proof (setSections_validated JSON_parse s raw items Hn) as Hval.
  set (s1 := setData_result items s) in *.
  set (prev := match data s with None => 0 | Some _ => sectionCount s end) in *.
  pose proof (after_setData_length prev s1 ltac:(lia)) as Hlen.
  destruct (after_setData_framed prev s1) as [(Hd1 & Hc1 & _ & _ & _ & _ & _ & Hst1 & _) _].
  rewrite <- Hval, H in Hlen, Hd1, Hc1, Hst1. cbn [st] in Hlen, Hd1, Hc1, Hst1.
  rewrite H in Hres. cbn [res] in Hres.
  (* the second call validates the same list *)
  assert (normalize JSON_parse (staticSectionCount s'') (sectionCount s'') raw = Ok items)
    as Hn2.
  { rewrite Hst2, Hst1, Hc2, Hc1. change (staticSectionCount s1) with (staticSectionCount s).
    destruct (staticSectionCount s) eqn:Hstatic; [|exact Hn].
    replace (sectionCount s1) with (sectionCount s); [exact Hn|].
    unfold s1, setData_result. cbn. rewrite Hstatic. reflexivity. }
  assert (sectionCount (setData_result items s'') = sectionCount s'') as Hkeep.
  { unfold setData_result. cbn. rewrite Hst2, Hst1.
    change (staticSectionCount s1) with (staticSectionCount s).
    destruct (staticSectionCount s) eqn:Hstatic; [reflexivity|].
    rewrite Hc2, Hc1. unfold s1, setData_result. cbn. rewrite Hstatic. reflexivity. }
  pose proof (setSections_res s'' raw items Hn2) as Hres2. cbv zeta in Hres2.
  rewrite Hkeep in Hres2.
  rewrite Hd2, Hd1 in Hres2. change (data s1) with (Some items) in Hres2.
  rewrite Z.eqb_refl in Hres2. cbn [negb] in Hres2.
  change (sections s1) with (sections s) in Hlen.
  rewrite Hl2, Hlen, Hc2, Hc1, <- Hres in Hres2.
  destruct (setSections JSON_parse raw s'') as [[[]|e2] s3 o3] eqn:Hs3;
    [|discriminate].
  exists s3, o3. split; [reflexivity|].
  destruct (setSections_reset_iff JSON_parse s'' raw s3 o3 Hs3) as [_ Hsame3].
  assert (sectionCount s3 = sectionCount s'') as Hc3.
  { rewrite (setSections_validated JSON_parse s'' raw items Hn2) in Hs3.
    destruct (after_setData_framed
                (match data s'' with None => 0 | Some _ => sectionCount s'' end)
                (setData_result items s'')) as [(_ & Hc & _) _].
    rewrite Hs3 in Hc. cbn [st] in Hc. rewrite Hc. exact Hkeep. }
  split; [exact Hc3|]. apply Hsame3. exact Hc3.
Qed.

(** ** Selection *)

(** The guard of [#onSectionSelect]: an index that is not the last
    rendered section and has no section entry, or an entry whose key is
    the empty string, is ignored. *)
Lemma onSectionSelect_ignored s d index :
  data s = Some d ->
  index <> Z.of_nat (length (sections s)) - 1 ->
  at_index d index = None
  \/ (exists item, at_index d index = Some item /\ prop item "key" = VStr "") ->
  onSectionSelect index s = Reply (Ok tt) s [].
Proof.
  intros Hd Hne Hcase. unfold onSectionSelect. rewrite bind_get.
  replace (index =? Z.of_nat (length (sections s)) - 1) with false
    by (symmetry; apply Z.eqb_neq; exact Hne).
  rewrite Hd.
  destruct Hcase as [->|(item & -> & ->)]; reflexivity.
Qed.

(** While the wheel is locked a key press does nothing. *)
Lemma onKeyPress_locked s key :
  isLocked s = true -> onKeyPress key s = Reply (Ok tt) s [].
Proof. intros H. unfold onKeyPress. rewrite bind_get, H. reflexivity. Qed.

(** C8: with section data of length [L] and a rendered wheel of [n]
    sections, every index [i] with [L <= i < n - 1] is classified blank
    by the render, and selecting it (a click) returns without
    dispatching an event and without changing the state, whatever the
    lock state. *)
Theorem blank_section_unselectable s d index :
  data s = Some d ->
  rendered s ->
  Z.of_nat (length d) <= index < sectionCount s - 1 ->
  isBlankSection (sectionCount s) (length d) (Z.to_nat index) = true
  /\ isBackSection (sectionCount s) (Z.to_nat index) = false
  /\ onSectionClick index s = Reply (Ok tt) s []
  /\ handle JSON_parse (Click index) s = Reply (Ok tt) s [].
Proof.
  intros Hd Hr Hi.
  assert (Z.of_nat (length (sections s)) = sectionCount s) as Hlen
    by (apply Hr; congruence).
  assert (onSectionSelect index s = Reply (Ok tt) s []) as Hsel.
  { apply (onSectionSelect_ignored s d index Hd); [lia|].
    left. unfold at_index.
    replace (index <? 0) with false by (symmetry; apply Z.ltb_ge; lia).
    apply lookup_ge_None. lia. }
  unfold isBlankSection, isBackSection.
  rewrite Z2Nat.id by lia.
  replace (index =? sectionCount s - 1) with false
    by (symmetry; apply Z.eqb_neq; lia).
  replace (index >? Z.of_nat (length d) - 1) with true
    by (symmetry; apply Z.gtb_lt; lia).
  repeat split; exact Hsel.
Qed.


(** ** Empty keys *)

Lemma parseUnraWheelData_empty_key v j :
  assign_empty v !! "key"%string = Some (VStr "") ->
  (exists e, parseUnraWheelData v j = Throw e)
  /\ (fields_valid v -> parseUnraWheelData v j = Throw (BadKey j)).
Proof.
  intros Hk. unfold parseUnraWheelData, fields_valid. rewrite Hk. cbn. split.
  - repeat case_match; eexists; reflexivity.
  - intros ([x ->] & [t ->] & [-> | [u ->]]); reflexivity.
Qed.

Lemma data_map_empty_key l k i v :
  l !! i = Some v ->
  assign_empty v !! "key"%string = Some (VStr "") ->
  exists e, data_map l k = Throw e.
Proof.
  revert k i. induction l as [|item l IH]; intros k i Hi Hk; [discriminate|].
  cbn [data_map]. run_monad. destruct i as [|i]; cbn in Hi.
  - injection Hi as ->.
    destruct (parseUnraWheelData_empty_key v k Hk) as [[e ->] _]. eauto.
  - destruct (parseUnraWheelData item k); [|eauto].
    destruct (IH (S k) i Hi Hk) as [e ->]. eauto.
Qed.

Lemma data_map_throw_at l k i v e :
  (forall j u, (j < i)%nat -> l !! j = Some u ->
               exists o, parseUnraWheelData u (k + j) = Ok o) ->
  l !! i = Some v ->
  parseUnraWheelData v (k + i) = Throw e ->
  data_map l k = Throw e.
Proof.
  revert k i. induction l as [|item l IH]; intros k i Hbefore Hi Hp; [discriminate|].
  cbn [data_map]. run_monad. destruct i as [|i]; cbn in Hi.
  - injection Hi as ->. rewrite Nat.add_0_r in Hp. rewrite Hp. reflexivity.
  - destruct (Hbefore 0%nat item ltac:(lia) eq_refl) as [o Ho].
    rewrite Nat.add_0_r in Ho. rewrite Ho.
    rewrite (IH (S k) i); [reflexivity| |exact Hi|].
    + intros j u Hj Hu. replace (S k + j)%nat with (k + S j)%nat by lia.
      apply Hbefore; [lia | exact Hu].
    + replace (S k + i)%nat with (k + S i)%nat by lia. exact Hp.
Qed.

(** C4, as the code has it: a list with an item whose key is the empty
    string does not pass validation.  [setSections] raises a validation
    [TypeError] and leaves the instance unchanged; when the items before
    it and its other fields are valid and the list fits the capacity, the
    error is the one for the key of that item ("must be a string of
    length 1").  So no stored section ever has an empty key; the select
    handler would ignore such a section (no event, no state change) if
    one were stored. *)
Theorem empty_key_rejected s raw l i v :
  parse_input JSON_parse raw = Ok (VArr l) ->
  l !! i = Some v ->
  assign_empty v !! "key"%string = Some (VStr "") ->
  (exists e, is_validation_error e = true
             /\ setSections JSON_parse raw s = Reply (Throw e) s [])
  /\ ((forall j u, (j < i)%nat -> l !! j = Some u ->
                   exists o, parseUnraWheelData u j = Ok o) ->
      fields_valid v ->
      (staticSectionCount s = true -> Z.of_nat (length l) <= sectionCount s - 1) ->
      setSections JSON_parse raw s = Reply (Throw (BadKey i)) s [])
  /\ (forall t raw' items j item,
        normalize JSON_parse (staticSectionCount t) (sectionCount t) raw' = Ok items ->
        items !! j = Some item ->
        prop item "key" <> VStr "")
  /\ (forall t d index item,
        data t = Some d ->
        at_index d index = Some item ->
        prop item "key" = VStr "" ->
        index <> Z.of_nat (length (sections t)) - 1 ->
        onSectionSelect index t = Reply (Ok tt) t []).
Proof.
  intros Hparse Hi Hk.
  assert (l <> []) as Hne by (intros ->; discriminate).
  split; [|split; [|split]].
  - destruct (normalize JSON_parse (staticSectionCount s) (sectionCount s) raw)
      as [items|e] eqn:Hn.
    + destruct (normalize_ok_inv _ _ _ _ _ Hn) as (l' & Hparse' & _ & _ & Hm).
      assert (l' = l) as -> by congruence.
      destruct (data_map_empty_key l 0 i v Hi Hk) as [e He]. congruence.
    + exists e. split; [eapply normalize_validation; exact Hn|].
      apply setSections_rejected. exact Hn.
  - intros Hbefore Hvalid Hcap. apply setSections_rejected.
    apply (normalize_bad_item JSON_parse _ _ raw l); try assumption.
    apply (data_map_throw_at l 0 i v); [exact Hbefore | exact Hi|].
    apply parseUnraWheelData_empty_key; assumption.
  - intros t raw' items j item Hn Hj Hempty.
    destruct (normalize_keys _ _ _ _ _ _ Hn Hj) as [(k & Hkey & Hlen)|[Hkey _]].
    + rewrite Hkey in Hempty. injection Hempty as ->. discriminate.
    + congruence.
  - intros t d index item Hd Hat Hempty Hne'.
    apply (onSectionSelect_ignored t d index Hd Hne'). right. eauto.
Qed.

(** ** Lock state *)

(** C3 fails on a wheel that was constructed without data and then
    given sections: it is still locked, its [svg] never received the
    [unrawheel--locked] class (so pointer events reach the sections),
    a key press is ignored as the claim says, but a click on section 0
    marks the section selected and dispatches [section-select]. *)
Theorem locked_click_dispatches :
  let a := MkAttributes true None false None in
  let raw := VArr [object [("value"%string, VNum 1); ("text"%string, VStr "one")]] in
  exists s0,
    constructor JSON_parse a = Ok s0
    /\ let s1 := st (setSections JSON_parse raw s0) in
       reachable JSON_parse s1
       /\ isLocked s1 = true
       /\ svgLocked s1 = false
       /\ deliverable s1 (Click 0)
       /\ onKeyPress "a" s1 = Reply (Ok tt) s1 []
       /\ res (handle JSON_parse (Click 0) s1) = Ok tt
       /\ out (handle JSON_parse (Click 0) s1) = [VNum 1]
       /\ selected <$> sections s1 !! 0%nat = Some false
       /\ selected <$> sections (st (handle JSON_parse (Click 0) s1)) !! 0%nat
          = Some true.
Proof.
  cbv zeta. eexists. split; [vm_compute; reflexivity|].
  split.
  { apply (reachable_step JSON_parse _ (SetSections _)); [|exact I].
    apply (reachable_new JSON_parse (MkAttributes true None false None)).
    vm_compute. reflexivity. }
  split; [vm_compute; reflexivity|].
  split; [vm_compute; reflexivity|].
  split; [split; vm_compute; congruence|].
  split; [apply onKeyPress_locked; vm_compute; reflexivity|].
  split; [vm_compute; reflexivity|].
  split; [vm_compute; reflexivity|].
  split; vm_compute; reflexivity.
Qed.

End Claims.

(** ** Arcs of the rendered wheel *)

Lemma toggleLockWheel_angles E b : framed same_angles E (toggleLockWheel b).
Proof. unfold toggleLockWheel. frame. Qed.

Lemma update_section_angles i f :
  (forall el, angles (f el) = angles el) ->
  framed same_angles engine_error (update_section i f).
Proof.
  intros Hf. unfold update_section. frame.
  apply framed_modify. intros s0. unfold same_angles. cbn.
  apply fmap_alter_angles. exact Hf.
Qed.

Lemma setContent_angles i : framed same_angles engine_error (setContent i).
Proof.
  unfold setContent.
  pose proof (fun j f H => update_section_angles j f H) as Hu.
  frame; apply Hu; intros el; reflexivity.
Qed.

Lemma content_loop_angles l : framed same_angles engine_error (for_each setContent l).
Proof.
  apply framed_for_each; [frame_side .. |]. apply setContent_angles.
Qed.

Lemma onSectionSelect_angles index :
  framed same_angles engine_error (onSectionSelect index).
Proof.
  unfold onSectionSelect. pose proof (toggleLockWheel_angles engine_error true).
  frame.
Qed.

Lemma onKeyPress_angles key : framed same_angles engine_error (onKeyPress key).
Proof. unfold onKeyPress. pose proof onSectionSelect_angles. frame; apply H. Qed.

Lemma onSectionHover_angles index :
  framed same_angles engine_error (onSectionHover index).
Proof. unfold onSectionHover. frame. Qed.

Lemma onMouseEnter_angles : framed same_angles engine_error onMouseEnter.
Proof. unfold onMouseEnter. frame. Qed.

Lemma onMouseLeave_angles : framed same_angles engine_error onMouseLeave.
Proof. unfold onMouseLeave. frame. Qed.

Lemma adjacent_same_angles s s' :
  same_angles s s' -> adjacent (sections s) -> adjacent (sections s').
Proof.
  unfold same_angles, adjacent. intros Heq Hadj j a b Ha Hb.
  assert ((angles <$> sections s') !! j = Some (angles a)) as Ha'
    by (rewrite list_lookup_fmap, Ha; reflexivity).
  assert ((angles <$> sections s') !! S j = Some (angles b)) as Hb'
    by (rewrite list_lookup_fmap, Hb; reflexivity).
  rewrite Heq, list_lookup_fmap in Ha', Hb'.
  destruct (sections s !! j) as [a0|] eqn:Ha0; [|discriminate].
  destruct (sections s !! S j) as [b0|] eqn:Hb0; [|discriminate].
  injection Ha' as Hs1 He1. injection Hb' as Hs2 He2.
  rewrite <- He1, <- Hs2. eapply Hadj; eassumption.
Qed.

(** The generating loop makes every sector end where the next one
    starts: both angles are the same binary64 expression of the loop
    counter. *)
Lemma new_sections_adjacent count i step off locked :
  adjacent (new_sections count i step off locked).
Proof.
  revert i. induction count as [|count IH]; intros i j a b; [discriminate|].
  cbn [new_sections]. destruct j as [|j]; cbn.
  - intros [= <-]. destruct count as [|count]; [discriminate|].
    cbn. intros [= <-]. reflexivity.
  - apply IH.
Qed.

Lemma render_adjacent flag s :
  0 < sectionCount s ->
  adjacent (sections s) -> adjacent (sections (st (render flag s))).
Proof.
  intros Hn Hadj. unfold render. rewrite st_bind. destruct flag.
  - rewrite (rebuild_ok s Hn), bind_get.
    eapply adjacent_same_angles; [apply content_loop_angles|].
    cbn. apply new_sections_adjacent.
  - cbv beta iota delta [mret M_ret ret]. rewrite bind_get.
    eapply adjacent_same_angles; [apply content_loop_angles | exact Hadj].
Qed.

Section Arcs.

Variable JSON_parse : string -> option value.

Lemma setSections_adjacent raw s :
  adjacent (sections s) -> adjacent (sections (st (setSections JSON_parse raw s))).
Proof.
  intros Hadj.
  destruct (normalize JSON_parse (staticSectionCount s) (sectionCount s) raw)
    as [items|e] eqn:Hn.
  2: { rewrite (setSections_rejected JSON_parse s raw e Hn). exact Hadj. }
  rewrite (setSections_validated JSON_parse s raw items Hn).
  pose proof (setData_result_count JSON_parse s raw items Hn) as Hcount.
  set (s1 := setData_result items s) in *.
  unfold after_setData. rewrite bind_get, st_bind.
  pose proof (render_adjacent
                (negb (match data s with None => 0 | Some _ => sectionCount s end
                       =? sectionCount s1)) s1 ltac:(lia) Hadj) as Hr.
  destruct (render _ s1) as [[[]|e] s2 o2]; cbn [st] in *; [|exact Hr].
  destruct (autoLockWheel s1); [|exact Hr].
  eapply adjacent_same_angles; [apply (toggleLockWheel_angles engine_error)|exact Hr].
Qed.

Lemma constructor_adjacent a s :
  constructor JSON_parse a = Ok s -> adjacent (sections s).
Proof.
  unfold constructor. rewrite construct_unfold.
  destruct (configure a initial) as [[[]|e] s0 o0] eqn:Hc; [|discriminate].
  destruct (attr_data a) as [str|].
  2: { intros [= <-]. destruct (configure_ok _ _ _ Hc) as (_ & -> & _).
       intros j x y Hx. discriminate. }
  set (m := (setData JSON_parse (VStr str);; modify (set_isLocked false);; render true)).
  destruct (res (m s0)) eqn:Hres; [|discriminate].
  intros [= <-]. subst m. revert Hres. rewrite res_bind, st_bind.
  destruct (normalize JSON_parse (staticSectionCount s0) (sectionCount s0) (VStr str))
    as [items|e] eqn:Hn.
  2: { rewrite (setData_throw JSON_parse s0 _ e Hn). discriminate. }
  rewrite (setData_ok JSON_parse s0 _ items Hn).
  pose proof (setData_result_count JSON_parse s0 _ items Hn) as Hcount.
  rewrite bind_modify. intros _.
  apply render_adjacent; [cbn in *; lia|].
  cbn. destruct (configure_ok _ _ _ Hc) as (_ & -> & _).
  intros j x y Hx. discriminate.
Qed.

Lemma reachable_adjacent s : reachable JSON_parse s -> adjacent (sections s).
Proof.
  induction 1 as [a s Hc|s e _ IH _].
  - eapply constructor_adjacent. exact Hc.
  - destruct e as [raw|b|key|index|index| |]; cbn [handle].
    + apply setSections_adjacent. exact IH.
    + eapply adjacent_same_angles; [apply (toggleLockWheel_angles engine_error)|exact IH].
    + eapply adjacent_same_angles; [apply onKeyPress_angles|exact IH].
    + eapply adjacent_same_angles; [apply onSectionSelect_angles|exact IH].
    + eapply adjacent_same_angles; [apply onSectionHover_angles|exact IH].
    + eapply adjacent_same_angles; [apply onMouseEnter_angles|exact IH].
    + eapply adjacent_same_angles; [apply onMouseLeave_angles|exact IH].
Qed.

End Arcs.

(** * Examples *)

(** Closed goals with a small normal form are decided by evaluation. *)
Ltac evaluate := vm_compute; first [ reflexivity | congruence | tauto ].

Lemma data_of_Some s : bool_decide (is_Some (data s)) = true -> data s = Some (data_of s).
Proof.
  intros H. apply bool_decide_eq_true_1 in H as [d Hd]. unfold data_of. rewrite Hd.
  reflexivity.
Qed.

Lemma validated_Ok raw :
  returns (normalize rejecting_parse false 0 raw) = true ->
  normalize rejecting_parse false 0 raw = Ok (validated raw).
Proof.
  unfold validated. destruct (normalize rejecting_parse false 0 raw); [reflexivity|].
  discriminate.
Qed.

Lemma reply_of_res {A} (r : reply A) x : res r = x -> r = Reply x (st r) (out r).
Proof. intros <-. destruct r. reflexivity. Qed.

Lemma items_list_lookup k i :
  (i < k)%nat ->
  exists l, items_list k = VArr l /\ l !! i = Some (plain_item (Z.of_nat i) "item").
Proof.
  intros Hi. eexists. split; [reflexivity|].
  rewrite list_lookup_imap, lookup_replicate_2 by exact Hi. reflexivity.
Qed.

Lemma wheel_of_reachable k : reachable rejecting_parse (wheel_of k).
Proof.
  apply (reachable_step rejecting_parse _ (SetSections _)); [|exact I].
  apply (reachable_new rejecting_parse dynamic_attributes). vm_compute. reflexivity.
Qed.

(** The example of C1: five data sections and the back section, a hover
    from index 0 to index 4 (backward wrap), then back to index 0
    (forward wrap). *)
Lemma hover_shortest_path_witness :
  sectionCount (wheel_of 5) = 6
  /\ prevHoverIndex (wheel_of 5) = 0
  /\ hoverDistance 6 0 4 = - (6 + 0 - 4)
  /\ prevHoverIndex (st (onSectionHover 4 (wheel_of 5))) = 4
  /\ hoverDistance 6 4 0 = 6 - 4 + 0.
Proof.
  assert (data (wheel_of 5) = Some (data_of (wheel_of 5))) as Hd
    by (apply data_of_Some; evaluate).
  assert (sectionPointerElem (wheel_of 5) = Some (MkPointerEl false None)) as Hp
    by evaluate.
  assert (2 <= sectionCount (wheel_of 5)) as Hn by evaluate.
  assert (0 <= prevHoverIndex (wheel_of 5) < sectionCount (wheel_of 5)) as Hprev
    by (split; evaluate).
  assert (0 <= 4 < sectionCount (wheel_of 5)) as Hi by (split; evaluate).
  assert (4 <> prevHoverIndex (wheel_of 5)) as Hne by evaluate.
  assert (4 <= Z.of_nat (length (data_of (wheel_of 5))) - 1
          \/ 4 = sectionCount (wheel_of 5) - 1) as Hacc by (left; evaluate).
  destruct (hover_shortest_path (wheel_of 5) _ _ 4 Hd Hp Hn Hprev Hi Hne Hacc)
    as (_ & _ & _ & _ & _ & _ & Hhover & _ & Hex).
  split; [evaluate|]. split; [evaluate|]. split; [exact Hex|].
  split; [exact Hhover|].
  set (s1 := st (onSectionHover 4 (wheel_of 5))) in *.
  assert (sectionCount s1 = 6) as Hn1 by evaluate.
  assert (data s1 = Some (data_of s1)) as Hd1 by (apply data_of_Some; evaluate).
  assert (is_Some (sectionPointerElem s1)) as [p1 Hp1]
    by (apply (bool_decide_eq_true_1 (is_Some _)); evaluate).
  destruct (hover_shortest_path s1 _ _ 0 Hd1 Hp1) as (Hc & _ & Hfwd & _).
  - rewrite Hn1. lia.
  - rewrite Hn1, Hhover. lia.
  - rewrite Hn1. lia.
  - rewrite Hhover. discriminate.
  - left. assert (0 < Z.of_nat (length (data_of s1))) by evaluate. lia.
  - rewrite Hn1, Hhover in Hc, Hfwd. lia.
Defined.

(** C4 as stated fails: the validation of a list holding an item with
    the key [''] does not succeed, it raises the error of the key
    check. *)
Lemma empty_key_counterexample :
  normalize rejecting_parse false 0 (VArr [empty_key_item]) = Throw (BadKey 0)
  /\ ~ (exists items,
          normalize rejecting_parse false 0 (VArr [empty_key_item]) = Ok items)
  /\ res (setSections rejecting_parse (VArr [empty_key_item]) dynamic_wheel)
     = Throw (BadKey 0).
Proof.
  assert (normalize rejecting_parse false 0 (VArr [empty_key_item]) = Throw (BadKey 0))
    as H by evaluate.
  split; [exact H|]. split; [|evaluate].
  intros [items Hitems]. congruence.
Qed.

Lemma empty_key_rejected_witness :
  setSections rejecting_parse (VArr [empty_key_item]) dynamic_wheel
  = Reply (Throw (BadKey 0)) dynamic_wheel [].
Proof.
  assert (assign_empty empty_key_item !! "key"%string = Some (VStr "")) as Hk
    by evaluate.
  destruct (empty_key_rejected rejecting_parse dynamic_wheel
              (VArr [empty_key_item]) [empty_key_item] 0 empty_key_item
              eq_refl eq_refl Hk)
    as (_ & Hprecise & _).
  apply Hprecise.
  - intros j u Hj. lia.
  - split; [apply (bool_decide_eq_true_1 (is_Some _)); evaluate|].
    split; [exists "one"%string; evaluate | left; evaluate].
  - intros Hstatic. vm_compute in Hstatic. discriminate.
Defined.

(** An unparseable text on a wheel showing two sections. *)
Lemma setSections_failure_aborts_witness :
  setSections rejecting_parse (VStr "[{") (wheel_of 2)
  = Reply (Throw ParseFailed) (wheel_of 2) [].
Proof.
  assert (res (setSections rejecting_parse (VStr "[{") (wheel_of 2))
          = Throw ParseFailed) as Hres by evaluate.
  apply reply_of_res in Hres.
  destruct (setSections_failure_aborts rejecting_parse _ _ _ _ _ Hres eq_refl)
    as [Hs Ho].
  rewrite Hres, Hs, Ho. reflexivity.
Defined.

(** Hovering section 1 and then setting the same two items again. *)
Lemma setSections_resets_only_on_count_change_witness :
  let hovered := st (onSectionHover 1 (wheel_of 2)) in
  prevHoverIndex hovered = 1
  /\ exists s3 o3,
       setSections rejecting_parse (items_list 2) hovered = Reply (Ok tt) s3 o3
       /\ prevHoverIndex s3 = 1.
Proof.
  cbv zeta.
  assert (res (setSections rejecting_parse (items_list 2) dynamic_wheel) = Ok tt)
    as Hres by evaluate.
  apply reply_of_res in Hres.
  destruct (setSections_resets_only_on_count_change rejecting_parse _ _ _ _ Hres)
    as (_ & _ & Hagain).
  assert (prevHoverIndex (st (onSectionHover 1 (wheel_of 2))) = 1) as Hhover
    by evaluate.
  split; [exact Hhover|].
  destruct (Hagain (st (onSectionHover 1 (wheel_of 2))))
    as (s3 & o3 & Hs3 & _ & Hh & _).
  - apply (handle_framed rejecting_parse (Hover 1)). discriminate.
  - exists s3, o3. split; [exact Hs3|]. rewrite Hh. exact Hhover.
Defined.

(** The example of C8: fixed capacity 11 with three data items. *)
Lemma blank_section_unselectable_witness :
  sectionCount fixed_wheel = 11
  /\ length (data_of fixed_wheel) = 3%nat
  /\ forallb (isBlankSection 11 3) [3; 4; 5; 6; 7; 8; 9]%nat = true
  /\ isBackSection 11 10 = true
  /\ onSectionClick 5 fixed_wheel = Reply (Ok tt) fixed_wheel [].
Proof.
  assert (data fixed_wheel = Some (data_of fixed_wheel)) as Hd
    by (apply data_of_Some; evaluate).
  assert (rendered fixed_wheel) as Hr by (intros _; evaluate).
  assert (Z.of_nat (length (data_of fixed_wheel)) <= 5 < sectionCount fixed_wheel - 1)
    as Hi by (split; evaluate).
  destruct (blank_section_unselectable rejecting_parse _ _ 5 Hd Hr Hi)
    as (_ & _ & Hclick & _).
  split; [evaluate|]. split; [evaluate|]. split; [evaluate|].
  split; [evaluate | exact Hclick].
Defined.

(** Thirty-seven items without keys on a dynamic wheel. *)
Lemma default_key_lookup_raises_witness :
  res (setSections rejecting_parse (items_list 37) dynamic_wheel)
  = Throw undefined_length.
Proof.
  assert (rendered dynamic_wheel) as Hr by (intros Hne; exfalso; apply Hne; evaluate).
  destruct (items_list_lookup 37 36 ltac:(lia)) as (l & Hl & Hv).
  assert (assign_empty (plain_item (Z.of_nat 36) "item") !! "key"%string = None)
    as Hk by evaluate.
  assert (parse_input rejecting_parse (items_list 37) = Ok (VArr l)) as Hparse
    by (rewrite Hl; reflexivity).
  assert (normalize rejecting_parse (staticSectionCount dynamic_wheel)
            (sectionCount dynamic_wheel) (items_list 37)
          = Ok (validated (items_list 37))) as Hn
    by (apply validated_Ok; evaluate).
  destruct (default_key_lookup_raises rejecting_parse dynamic_wheel _ l _ 36 _
              Hr Hparse Hn Hv Hk (le_n 36)) as (_ & _ & _ & s' & o & Hs & _).
  rewrite Hs. reflexivity.
Defined.



(** * Further properties of the code *)

(** ** The hover distance *)

(** X1. The distance chosen by [#onSectionHover] is the direct distance
    up to one full turn, whatever the section count and the two indices:
    the pointer, turned by it, lands on the hovered section. *)
Theorem hover_lands_on_target n prev index :
  exists k,
    -1 <= k <= 1
    /\ hoverDistance n prev index = index - prev + k * n.
Proof.
  destruct (hoverDistance_minimal n prev index) as ([H|[H|H]] & _); rewrite H;
    unfold distDirect, distThroughZero, distThroughZeroReverse.
  - exists 0. lia.
  - exists 1. lia.
  - exists (-1). lia.
Qed.

(** X2. Hovering back takes the opposite number of steps, ties
    included: the distance from [index] to [prev] is the negation of the
    distance from [prev] to [index]. *)
Theorem hover_distance_antisymmetric n prev index :
  hoverDistance n index prev = - hoverDistance n prev index.
Proof.
  rewrite !hoverDistance_unfold. cbv zeta.
  unfold distDirect, distThroughZero, distThroughZeroReverse.
  repeat case_match; repeat match goal with
    | H : (_ <? _) = true |- _ => apply Z.ltb_lt in H
    | H : (_ <? _) = false |- _ => apply Z.ltb_ge in H
    end; lia.
Qed.

(** ** What each handler does to the instance *)

Lemma toggleLockWheel_reply b s :
  toggleLockWheel b s = Reply (Ok tt) (toggle_result b s) [].
Proof.
  unfold toggleLockWheel, toggle_result. rewrite bind_get.
  destruct (Bool.eqb b (isLocked s)); [reflexivity|].
  rewrite !bind_modify. reflexivity.
Qed.

Lemma onSectionHover_reply index s :
  onSectionHover index s =
    if index =? prevHoverIndex s then Reply (Ok tt) s []
    else
      match data s with
      | None => Reply (Throw (EngineTypeError "cannot read properties of null")) s []
      | Some d =>
          if (index >? Z.of_nat (length d) - 1) && negb (index =? sectionCount s - 1)
          then Reply (Ok tt) s []
          else
            match sectionPointerElem s with
            | None =>
                Reply (Throw (EngineTypeError "cannot read properties of undefined")) s []
            | Some p =>
                let newRotation :=
                  (currSectionPointerRotation s
                   + (360 / num (sectionCount s))
                     * num (hoverDistance (sectionCount s) (prevHoverIndex s) index))%float in
                Reply (Ok tt)
                  (set_hover index newRotation
                     (set_pointer (Some (MkPointerEl (show p) (Some newRotation))) s)) []
            end
      end.
Proof.
  unfold onSectionHover. rewrite bind_get.
  destruct (index =? prevHoverIndex s); [reflexivity|].
  destruct (data s) as [d|]; [|reflexivity].
  destruct ((index >? Z.of_nat (length d) - 1) && negb (index =? sectionCount s - 1));
    [reflexivity|].
  destruct (sectionPointerElem s) as [p|]; [|reflexivity].
  cbv zeta. rewrite bind_modify. reflexivity.
Qed.

Lemma onMouseEnter_reply s :
  onMouseEnter s =
    Reply (Ok tt)
      (set_pointer (set_show true <$> sectionPointerElem s) (set_isMouseOver true s)) [].
Proof. unfold onMouseEnter. rewrite bind_modify. reflexivity. Qed.

Lemma onMouseLeave_reply s :
  onMouseLeave s =
    Reply (Ok tt)
      (set_pointer (set_show false <$> sectionPointerElem s) (set_isMouseOver false s)) [].
Proof. unfold onMouseLeave. rewrite bind_modify. reflexivity. Qed.

Lemma toggle_result_data b s : data (toggle_result b s) = data s.
Proof. unfold toggle_result. destruct (Bool.eqb b (isLocked s)); reflexivity. Qed.

Lemma toggle_result_sectionCount b s :
  sectionCount (toggle_result b s) = sectionCount s.
Proof. unfold toggle_result. destruct (Bool.eqb b (isLocked s)); reflexivity. Qed.

Lemma toggle_result_isLocked b s : isLocked (toggle_result b s) = b.
Proof.
  unfold toggle_result. destruct (Bool.eqb b (isLocked s)) eqn:H; [|reflexivity].
  apply Bool.eqb_prop in H. congruence.
Qed.

Lemma select_state_data index s : data (select_state index s) = data s.
Proof.
  unfold select_state.
  destruct (autoLockWheel s); rewrite ?toggle_result_data;
    destruct (at_index (sections s) index) as [el|]; try reflexivity;
    destruct (selected el); reflexivity.
Qed.

(** The whole of [#onSectionSelect]: the guard, the pulse and the
    auto-lock, then the event. *)
Lemma onSectionSelect_reply index s :
  onSectionSelect index s =
    let isBack := index =? Z.of_nat (length (sections s)) - 1 in
    let null := EngineTypeError "cannot read properties of null" in
    match (if isBack then Ok false
           else match data s with
                | None => Throw null
                | Some d =>
                    match at_index d index with
                    | None => Ok true
                    | Some item => Ok (strict_eq_string (prop item "key") "")
                    end
                end) with
    | Throw e => Reply (Throw e) s []
    | Ok true => Reply (Ok tt) s []
    | Ok false =>
        match at_index (sections s) index with
        | None => Reply (Throw (EngineTypeError "elem is undefined")) s []
        | Some _ =>
            if (index =? -1) || (index =? sectionCount s - 1)
            then Reply (Ok tt) (select_state index s) [VNum (-1)]
            else
              match data s with
              | None => Reply (Throw null) (select_state index s) []
              | Some d =>
                  match at_index d index with
                  | None =>
                      Reply (Throw (EngineTypeError "cannot read properties of undefined"))
                        (select_state index s) []
                  | Some item => Reply (Ok tt) (select_state index s) [prop item "value"]
                  end
              end
        end
    end.
Proof.
  cbv zeta. unfold onSectionSelect. rewrite bind_get, bind_reply.
  destruct (index =? Z.of_nat (length (sections s)) - 1) eqn:Hback.
  - cbn [mret M_ret ret res st out app].
    unfold select_state.
    destruct (at_index (sections s) index) as [elem|]; [|reflexivity].
    rewrite bind_reply.
    destruct (selected elem), (autoLockWheel s) eqn:Hauto;
      cbn [mret M_ret ret modify res st out app];
      rewrite bind_reply, ?toggleLockWheel_reply;
      cbn [mret M_ret ret res st out app];
      rewrite bind_get; rewrite ?toggle_result_sectionCount, ?toggle_result_data;
      cbn [sectionCount data set_sections];
      (destruct ((index =? -1) || (index =? sectionCount s - 1));
       [reflexivity|]);
      (destruct (data s) as [d|]; [|reflexivity]);
      (destruct (at_index d index); reflexivity).
  - destruct (data s) as [d|] eqn:Hd; [|reflexivity].
    destruct (at_index d index) as [item|] eqn:Hitem.
    2: { cbn [mret M_ret ret res st out app]. reflexivity. }
    cbn [mret M_ret ret res st out app].
    destruct (strict_eq_string (prop item "key") ""); [reflexivity|].
    unfold select_state.
    destruct (at_index (sections s) index) as [elem|]; [|reflexivity].
    rewrite bind_reply.
    destruct (selected elem), (autoLockWheel s) eqn:Hauto;
      cbn [mret M_ret ret modify res st out app];
      rewrite bind_reply, ?toggleLockWheel_reply;
      cbn [mret M_ret ret res st out app];
      rewrite bind_get; rewrite ?toggle_result_sectionCount, ?toggle_result_data;
      cbn [sectionCount data set_sections];
      (destruct ((index =? -1) || (index =? sectionCount s - 1));
       [reflexivity|]);
      rewrite ?Hd, ?Hitem; reflexivity.
Qed.

(** ** Handlers that dispatch nothing *)

Lemma quiet_ret {A} (a : A) : quiet (mret a).
Proof. intros s. reflexivity. Qed.

Lemma quiet_get : quiet get.
Proof. intros s. reflexivity. Qed.

Lemma quiet_throw {A} e : quiet (@throw A e).
Proof. intros s. reflexivity. Qed.

Lemma quiet_modify f : quiet (modify f).
Proof. intros s. reflexivity. Qed.

Lemma quiet_lift {A} (r : result A) : quiet (lift r).
Proof. intros s. destruct r; reflexivity. Qed.

Lemma quiet_bind {A B} (m : M A) (k : A -> M B) :
  quiet m -> (forall a, quiet (k a)) -> quiet (m ≫= k).
Proof.
  intros Hm Hk s. rewrite bind_reply. specialize (Hm s).
  destruct (m s) as [[a|e] s1 o1]; cbn [out] in *; subst o1; [|reflexivity].
  cbn. apply Hk.
Qed.

Lemma quiet_for_each (f : nat -> M unit) l :
  (forall i, quiet (f i)) -> quiet (for_each f l).
Proof.
  intros Hf. induction l as [|i l IH]; cbn [for_each].
  - apply quiet_ret.
  - apply quiet_bind; [apply Hf | intros _; exact IH].
Qed.

Ltac quiet_step :=
  first
    [ apply quiet_bind; [| intros ? ]
    | apply quiet_ret
    | apply quiet_get
    | apply quiet_throw
    | apply quiet_modify
    | apply quiet_lift
    | apply quiet_for_each; intros ?
    | assumption
    | progress case_match ].

Ltac quiet := repeat quiet_step.

Lemma toggleLockWheel_quiet b : quiet (toggleLockWheel b).
Proof. intros s. rewrite toggleLockWheel_reply. reflexivity. Qed.

Lemma update_section_quiet i f : quiet (update_section i f).
Proof. unfold update_section. quiet. Qed.

Lemma setContent_quiet i : quiet (setContent i).
Proof. unfold setContent. pose proof update_section_quiet. quiet. Qed.

Lemma render_quiet flag : quiet (render flag).
Proof.
  unfold render, rebuild. pose proof setContent_quiet. quiet.
Qed.

Lemma after_setData_quiet prev : quiet (after_setData prev).
Proof.
  unfold after_setData. pose proof render_quiet. pose proof toggleLockWheel_quiet.
  quiet.
Qed.

Lemma setSections_quiet JSON_parse raw : quiet (setSections JSON_parse raw).
Proof.
  intros s.
  destruct (normalize JSON_parse (staticSectionCount s) (sectionCount s) raw)
    as [items|e] eqn:Hn.
  - rewrite (setSections_validated JSON_parse s raw items Hn).
    apply after_setData_quiet.
  - rewrite (setSections_rejected JSON_parse s raw e Hn). reflexivity.
Qed.

(** ** Fixtures of the rendered sections *)

Lemma same_fixtures_refl s : same_fixtures s s.
Proof. split; reflexivity. Qed.

Lemma same_fixtures_trans a b c :
  same_fixtures a b -> same_fixtures b c -> same_fixtures a c.
Proof. intros [H1 H2] [H3 H4]. split; congruence. Qed.

Lemma fmap_alter_fixture f i (l : list SectionEl) :
  (forall el, fixture (f el) = fixture el) ->
  fixture <$> alter f i l = fixture <$> l.
Proof.
  intros Hf. revert i. induction l as [|el l IH]; intros [|i]; cbn; [reflexivity.. | |].
  - rewrite Hf. reflexivity.
  - f_equal. apply IH.
Qed.

Lemma update_section_fixtures i f :
  (forall el, fixture (f el) = fixture el) ->
  framed same_fixtures engine_error (update_section i f).
Proof.
  intros Hf s. rewrite update_section_reply.
  destruct (sections s !! i); cbn [res st].
  - split; [|discriminate]. split; [|reflexivity].
    cbn. apply fmap_alter_fixture. exact Hf.
  - split; [apply same_fixtures_refl|]. intros e [= <-]. eexists. reflexivity.
Qed.

Lemma setContent_fixtures i : framed same_fixtures engine_error (setContent i).
Proof.
  intros s. unfold setContent. rewrite bind_get.
  assert (forall f g,
            (forall el, fixture (f el) = fixture el) ->
            (forall el, fixture (g el) = fixture el) ->
            framed same_fixtures engine_error (update_section i f;; update_section i g))
    as Htwo.
  { intros f g Hf Hg.
    apply (framed_bind same_fixtures engine_error same_fixtures_trans);
      [apply update_section_fixtures, Hf | intros _; apply update_section_fixtures, Hg]. }
  destruct (isBackSection (sectionCount s) i).
  { apply Htwo; intros el; reflexivity. }
  destruct (data s) as [d|].
  2: { split; [apply same_fixtures_refl|]. intros e [= <-]. eexists. reflexivity. }
  destruct (isBlankSection (sectionCount s) (length d) i).
  { apply update_section_fixtures. intros el. reflexivity. }
  destruct (d !! i) as [item|].
  2: { split; [apply same_fixtures_refl|]. intros e [= <-]. eexists. reflexivity. }
  apply (framed_bind same_fixtures engine_error same_fixtures_trans);
    [apply update_section_fixtures; intros el; reflexivity | intros _].
  apply (framed_bind same_fixtures engine_error same_fixtures_trans).
  - destruct (prop item "key");
      try (apply (framed_ret same_fixtures engine_error same_fixtures_refl)).
    intros s0. split; [apply same_fixtures_refl|]. intros e [= <-]. eexists. reflexivity.
  - intros k. apply update_section_fixtures. intros el. reflexivity.
Qed.

Lemma content_loop_fixtures l :
  framed same_fixtures engine_error (for_each setContent l).
Proof.
  apply (framed_for_each same_fixtures engine_error same_fixtures_refl same_fixtures_trans).
  apply setContent_fixtures.
Qed.

Lemma same_fixtures_fields s s' :
  same_fixtures s s' ->
  data s' = data s
  /\ sectionCount s' = sectionCount s
  /\ prevHoverIndex s' = prevHoverIndex s
  /\ currSectionPointerRotation s' = currSectionPointerRotation s
  /\ angleStep s' = angleStep s
  /\ angleOffset s' = angleOffset s
  /\ keyDistanceFromCenter s' = keyDistanceFromCenter s
  /\ isMouseOver s' = isMouseOver s
  /\ isLocked s' = isLocked s
  /\ svgLocked s' = svgLocked s
  /\ autoLockWheel s' = autoLockWheel s
  /\ staticSectionCount s' = staticSectionCount s
  /\ sectionPointerElem s' = sectionPointerElem s.
Proof.
  intros [_ H]. destruct s, s'. cbn in *. injection H as -> -> -> -> -> -> -> -> -> -> -> -> ->.
  repeat split.
Qed.

Lemma same_fixtures_lists s s' :
  same_fixtures s s' ->
  length (sections s') = length (sections s)
  /\ tabindex <$> sections s' = tabindex <$> sections s
  /\ angles <$> sections s' = angles <$> sections s
  /\ selected <$> sections s' = selected <$> sections s.
Proof.
  intros [H _].
  split; [rewrite <- (length_fmap fixture (sections s')), H; apply length_fmap|].
  split; [|split].
  - change tabindex with ((fun p : float * float * bool * Z => snd p) ∘ fixture).
    rewrite !list_fmap_compose, H. reflexivity.
  - change angles
      with ((fun p : float * float * bool * Z => (fst (fst (fst p)), snd (fst (fst p))))
            ∘ fixture).
    rewrite !list_fmap_compose, H. reflexivity.
  - change selected with ((fun p : float * float * bool * Z => snd (fst p)) ∘ fixture).
    rewrite !list_fmap_compose, H. reflexivity.
Qed.

Lemma rebuild_reply s : 0 < sectionCount s -> rebuild s = Reply (Ok tt) (rebuilt s) [].
Proof. exact (rebuild_ok s). Qed.

(** A render ends, normally or by a throw, with the fixtures of the
    wheel it started from, rebuilt first when the count changed. *)
Lemma render_fixtures (flag : bool) s :
  0 < sectionCount s ->
  same_fixtures (if flag then rebuilt s else s) (st (render flag s)).
Proof.
  intros Hn. unfold render. rewrite st_bind. destruct flag.
  - rewrite (rebuild_reply s Hn), bind_get. apply content_loop_fixtures.
  - cbv beta iota delta [mret M_ret ret]. rewrite bind_get.
    apply content_loop_fixtures.
Qed.

(** ** The invariant of the wheel *)

Lemma Forall_tabindex (l : list SectionEl) t :
  Forall (fun el => tabindex el = t) l <-> Forall (fun x => x = t) (tabindex <$> l).
Proof. rewrite Forall_fmap. reflexivity. Qed.

Lemma wheel_inv_fixtures s s' : same_fixtures s s' -> wheel_inv s -> wheel_inv s'.
Proof.
  intros Hsame (Hlock & Hptr & Hshape & Hlayout & Hitems).
  destruct (same_fixtures_fields s s' Hsame)
    as (Hd & Hn & Hp & Hr & Hst & Hoff & Hk & Hover & Hl & Hsvg & Hauto & Hstat & Hpe).
  destruct (same_fixtures_lists s s' Hsame) as (Hlen & Htab & Hang & _).
  split; [|split; [|split; [|split]]].
  - destruct Hlock as [Hall Himp]. split; [|rewrite Hsvg, Hl; exact Himp].
    apply Forall_tabindex. rewrite Htab, Hl. apply Forall_tabindex. exact Hall.
  - unfold pointer_inv in *. rewrite Hpe, Hover, Hr. exact Hptr.
  - unfold shape_inv in *. rewrite Hp, Hd, Hn, Hstat, Hpe, Hlen.
    destruct Hshape as [H0 Hcase]. split; [exact H0|].
    destruct (data s); [exact Hcase|].
    destruct Hcase as (Hnil & Hnone & Hzero). repeat split; try assumption.
    apply length_zero_iff_nil. rewrite Hlen, Hnil. reflexivity.
  - unfold layout_inv in *. rewrite Hd, Hst, Hoff, Hk, Hn, Hang, Hlen. exact Hlayout.
  - unfold items_inv in *. rewrite Hd. exact Hitems.
Qed.

Lemma angles_set_tabindex t el : angles (set_tabindex t el) = angles el.
Proof. reflexivity. Qed.

Lemma wheel_inv_toggle b s : wheel_inv s -> wheel_inv (toggle_result b s).
Proof.
  intros Hinv. unfold toggle_result.
  destruct (Bool.eqb b (isLocked s)); [exact Hinv|].
  destruct Hinv as (Hlock & Hptr & Hshape & Hlayout & Hitems).
  split; [|split; [|split; [|split]]].
  - split; cbn.
    + apply Forall_tabindex. rewrite <- list_fmap_compose.
      apply Forall_fmap, Forall_true. intros el. cbn. destruct b; reflexivity.
    + intros Hb. exact Hb.
  - exact Hptr.
  - unfold shape_inv in *. cbn. destruct Hshape as [H0 Hcase]. split; [exact H0|].
    destruct (data s).
    + rewrite length_map. exact Hcase.
    + destruct Hcase as (-> & Hnone & Hzero). repeat split; assumption.
  - unfold layout_inv in *. cbn. destruct (data s); [|exact I].
    rewrite length_map.
    rewrite (fmap_map_angles _ _ (angles_set_tabindex _)). exact Hlayout.
  - exact Hitems.
Qed.

Lemma wheel_inv_marked i s :
  wheel_inv s -> wheel_inv (set_sections (alter set_selected i (sections s)) s).
Proof.
  intros (Hlock & Hptr & Hshape & Hlayout & Hitems).
  split; [|split; [|split; [|split]]].
  - destruct Hlock as [Hall Himp]. split; [|exact Himp]. cbn.
    apply Forall_tabindex.
    replace (tabindex <$> alter set_selected i (sections s))
      with (tabindex <$> sections s); [apply Forall_tabindex, Hall|].
    clear. revert i. induction (sections s) as [|el l IH]; intros [|i]; cbn;
      [reflexivity..|]. f_equal. apply IH.
  - exact Hptr.
  - unfold shape_inv in *. cbn. destruct Hshape as [H0 Hcase]. split; [exact H0|].
    destruct (data s).
    + rewrite length_alter. exact Hcase.
    + destruct Hcase as (Hnil & Hnone & Hzero). rewrite Hnil. repeat split; assumption.
  - unfold layout_inv in *. cbn. destruct (data s); [|exact I].
    rewrite length_alter.
    rewrite (fmap_alter_angles set_selected i _ (fun el => eq_refl)). exact Hlayout.
  - exact Hitems.
Qed.

Lemma wheel_inv_select index s : wheel_inv s -> wheel_inv (select_state index s).
Proof.
  intros Hinv. unfold select_state.
  assert (wheel_inv
            match at_index (sections s) index with
            | Some elem =>
                if selected elem then s
                else set_sections (alter set_selected (Z.to_nat index) (sections s)) s
            | None => s
            end) as Hmarked.
  { destruct (at_index (sections s) index) as [elem|]; [|exact Hinv].
    destruct (selected elem); [exact Hinv | apply wheel_inv_marked, Hinv]. }
  destruct (autoLockWheel s); [apply wheel_inv_toggle|]; exact Hmarked.
Qed.

Lemma parseUnraWheelData_stored_ok v j o :
  parseUnraWheelData v j = Ok o -> stored_ok j o.
Proof.
  unfold parseUnraWheelData, stored_ok.
  destruct (assign_empty v !! "value"%string) as [x|] eqn:Hval; [|discriminate].
  destruct (assign_empty v !! "text"%string) as [t|] eqn:Htext; [|discriminate].
  destruct t as [| | | |t| |]; try discriminate. cbn [is_string negb].
  assert (forall r : result (gmap string value),
    (assign_empty v !! "image"%string = None
     \/ (exists u, assign_empty v !! "image"%string = Some (VStr u)) ->
     r = Ok o -> stored_ok j o) ->
    match assign_empty v !! "image"%string with
    | Some (VStr _) | None => r
    | Some _ => Throw (ImageNotString j)
    end = Ok o -> stored_ok j o) as Hcase.
  { intros r Hr. destruct (assign_empty v !! "image"%string) as [[]|];
      try discriminate; apply Hr; eauto. }
  apply Hcase. clear Hcase. intros Himg. unfold stored_ok.
  destruct (assign_empty v !! "key"%string) as [given|] eqn:Hk.
  - destruct given as [| | | |k| |]; try discriminate.
    destruct (Nat.eqb_spec (js_length k) 1) as [Hlen|]; [|discriminate].
    intros [= <-]. repeat split; eauto.
  - intros [= <-].
    rewrite !lookup_insert_ne by discriminate. rewrite lookup_insert_eq.
    repeat split; eauto. unfold defaultKeys_at.
    destruct (defaultKeys !! j) as [c|] eqn:Hd.
    + left. exists c. split; [reflexivity | eapply defaultKeys_length_one; exact Hd].
    + right. split; [reflexivity | apply lookup_ge_None in Hd; exact Hd].
Qed.

Lemma normalize_stored_ok JSON_parse static n raw items i item :
  normalize JSON_parse static n raw = Ok items ->
  items !! i = Some item ->
  stored_ok i item.
Proof.
  intros Hn Hi. destruct (normalize_ok_inv _ _ _ _ _ Hn) as (l & _ & _ & _ & Hm).
  destruct (data_map_lookup_inv _ _ _ _ _ Hm Hi) as (v & _ & Hp).
  exact (parseUnraWheelData_stored_ok v i item Hp).
Qed.

Lemma angles_new_sections count i step off locked locked' :
  angles <$> new_sections count i step off locked
  = angles <$> new_sections count i step off locked'.
Proof.
  revert i. induction count as [|count IH]; intros i; cbn; [reflexivity|].
  f_equal. apply IH.
Qed.

Lemma Forall_tabindex_new_sections count i step off locked :
  Forall (fun el => tabindex el = lock_tabindex locked)
    (new_sections count i step off locked).
Proof.
  revert i. induction count as [|count IH]; intros i; cbn; constructor;
    [reflexivity | apply IH].
Qed.

(** A rebuild of a wheel whose data, count and layout constants were
    just set establishes the invariant. *)
Lemma wheel_inv_rebuilt s d :
  data s = Some d ->
  d <> [] ->
  Z.of_nat (length d) + 1 <= sectionCount s ->
  (staticSectionCount s = false -> sectionCount s = Z.of_nat (length d) + 1) ->
  (svgLocked s = true -> isLocked s = true) ->
  currSectionPointerRotation s = 0%float ->
  prevHoverIndex s = 0 ->
  angleStep s = angleStep_of (sectionCount s) ->
  angleOffset s = angleOffset_of (angleStep s) ->
  keyDistanceFromCenter s = keyDistance_of (sectionCount s) ->
  items_inv s ->
  wheel_inv (rebuilt s).
Proof.
  intros Hd Hne Hcount Hdyn Hsvg Hrot Hprev Hstep Hoff Hkey Hitems.
  split; [|split; [|split; [|split]]].
  - split; [|exact Hsvg]. cbn. apply Forall_tabindex_new_sections.
  - cbn. split; [reflexivity | exact Hrot].
  - unfold shape_inv. cbn. rewrite Hprev, Hd, length_new_sections.
    split; [lia|]. repeat split; try assumption; try lia. eauto.
  - unfold layout_inv. cbn. rewrite Hd, length_new_sections.
    repeat split; try assumption. apply angles_new_sections.
  - exact Hitems.
Qed.

Section Invariant.

Variable JSON_parse : string -> option value.

Lemma setData_result_inv_base s raw items :
  wheel_inv s ->
  normalize JSON_parse (staticSectionCount s) (sectionCount s) raw = Ok items ->
  let s1 := setData_result items s in
  let prev := match data s with None => 0 | Some _ => sectionCount s end in
  wheel_inv (if negb (prev =? sectionCount s1) then rebuilt s1 else s1).
Proof.
  intros Hinv Hn s1 prev.
  pose proof (setData_result_count JSON_parse s raw items Hn) as Hcount.
  destruct (normalize_ok_length JSON_parse _ _ _ _ Hn) as [Hlen _].
  assert (items <> []) as Hne by (intros ->; cbn in Hlen; lia).
  assert (items_inv s1) as Hitems.
  { intros d i item [= <-] Hi. eapply normalize_stored_ok; eassumption. }
  assert (staticSectionCount s1 = false ->
          sectionCount s1 = Z.of_nat (length items) + 1) as Hdyn.
  { unfold s1, setData_result. cbn. intros ->. reflexivity. }
  destruct Hinv as (Hlock & Hptr & Hshape & Hlayout & Hitems0).
  fold s1 in Hcount.
  destruct (negb (prev =? sectionCount s1)) eqn:Hflag.
  - apply (wheel_inv_rebuilt s1 items); try assumption; try reflexivity.
    + exact (proj2 Hlock).
    + unfold s1, setData_result. cbn.
      destruct (Z.eqb_spec (sectionCount s)
                  (if staticSectionCount s then sectionCount s
                   else Z.of_nat (length items) + 1)) as [Heq|_]; [|reflexivity].
      cbn. apply negb_true_iff, Z.eqb_neq in Hflag. subst prev.
      destruct (data s) eqn:Hd.
      * exfalso. apply Hflag. unfold s1, setData_result. cbn. exact Heq.
      * unfold pointer_inv in Hptr. unfold shape_inv in Hshape. rewrite Hd in Hshape.
        destruct Hshape as (_ & _ & Hnone & _).
        rewrite Hnone in Hptr. exact Hptr.
    + unfold s1, setData_result. cbn.
      destruct (Z.eqb_spec (sectionCount s)
                  (if staticSectionCount s then sectionCount s
                   else Z.of_nat (length items) + 1)) as [Heq|_]; [|reflexivity].
      cbn. apply negb_true_iff, Z.eqb_neq in Hflag. subst prev.
      destruct (data s) eqn:Hd.
      * exfalso. apply Hflag. unfold s1, setData_result. cbn. exact Heq.
      * unfold shape_inv in Hshape. rewrite Hd in Hshape.
        destruct Hshape as (_ & _ & _ & Hzero). exact Hzero.
  - apply negb_false_iff, Z.eqb_eq in Hflag. subst prev.
    destruct (data s) as [d0|] eqn:Hd; [|lia].
    assert (sectionCount s1 = sectionCount s) as Hsame by lia.
    assert ((if staticSectionCount s then sectionCount s
             else Z.of_nat (length items) + 1) = sectionCount s) as Hn1
      by exact Hsame.
    unfold layout_inv in Hlayout. rewrite Hd in Hlayout.
    destruct Hlayout as (Hstep & Hoff & Hkey & Hang).
    unfold shape_inv in Hshape. rewrite Hd in Hshape.
    destruct Hshape as (H0 & _ & _ & _ & Hsec & Hsome & Hprev).
    assert (angleStep s1 = angleStep s) as Hstep1
      by (unfold s1, setData_result; cbn; rewrite Hn1; symmetry; exact Hstep).
    assert (angleOffset s1 = angleOffset s) as Hoff1.
    { change (angleOffset_of (angleStep_of (if staticSectionCount s then sectionCount s
                                            else Z.of_nat (length items) + 1))
              = angleOffset s).
      rewrite Hn1, <- Hstep. symmetry. exact Hoff. }
    split; [|split; [|split; [|split]]].
    + exact Hlock.
    + unfold pointer_inv in *. unfold s1, setData_result. cbn. rewrite Hn1, Z.eqb_refl.
      exact Hptr.
    + unfold shape_inv. unfold s1, setData_result. cbn. rewrite Hn1, Z.eqb_refl. cbn.
      split; [exact H0|]. repeat split; try assumption.
      * unfold s1, setData_result in Hcount. cbn in Hcount. rewrite Hn1 in Hcount.
        exact Hcount.
      * intros Hst. rewrite Hst in Hn1. lia.
    + unfold layout_inv.
      change (data s1) with (Some items). change (sections s1) with (sections s).
      rewrite Hstep1, Hoff1.
      change (sectionCount s1) with (if staticSectionCount s then sectionCount s
                                     else Z.of_nat (length items) + 1).
      change (keyDistanceFromCenter s1)
        with (keyDistance_of (if staticSectionCount s then sectionCount s
                              else Z.of_nat (length items) + 1)).
      rewrite Hn1. repeat split; assumption.
    + exact Hitems.
Qed.

Lemma setSections_wheel_inv raw s :
  wheel_inv s -> wheel_inv (st (setSections JSON_parse raw s)).
Proof.
  intros Hinv.
  destruct (normalize JSON_parse (staticSectionCount s) (sectionCount s) raw)
    as [items|e] eqn:Hn.
  2: { rewrite (setSections_rejected JSON_parse s raw e Hn). exact Hinv. }
  rewrite (setSections_validated JSON_parse s raw items Hn).
  pose proof (setData_result_inv_base s raw items Hinv Hn) as Hbase. cbv zeta in Hbase.
  pose proof (setData_result_count JSON_parse s raw items Hn) as Hcount.
  set (s1 := setData_result items s) in *.
  set (prev := match data s with None => 0 | Some _ => sectionCount s end) in *.
  unfold after_setData. rewrite bind_get, st_bind.
  pose proof (render_fixtures (negb (prev =? sectionCount s1)) s1 ltac:(lia)) as Hfix.
  apply (wheel_inv_fixtures _ _ Hfix) in Hbase.
  destruct (render _ s1) as [[[]|e] s2 o2]; cbn [st] in *; [|exact Hbase].
  destruct (autoLockWheel s1); [|exact Hbase].
  rewrite toggleLockWheel_reply. cbn [st]. apply wheel_inv_toggle. exact Hbase.
Qed.

Lemma constructor_wheel_inv a s : constructor JSON_parse a = Ok s -> wheel_inv s.
Proof.
  unfold constructor. rewrite construct_unfold.
  destruct (configure a initial) as [[[]|e] s0 o0] eqn:Hc; [|discriminate].
  destruct (configure_ok _ _ _ Hc)
    as (Hd0 & Hsec0 & Hptr0 & Hlock0 & Hsvg0 & Hauto0 & Hstat0 & Hprev0 & Hrot0).
  destruct (attr_data a) as [str|].
  2: { intros [= <-]. split; [|split; [|split; [|split]]].
       - split; [rewrite Hsec0; constructor | rewrite Hsvg0; discriminate].
       - unfold pointer_inv. rewrite Hptr0. exact Hrot0.
       - unfold shape_inv. rewrite Hd0, Hprev0. repeat split; try assumption; lia.
       - unfold layout_inv. rewrite Hd0. exact I.
       - intros d i item Hd. congruence. }
  set (m := (setData JSON_parse (VStr str);; modify (set_isLocked false);; render true)).
  destruct (res (m s0)) eqn:Hres; [|discriminate].
  intros [= <-]. subst m. revert Hres. rewrite res_bind, st_bind.
  destruct (normalize JSON_parse (staticSectionCount s0) (sectionCount s0) (VStr str))
    as [items|e] eqn:Hn.
  2: { rewrite (setData_throw JSON_parse s0 _ e Hn). discriminate. }
  rewrite (setData_ok JSON_parse s0 _ items Hn).
  pose proof (setData_result_count JSON_parse s0 _ items Hn) as Hcount.
  destruct (normalize_ok_length JSON_parse _ _ _ _ Hn) as [Hlen _].
  rewrite bind_modify. intros _.
  set (s1 := set_isLocked false (setData_result items s0)).
  assert (0 < sectionCount s1) as Hpos by (cbn in *; lia).
  apply (wheel_inv_fixtures _ _ (render_fixtures true s1 Hpos)).
  apply (wheel_inv_rebuilt s1 items); try reflexivity.
  - intros ->. cbn in Hlen. lia.
  - exact Hcount.
  - cbn. intros ->. reflexivity.
  - cbn. rewrite Hsvg0. discriminate.
  - cbn. rewrite Hrot0. destruct (negb (_ =? _)); reflexivity.
  - cbn. rewrite Hprev0. destruct (negb (_ =? _)); reflexivity.
  - intros d i item [= <-] Hi. eapply normalize_stored_ok; eassumption.
Qed.

Lemma onSectionHover_wheel_inv index s :
  wheel_inv s -> deliverable s (Hover index) ->
  wheel_inv (st (onSectionHover index s)).
Proof.
  intros Hinv Hdel. rewrite onSectionHover_reply.
  destruct (index =? prevHoverIndex s); [exact Hinv|].
  destruct (data s) as [d|] eqn:Hd; [|exact Hinv].
  destruct ((index >? Z.of_nat (length d) - 1) && negb (index =? sectionCount s - 1));
    [exact Hinv|].
  destruct (sectionPointerElem s) as [p|] eqn:Hp; [|exact Hinv].
  cbv zeta. cbn [st].
  destruct Hinv as (Hlock & Hptr & Hshape & Hlayout & Hitems).
  split; [|split; [|split; [|split]]].
  - exact Hlock.
  - unfold pointer_inv in *. rewrite Hp in Hptr. cbn. split; [apply Hptr | reflexivity].
  - unfold shape_inv in *. rewrite Hd in Hshape. cbn. rewrite Hd.
    destruct Hshape as (_ & Hne & Hc & Hdyn & Hsec & _ & _). cbn in Hdel.
    split; [lia|]. repeat split; try assumption; [eauto | lia].
  - unfold layout_inv in *. cbn. exact Hlayout.
  - exact Hitems.
Qed.

Lemma mouse_wheel_inv b s :
  wheel_inv s ->
  wheel_inv (set_pointer (set_show b <$> sectionPointerElem s) (set_isMouseOver b s)).
Proof.
  intros (Hlock & Hptr & Hshape & Hlayout & Hitems).
  split; [|split; [|split; [|split]]].
  - exact Hlock.
  - unfold pointer_inv in *. cbn. destruct (sectionPointerElem s) as [p|]; cbn.
    + split; [reflexivity | apply Hptr].
    + exact Hptr.
  - unfold shape_inv in *. cbn. destruct Hshape as [H0 Hcase]. split; [exact H0|].
    destruct (data s).
    + destruct Hcase as (? & ? & ? & ? & [p Hp] & ?). rewrite Hp. cbn.
      repeat split; try assumption. eauto.
    + destruct Hcase as (? & -> & ?). repeat split; assumption.
  - exact Hlayout.
  - exact Hitems.
Qed.

Lemma onSectionSelect_st index s :
  st (onSectionSelect index s) = s
  \/ st (onSectionSelect index s) = select_state index s.
Proof.
  rewrite onSectionSelect_reply. cbv zeta.
  repeat case_match; cbn [st]; auto.
Qed.

Lemma onKeyPress_st key s :
  st (onKeyPress key s) = s
  \/ exists index, st (onKeyPress key s) = select_state index s.
Proof.
  unfold onKeyPress. rewrite bind_get.
  destruct (isLocked s); [left; reflexivity|].
  destruct (String.eqb key "Backspace").
  { destruct (onSectionSelect_st (Z.of_nat (length (sections s)) - 1) s); eauto. }
  destruct (data s) as [d|]; [|left; reflexivity].
  destruct (_ =? -1); [left; reflexivity|].
  match goal with |- context [onSectionSelect ?i s] =>
    destruct (onSectionSelect_st i s); eauto end.
Qed.

Lemma handle_wheel_inv e s :
  wheel_inv s -> deliverable s e -> wheel_inv (st (handle JSON_parse e s)).
Proof.
  intros Hinv Hdel. destruct e as [raw|b|key|index|index| |]; cbn [handle].
  - apply setSections_wheel_inv. exact Hinv.
  - rewrite toggleLockWheel_reply. apply wheel_inv_toggle. exact Hinv.
  - destruct (onKeyPress_st key s) as [->|[i ->]];
      [exact Hinv | apply wheel_inv_select, Hinv].
  - unfold onSectionClick. destruct (onSectionSelect_st index s) as [->| ->];
      [exact Hinv | apply wheel_inv_select, Hinv].
  - apply onSectionHover_wheel_inv; assumption.
  - rewrite onMouseEnter_reply. apply mouse_wheel_inv. exact Hinv.
  - rewrite onMouseLeave_reply. apply mouse_wheel_inv. exact Hinv.
Qed.

Lemma reachable_wheel_inv s : reachable JSON_parse s -> wheel_inv s.
Proof.
  induction 1 as [a s Hc|s e _ IH Hdel].
  - eapply constructor_wheel_inv. exact Hc.
  - apply handle_wheel_inv; assumption.
Qed.

End Invariant.

(** ** Arcs of a reachable wheel *)






Section Tiling.

Variable JSON_parse : string -> option value.


End Tiling.


(** ** Reachable instances *)

Lemma used_wheel_reachable : reachable rejecting_parse used_wheel.
Proof.
  unfold used_wheel, run. cbn [fold_left].
  apply (reachable_step rejecting_parse _ (Hover 2)).
  - apply (reachable_step rejecting_parse _ MouseEnter); [|exact I].
    apply (reachable_step rejecting_parse _ (ToggleLockWheel false)); [|exact I].
    apply wheel_of_reachable.
  - split; vm_compute; congruence.
Qed.


Section Reachable.

Variable JSON_parse : string -> option value.

(** X3. In every instance the host can reach, each section link carries
    the [tabindex] of the current lock state ([-1] while locked, [0]
    while unlocked), and the [svg] has the [unrawheel--locked] class only
    while the wheel is locked. *)
Theorem reachable_lock_consistent s :
  reachable JSON_parse s ->
  Forall (fun el => tabindex el = lock_tabindex (isLocked s)) (sections s)
  /\ (svgLocked s = true -> isLocked s = true).
Proof. intros Hr. exact (proj1 (reachable_wheel_inv JSON_parse s Hr)). Qed.

(** X4. In every reachable instance the section pointer, once created,
    is shown exactly while the mouse is over the wheel, and its rotation
    is the accumulated [#currSectionPointerRotation] (zero while no
    rotation was set); without a pointer the accumulated rotation is
    zero. *)
Theorem reachable_pointer_consistent s :
  reachable JSON_parse s ->
  match sectionPointerElem s with
  | Some p =>
      show p = isMouseOver s
      /\ currSectionPointerRotation s = default 0%float (transform p)
  | None => currSectionPointerRotation s = 0%float
  end.
Proof.
  intros Hr. exact (proj1 (proj2 (reachable_wheel_inv JSON_parse s Hr))).
Qed.


(** X6. In a reachable instance with section data the layout constants
    are those of the current section count, and the sector angles of the
    rendered sections are the ones a full rebuild with the current
    constants would draw: no handler leaves stale geometry behind. *)
Theorem reachable_layout s d :
  reachable JSON_parse s ->
  data s = Some d ->
  angleStep s = angleStep_of (sectionCount s)
  /\ angleOffset s = angleOffset_of (angleStep s)
  /\ keyDistanceFromCenter s = keyDistance_of (sectionCount s)
  /\ angles <$> sections s
     = angles <$> new_sections (Z.to_nat (sectionCount s)) 0%float
                    (angleStep s) (angleOffset s) (isLocked s).
Proof.
  intros Hr Hd.
  destruct (reachable_wheel_inv JSON_parse s Hr) as (_ & _ & [_ Hshape] & Hlayout & _).
  unfold layout_inv in Hlayout. rewrite Hd in Hshape, Hlayout.
  destruct Hshape as (_ & _ & _ & Hlen & _).
  destruct Hlayout as (Hstep & Hoff & Hkey & Hang).
  repeat split; try assumption.
  rewrite Hang, <- Hlen, Nat2Z.id. apply angles_new_sections.
Qed.

(** X7. Every section stored in a reachable instance is well formed: it
    has a [value], its [text] is a string, its [image] is absent or a
    string, and its [key] is a string of length 1, or [undefined] for an
    item without a key at an index past the 36 default keys. *)
Theorem reachable_items_well_formed s d i item :
  reachable JSON_parse s ->
  data s = Some d ->
  d !! i = Some item ->
  is_Some (item !! "value"%string)
  /\ (exists t, item !! "text"%string = Some (VStr t))
  /\ (item !! "image"%string = None
      \/ exists u, item !! "image"%string = Some (VStr u))
  /\ ((exists c, item !! "key"%string = Some (VStr c) /\ js_length c = 1%nat)
      \/ (item !! "key"%string = Some VUndefined /\ (36 <= i)%nat)).
Proof.
  intros Hr Hd Hi.
  destruct (reachable_wheel_inv JSON_parse s Hr) as (_ & _ & _ & _ & Hitems).
  exact (Hitems d i item Hd Hi).
Qed.

End Reachable.

(** The wheel that was unlocked, entered and hovered: its links are
    tabbable. *)
Lemma reachable_lock_consistent_witness :
  Forall (fun el => tabindex el = 0) (sections used_wheel).
Proof.
  destruct (reachable_lock_consistent rejecting_parse used_wheel used_wheel_reachable)
    as [H _].
  assert (isLocked used_wheel = false) as Hl by evaluate.
  rewrite Hl in H. exact H.
Defined.

Lemma reachable_pointer_consistent_witness :
  exists p, sectionPointerElem used_wheel = Some p
            /\ show p = true
            /\ currSectionPointerRotation used_wheel = default 0%float (transform p).
Proof.
  pose proof (reachable_pointer_consistent rejecting_parse used_wheel
                used_wheel_reachable) as H.
  assert (isMouseOver used_wheel = true) as Hm by evaluate.
  destruct (sectionPointerElem used_wheel) as [p|] eqn:Hp.
  - exists p. rewrite Hm in H. destruct H as [H1 H2]. repeat split; assumption.
  - exfalso. revert Hp. evaluate.
Defined.


Lemma reachable_layout_witness :
  angleStep used_wheel = angleStep_of 4
  /\ keyDistanceFromCenter used_wheel = keyDistance_of 4.
Proof.
  assert (data used_wheel = Some (data_of used_wheel)) as Hd
    by (apply data_of_Some; evaluate).
  destruct (reachable_layout rejecting_parse used_wheel _ used_wheel_reachable Hd)
    as (Hstep & _ & Hkey & _).
  assert (sectionCount used_wheel = 4) as Hn by evaluate.
  rewrite Hn in Hstep, Hkey. split; assumption.
Defined.

Lemma reachable_items_well_formed_witness :
  exists item,
    data_of (wheel_of 3) !! 1%nat = Some item
    /\ is_Some (item !! "value"%string)
    /\ exists t, item !! "text"%string = Some (VStr t).
Proof.
  assert (data (wheel_of 3) = Some (data_of (wheel_of 3))) as Hd
    by (apply data_of_Some; evaluate).
  assert (is_Some (data_of (wheel_of 3) !! 1%nat)) as [item Hi]
    by (apply (bool_decide_eq_true_1 (is_Some _)); evaluate).
  destruct (reachable_items_well_formed rejecting_parse (wheel_of 3) _ 1 item
              (wheel_of_reachable 3) Hd Hi) as (Hv & Ht & _).
  exists item. repeat split; assumption.
Defined.

(** ** Selection *)

Lemma select_state_isLocked index s :
  isLocked (select_state index s) = if autoLockWheel s then true else isLocked s.
Proof.
  unfold select_state. destruct (autoLockWheel s).
  - apply toggle_result_isLocked.
  - destruct (at_index (sections s) index) as [el|]; [|reflexivity].
    destruct (selected el); reflexivity.
Qed.

Lemma at_index_nat {A} (l : list A) (i : nat) : at_index l (Z.of_nat i) = l !! i.
Proof.
  unfold at_index. replace (Z.of_nat i <? 0) with false by (symmetry; apply Z.ltb_ge; lia).
  rewrite Nat2Z.id. reflexivity.
Qed.

Lemma stored_ok_key_not_empty i item :
  stored_ok i item -> strict_eq_string (prop item "key") "" = false.
Proof.
  intros (_ & _ & _ & [(c & Hc & Hlen)|[Hc _]]); unfold prop; rewrite Hc; cbn.
  - destruct c; [discriminate | reflexivity].
  - reflexivity.
Qed.

(** The selection of a data section of a consistent wheel. *)
Lemma onSectionSelect_data s d i item :
  wheel_inv s ->
  data s = Some d ->
  d !! i = Some item ->
  onSectionSelect (Z.of_nat i) s
  = Reply (Ok tt) (select_state (Z.of_nat i) s) [prop item "value"].
Proof.
  intros (_ & _ & [_ Hshape] & _ & Hitems) Hd Hi.
  rewrite Hd in Hshape. destruct Hshape as (_ & Hcount & _ & Hlen & _).
  apply lookup_lt_Some in Hi as Hlt.
  rewrite onSectionSelect_reply. cbv zeta.
  replace (Z.of_nat i =? Z.of_nat (length (sections s)) - 1) with false
    by (symmetry; apply Z.eqb_neq; lia).
  rewrite Hd, at_index_nat, Hi.
  rewrite (stored_ok_key_not_empty i item (Hitems d i item Hd Hi)).
  rewrite at_index_nat.
  destruct (sections s !! i) as [el|] eqn:Hel.
  2: { apply lookup_ge_None in Hel. lia. }
  replace (Z.of_nat i =? -1) with false by (symmetry; apply Z.eqb_neq; lia).
  replace (Z.of_nat i =? sectionCount s - 1) with false
    by (symmetry; apply Z.eqb_neq; lia).
  reflexivity.
Qed.

(** The selection of the back section of a consistent wheel. *)
Lemma onSectionSelect_back s d :
  wheel_inv s ->
  data s = Some d ->
  onSectionSelect (Z.of_nat (length (sections s)) - 1) s
  = Reply (Ok tt) (select_state (sectionCount s - 1) s) [VNum (-1)].
Proof.
  intros (_ & _ & [_ Hshape] & _) Hd.
  rewrite Hd in Hshape. destruct Hshape as (_ & Hcount & _ & Hlen & _).
  rewrite onSectionSelect_reply. cbv zeta. rewrite Z.eqb_refl, Hlen.
  unfold at_index at 1.
  replace (sectionCount s - 1 <? 0) with false by (symmetry; apply Z.ltb_ge; lia).
  destruct (sections s !! Z.to_nat (sectionCount s - 1)) as [el|] eqn:Hel.
  2: { apply lookup_ge_None in Hel. lia. }
  rewrite Z.eqb_refl, orb_true_r. reflexivity.
Qed.



Section Selection.

Variable JSON_parse : string -> option value.

(** X8. A click on a data section of a reachable wheel always returns
    normally and dispatches exactly one [section-select] event, whose
    value is the [value] of that section's item; the guard against empty
    keys never fires for a stored item.  The lock state plays no role in
    it; afterwards the wheel is locked if [auto-lock] is set and
    otherwise as locked as before. *)
Theorem click_dispatches_value s d i item :
  reachable JSON_parse s ->
  data s = Some d ->
  d !! i = Some item ->
  handle JSON_parse (Click (Z.of_nat i)) s
  = Reply (Ok tt) (select_state (Z.of_nat i) s) [prop item "value"]
  /\ isLocked (select_state (Z.of_nat i) s)
     = (if autoLockWheel s then true else isLocked s)
  /\ data (select_state (Z.of_nat i) s) = Some d.
Proof.
  intros Hr Hd Hi. split; [|split].
  - apply (onSectionSelect_data s d i item);
      [apply (reachable_wheel_inv JSON_parse) | |]; assumption.
  - apply select_state_isLocked.
  - rewrite select_state_data. exact Hd.
Qed.

(** X9. Going back.  On a reachable wheel with section data whose
    section count is the number of its rendered sections (as it is for
    every integer section count), a click on the last rendered section
    dispatches exactly one event with the value [-1], and so does the
    [Backspace] key while the wheel is unlocked. *)
Theorem back_dispatches_minus_one s d :
  reachable JSON_parse s ->
  data s = Some d ->
  sectionCount s = Z.of_nat (length (sections s)) ->
  let last := Z.of_nat (length (sections s)) - 1 in
  handle JSON_parse (Click last) s
  = Reply (Ok tt) (select_state last s) [VNum (-1)]
  /\ (isLocked s = false ->
      handle JSON_parse (KeyDown "Backspace") s
      = Reply (Ok tt) (select_state last s) [VNum (-1)]).
Proof.
  intros Hr Hd Hcount last. subst last.
  pose proof (reachable_wheel_inv JSON_parse s Hr) as Hinv.
  pose proof (onSectionSelect_back s d Hinv Hd) as Hback.
  rewrite Hcount in Hback.
  split.
  - cbn [handle]. unfold onSectionClick. exact Hback.
  - intros Hl. cbn [handle]. unfold onKeyPress. rewrite bind_get, Hl. cbn [String.eqb].
    exact Hback.
Qed.


(** X11. What a handler call can dispatch.  Whatever the instance and
    the event, a call dispatches no event or exactly one; only a key
    press or a click dispatches, only when it returns normally, and the
    value is [-1] or the [value] of a stored section. *)
Theorem handle_dispatches_at_most_one s e :
  out (handle JSON_parse e s) = []
  \/ ((exists index, e = Click index) \/ (exists key, e = KeyDown key))
     /\ res (handle JSON_parse e s) = Ok tt
     /\ (out (handle JSON_parse e s) = [VNum (-1)]
         \/ exists d index item,
              data s = Some d /\ at_index d index = Some item
              /\ out (handle JSON_parse e s) = [prop item "value"]).
Proof.
  assert (forall index,
    out (onSectionSelect index s) = []
    \/ res (onSectionSelect index s) = Ok tt
       /\ (out (onSectionSelect index s) = [VNum (-1)]
           \/ exists d j item,
                data s = Some d /\ at_index d j = Some item
                /\ out (onSectionSelect index s) = [prop item "value"])) as Hsel.
  { intros index. rewrite onSectionSelect_reply. cbv zeta.
    destruct (index =? Z.of_nat (length (sections s)) - 1).
    - destruct (at_index (sections s) index); [|left; reflexivity].
      destruct ((index =? -1) || (index =? sectionCount s - 1));
        [right; split; [reflexivity | left; reflexivity]|].
      destruct (data s) as [d|] eqn:Hd; [|left; reflexivity].
      destruct (at_index d index) as [item|] eqn:Hi; [|left; reflexivity].
      right. split; [reflexivity|]. right. exists d, index, item.
      split; [reflexivity|]. split; [exact Hi | reflexivity].
    - destruct (data s) as [d|] eqn:Hd; [|left; reflexivity].
      destruct (at_index d index) as [item|] eqn:Hi; [|left; reflexivity].
      destruct (strict_eq_string (prop item "key") ""); [left; reflexivity|].
      destruct (at_index (sections s) index); [|left; reflexivity].
      destruct ((index =? -1) || (index =? sectionCount s - 1));
        [right; split; [reflexivity | left; reflexivity]|].
      right. split; [reflexivity|]. right. exists d, index, item.
      split; [reflexivity|]. split; [exact Hi | reflexivity]. }
  destruct e as [raw|b|key|index|index| |]; cbn [handle].
  - left. apply setSections_quiet.
  - left. rewrite toggleLockWheel_reply. reflexivity.
  - unfold onKeyPress. rewrite bind_get.
    destruct (isLocked s); [left; reflexivity|].
    destruct (String.eqb key "Backspace").
    + destruct (Hsel (Z.of_nat (length (sections s)) - 1)) as [H|H]; [left; exact H|].
      right. split; [right; eauto | exact H].
    + destruct (data s) as [d|]; [|left; reflexivity].
      destruct (_ =? -1); [left; reflexivity|].
      match goal with |- context [onSectionSelect ?i s] =>
        destruct (Hsel i) as [H|H]; [left; exact H|] end.
      right. split; [right; eauto | exact H].
  - unfold onSectionClick. destruct (Hsel index) as [H|H]; [left; exact H|].
    right. split; [left; eauto | exact H].
  - left. rewrite onSectionHover_reply. repeat case_match; reflexivity.
  - left. rewrite onMouseEnter_reply. reflexivity.
  - left. rewrite onMouseLeave_reply. reflexivity.
Qed.

(** X12. The auto-lock cycle.  On a wheel with [auto-lock], a handler
    call that dispatches an event leaves the wheel locked, so that every
    key press after it is ignored; a [setSections] that returns normally
    unlocks the wheel again. *)
Theorem auto_lock_cycle s e :
  autoLockWheel s = true ->
  (out (handle JSON_parse e s) <> [] ->
   isLocked (st (handle JSON_parse e s)) = true
   /\ forall key,
        handle JSON_parse (KeyDown key) (st (handle JSON_parse e s))
        = Reply (Ok tt) (st (handle JSON_parse e s)) [])
  /\ (forall raw,
        res (setSections JSON_parse raw s) = Ok tt ->
        isLocked (st (setSections JSON_parse raw s)) = false).
Proof.
  intros Hauto. split.
  - intros Hout.
    assert (isLocked (st (handle JSON_parse e s)) = true) as Hlocked.
    { assert (forall index, out (onSectionSelect index s) <> [] ->
                isLocked (st (onSectionSelect index s)) = true) as Hsel.
      { intros index. rewrite onSectionSelect_reply. cbv zeta.
        repeat case_match; cbn [out st]; try congruence;
          intros _; rewrite select_state_isLocked, Hauto; reflexivity. }
      destruct e as [raw|b|key|index|index| |]; cbn [handle] in *.
      - destruct Hout. apply setSections_quiet.
      - destruct Hout. rewrite toggleLockWheel_reply. reflexivity.
      - revert Hout. unfold onKeyPress. rewrite bind_get.
        destruct (isLocked s) eqn:Hl; [intros H; destruct H; reflexivity|].
        destruct (String.eqb key "Backspace"); [apply Hsel|].
        destruct (data s) as [d|]; [|intros H; destruct H; reflexivity].
        destruct (_ =? -1); [intros H; destruct H; reflexivity | apply Hsel].
      - apply Hsel. exact Hout.
      - destruct Hout. rewrite onSectionHover_reply. repeat case_match; reflexivity.
      - destruct Hout. rewrite onMouseEnter_reply. reflexivity.
      - destruct Hout. rewrite onMouseLeave_reply. reflexivity. }
    split; [exact Hlocked|]. intros key. cbn [handle].
    apply onKeyPress_locked. exact Hlocked.
  - intros raw.
    destruct (normalize JSON_parse (staticSectionCount s) (sectionCount s) raw)
      as [items|e'] eqn:Hn.
    2: { rewrite (setSections_rejected JSON_parse s raw e' Hn). discriminate. }
    rewrite (setSections_validated JSON_parse s raw items Hn).
    unfold after_setData. rewrite bind_get, res_bind, st_bind.
    change (autoLockWheel (setData_result items s)) with (autoLockWheel s).
    rewrite Hauto.
    destruct (render _ _) as [[[]|e'] s2 o2]; cbn [res st]; [|discriminate].
    intros _. rewrite toggleLockWheel_reply. apply toggle_result_isLocked.
Qed.

End Selection.

(** ** What a render shows *)







(** ** Lists that [setSections] accepts *)

Lemma parseUnraWheelData_ok_iff v i :
  (exists o, parseUnraWheelData v i = Ok o /\ prop o "key" <> VUndefined)
  <-> item_valid i v.
Proof.
  unfold item_valid, fields_valid, parseUnraWheelData. split.
  - intros (o & Hp & Hkey). revert Hp.
    destruct (assign_empty v !! "value"%string) as [x|]; [|discriminate].
    destruct (assign_empty v !! "text"%string) as [t|]; [|discriminate].
    destruct t as [| | | |t| |]; try discriminate. cbn [is_string negb].
    destruct (assign_empty v !! "image"%string) as [im|].
    + destruct im as [| | | |im| |]; try discriminate.
      destruct (assign_empty v !! "key"%string) as [k|].
      * destruct k as [| | | |k| |]; try discriminate.
        destruct (Nat.eqb_spec (js_length k) 1); [|discriminate].
        intros _. repeat split; eauto.
      * intros [= <-]. repeat split; eauto.
        unfold prop in Hkey. rewrite lookup_insert_eq in Hkey. cbn in Hkey.
        destruct (Nat.lt_ge_cases i 36) as [Hlt|Hge]; [exact Hlt|].
        apply defaultKeys_at_undefined in Hge. contradiction.
    + destruct (assign_empty v !! "key"%string) as [k|].
      * destruct k as [| | | |k| |]; try discriminate.
        destruct (Nat.eqb_spec (js_length k) 1); [|discriminate].
        intros _. repeat split; eauto.
      * intros [= <-]. repeat split; eauto.
        unfold prop in Hkey. rewrite lookup_insert_eq in Hkey. cbn in Hkey.
        destruct (Nat.lt_ge_cases i 36) as [Hlt|Hge]; [exact Hlt|].
        apply defaultKeys_at_undefined in Hge. contradiction.
  - intros (([x ->] & [t ->] & Himg) & Hkey). cbn [is_string negb].
    assert (forall r : result (gmap string value),
      match assign_empty v !! "image"%string with
      | Some (VStr _) | None => r
      | Some _ => Throw (ImageNotString i)
      end = r) as -> by (intros r; destruct Himg as [->|[u ->]]; reflexivity).
    destruct (assign_empty v !! "key"%string) as [k|] eqn:Hk.
    + destruct Hkey as (c & -> & Hlen). rewrite Hlen. cbn.
      eexists. split; [reflexivity|]. unfold prop. rewrite Hk. discriminate.
    + eexists. split; [reflexivity|]. unfold prop. rewrite lookup_insert_eq. cbn.
      intros Hu. apply defaultKeys_at_undefined in Hu. lia.
Qed.

Lemma data_map_ok l k :
  (forall i v, l !! i = Some v -> exists o, parseUnraWheelData v (k + i) = Ok o) ->
  exists items, data_map l k = Ok items.
Proof.
  revert k. induction l as [|item l IH]; intros k Hall; cbn [data_map].
  - eexists. reflexivity.
  - destruct (Hall 0%nat item eq_refl) as [o Ho]. rewrite Nat.add_0_r in Ho.
    destruct (IH (S k)) as [items Hitems].
    { intros i v Hi. replace (S k + i)%nat with (k + S i)%nat by lia.
      apply Hall. exact Hi. }
    run_monad. rewrite Ho, Hitems. eexists. reflexivity.
Qed.

Lemma normalize_list JSON_parse static n raw l :
  parse_input JSON_parse raw = Ok (VArr l) -> l <> [] ->
  (static = true -> Z.of_nat (length l) <= n - 1) ->
  normalize JSON_parse static n raw = data_map l 0.
Proof.
  intros H Hl Hn. unfold normalize. run_monad. rewrite H. cbn.
  destruct l; [contradiction|]. cbn [length Nat.eqb].
  destruct static; cbn [andb]; [|reflexivity].
  replace (_ >? _) with false; [reflexivity|].
  symmetry. rewrite Z.gtb_ltb. apply Z.ltb_ge. apply Hn. reflexivity.
Qed.

Lemma loop_outcome_ok d n len a k :
  (a + k <= len)%nat ->
  (forall i item, d !! i = Some item -> prop item "key" <> VUndefined) ->
  loop_outcome (Some d) n len (seq a k) = Ok tt.
Proof.
  intros Hlen Hkeys. revert a Hlen. induction k as [|k IH]; intros a Hlen; [reflexivity|].
  cbn [seq loop_outcome]. run_monad.
  assert (content_outcome (Some d) n len a = Ok tt) as ->; [|apply IH; lia].
  unfold content_outcome.
  replace (a <? len)%nat with true by (symmetry; apply Nat.ltb_lt; lia).
  destruct (isBackSection n a) eqn:Hback; [reflexivity|].
  unfold isBlankSection. rewrite Hback. cbn [negb andb].
  destruct (Z.gtb_spec (Z.of_nat a) (Z.of_nat (length d) - 1)) as [Hgt|Hle];
    [reflexivity|].
  destruct (d !! a) as [item|] eqn:Ha.
  - run_monad. specialize (Hkeys a item Ha). destruct (prop item "key"); congruence.
  - apply lookup_ge_None in Ha. lia.
Qed.

(** After a validation on a rendered wheel there is an element for
    every section the content loop visits. *)
Lemma elements_suffice JSON_parse s raw items :
  rendered s ->
  normalize JSON_parse (staticSectionCount s) (sectionCount s) raw = Ok items ->
  let s1 := setData_result items s in
  let prev := match data s with None => 0 | Some _ => sectionCount s end in
  (Z.to_nat (sectionCount s1)
   <= (if negb (prev =? sectionCount s1)%Z then Z.to_nat (sectionCount s1)
       else length (sections s)))%nat.
Proof.
  intros Hrend Hn s1 prev.
  pose proof (setData_result_count JSON_parse s raw items Hn) as Hcount.
  fold s1 in Hcount.
  destruct (Z.eqb_spec prev (sectionCount s1)) as [Heq|_]; cbn [negb]; [|lia].
  subst prev. destruct (data s) eqn:Hd; [|lia].
  assert (Z.of_nat (length (sections s)) = sectionCount s) as Hs
    by (apply Hrend; congruence).
  lia.
Qed.

(** A list of valid items that fits is accepted and becomes the section
    data. *)
Lemma setSections_accepts JSON_parse s raw l :
  rendered s ->
  parse_input JSON_parse raw = Ok (VArr l) ->
  l <> [] ->
  (staticSectionCount s = true -> Z.of_nat (length l) <= sectionCount s - 1) ->
  (forall i v, l !! i = Some v -> item_valid i v) ->
  exists items,
    normalize JSON_parse (staticSectionCount s) (sectionCount s) raw = Ok items
    /\ length items = length l
    /\ res (setSections JSON_parse raw s) = Ok tt
    /\ data (st (setSections JSON_parse raw s)) = Some items.
Proof.
  intros Hrend Hparse Hne Hcap Hvalid.
  destruct (data_map_ok l 0) as [items Hm].
  { intros i v Hi. destruct (proj2 (parseUnraWheelData_ok_iff v i) (Hvalid i v Hi))
      as (o & Ho & _). exists o. exact Ho. }
  assert (normalize JSON_parse (staticSectionCount s) (sectionCount s) raw = Ok items)
    as Hn by (rewrite (normalize_list JSON_parse _ _ raw l); assumption).
  exists items. split; [exact Hn|]. split; [exact (data_map_length _ _ _ Hm)|]. split.
  - rewrite (setSections_res JSON_parse s raw items Hn).
    apply loop_outcome_ok; [apply (elements_suffice JSON_parse s raw items Hrend Hn)|].
    intros i item Hi.
    destruct (data_map_lookup_inv l 0 items i item Hm Hi) as (v & Hv & Hp).
    destruct (proj2 (parseUnraWheelData_ok_iff v i) (Hvalid i v Hv)) as (o & Ho & Hkey).
    cbn in Hp. congruence.
  - rewrite (setSections_validated JSON_parse s raw items Hn).
    destruct (after_setData_framed
                (match data s with None => 0 | Some _ => sectionCount s end)
                (setData_result items s)) as ((Hd & _) & _).
    rewrite Hd. reflexivity.
Qed.

Section Accepting.

Variable JSON_parse : string -> option value.

(** X13. When [setSections] succeeds.  On a reachable instance a call
    with an array (given as such or as JSON text) returns normally
    exactly when the array is not empty, fits a fixed section count with
    room for the back section, and every item has a [value], a string
    [text], no [image] or a string one, and either a one-character [key]
    of its own or an index below 36, where a default key exists. *)
Theorem setSections_succeeds_iff s raw l :
  reachable JSON_parse s ->
  parse_input JSON_parse raw = Ok (VArr l) ->
  res (setSections JSON_parse raw s) = Ok tt
  <-> l <> []
      /\ (staticSectionCount s = true -> Z.of_nat (length l) <= sectionCount s - 1)
      /\ forall i v, l !! i = Some v -> item_valid i v.
Proof.
  intros Hr Hparse. pose proof (reachable_rendered JSON_parse s Hr) as Hrend.
  split.
  - intros Hres.
    destruct (normalize JSON_parse (staticSectionCount s) (sectionCount s) raw)
      as [items|e] eqn:Hn.
    2: { rewrite (setSections_rejected JSON_parse s raw e Hn) in Hres. discriminate. }
    destruct (normalize_ok_inv JSON_parse _ _ _ _ Hn) as (l' & Hparse' & Hne & Hcap & Hm).
    assert (l' = l) as -> by congruence.
    split; [exact Hne|]. split; [exact Hcap|].
    intros i v Hi. apply parseUnraWheelData_ok_iff.
    destruct (data_map_lookup l 0 items i v Hm Hi) as (o & Hp & Ho).
    exists o. split; [exact Hp|]. intros Hundef.
    rewrite (setSections_res JSON_parse s raw items Hn) in Hres.
    pose proof (setData_result_count JSON_parse s raw items Hn) as Hcount.
    rewrite (loop_outcome_undefined_key items _ _ 0 _ i o) in Hres;
      [discriminate | exact Hcount
      | apply (elements_suffice JSON_parse s raw items Hrend Hn) | | exact Ho
      | exact Hundef].
    apply lookup_lt_Some in Ho. lia.
  - intros (Hne & Hcap & Hvalid).
    destruct (setSections_accepts JSON_parse s raw l Hrend Hparse Hne Hcap Hvalid)
      as (items & _ & _ & Hres & _).
    exact Hres.
Qed.


End Accepting.

(** ** The validated list *)


Lemma data_map_throw_inv l k e :
  data_map l k = Throw e ->
  exists i v,
    l !! i = Some v
    /\ parseUnraWheelData v (k + i) = Throw e
    /\ forall j u, (j < i)%nat -> l !! j = Some u ->
                   exists o, parseUnraWheelData u (k + j) = Ok o.
Proof.
  revert k. induction l as [|item l IH]; intros k; cbn [data_map]; [discriminate|].
  run_monad. destruct (parseUnraWheelData item k) as [o|e'] eqn:Hp.
  - destruct (data_map l (S k)) as [os|e'] eqn:Hm; [discriminate|].
    intros [= <-]. destruct (IH (S k) Hm) as (i & v & Hi & Hv & Hbefore).
    exists (S i), v. split; [exact Hi|].
    split; [replace (k + S i)%nat with (S k + i)%nat by lia; exact Hv|].
    intros [|j] u Hj; cbn.
    + intros [= <-]. exists o. rewrite Nat.add_0_r. exact Hp.
    + intros Hu. replace (k + S j)%nat with (S k + j)%nat by lia.
      apply Hbefore; [lia | exact Hu].
  - intros [= <-]. exists 0%nat, item. split; [reflexivity|].
    split; [rewrite Nat.add_0_r; exact Hp|]. intros j u Hj. lia.
Qed.

Section Validation.

Variable JSON_parse : string -> option value.


(** X16. Which error a rejected array raises.  The empty array raises
    its own error; an array that does not fit a fixed section count
    raises "too many options" before any item is looked at; otherwise
    the error is that of the first item that fails its checks, all items
    before it being valid. *)
Theorem validation_reports_first_offender static n raw l e :
  parse_input JSON_parse raw = Ok (VArr l) ->
  normalize JSON_parse static n raw = Throw e ->
  (l = [] /\ e = EmptyArray)
  \/ (l <> [] /\ static = true /\ n - 1 < Z.of_nat (length l) /\ e = TooManyOptions)
  \/ (l <> []
      /\ (static = true -> Z.of_nat (length l) <= n - 1)
      /\ exists i v,
           l !! i = Some v
           /\ parseUnraWheelData v i = Throw e
           /\ forall j u, (j < i)%nat -> l !! j = Some u ->
                          exists o, parseUnraWheelData u j = Ok o).
Proof.
  intros Hparse. destruct l as [|v0 l].
  { rewrite (normalize_empty JSON_parse static n raw Hparse). intros [= <-]. auto. }
  assert (v0 :: l <> []) as Hne by discriminate.
  destruct static.
  - destruct (Z.lt_ge_cases (n - 1) (Z.of_nat (length (v0 :: l)))) as [Hover|Hfit].
    + rewrite (normalize_over_capacity JSON_parse n raw _ Hparse Hne Hover).
      intros [= <-]. right. left. auto.
    + rewrite (normalize_list JSON_parse true n raw _ Hparse Hne (fun _ => Hfit)).
      intros Hm. right. right. split; [exact Hne|]. split; [intros _; exact Hfit|].
      exact (data_map_throw_inv _ 0 e Hm).
  - rewrite (normalize_list JSON_parse false n raw _ Hparse Hne); [|discriminate].
    intros Hm. right. right. split; [exact Hne|]. split; [discriminate|].
    exact (data_map_throw_inv _ 0 e Hm).
Qed.

(** X17. The configuration is fixed at construction: no handler call,
    whatever its outcome, changes whether the section count is static or
    whether the wheel locks itself; on a static wheel no call changes
    the section count; and only [setSections] changes the section data
    and the section count at all. *)
Theorem handlers_keep_configuration s e :
  staticSectionCount (st (handle JSON_parse e s)) = staticSectionCount s
  /\ autoLockWheel (st (handle JSON_parse e s)) = autoLockWheel s
  /\ (staticSectionCount s = true ->
      sectionCount (st (handle JSON_parse e s)) = sectionCount s)
  /\ ((forall raw, e <> SetSections raw) ->
      data (st (handle JSON_parse e s)) = data s
      /\ sectionCount (st (handle JSON_parse e s)) = sectionCount s).
Proof.
  assert ((forall raw, e <> SetSections raw) ->
          same_wheel s (st (handle JSON_parse e s))) as Hframe
    by (intros He; apply (handle_framed JSON_parse e He s)).
  destruct e as [raw|b|key|index|index| |];
    try (destruct (Hframe ltac:(discriminate)) as (Hd & Hc & Hs & Ha & _);
         repeat split; intros; assumption).
  cbn [handle].
  destruct (normalize JSON_parse (staticSectionCount s) (sectionCount s) raw)
    as [items|e] eqn:Hn.
  2: { rewrite (setSections_rejected JSON_parse s raw e Hn). cbn [st].
       repeat split. }
  rewrite (setSections_validated JSON_parse s raw items Hn).
  destruct (after_setData_framed
              (match data s with None => 0 | Some _ => sectionCount s end)
              (setData_result items s)) as ((_ & Hc & _ & _ & _ & _ & _ & Hs & Ha) & _).
  rewrite Hc, Hs, Ha. cbn.
  split; [reflexivity|]. split; [reflexivity|]. split.
  - intros ->. reflexivity.
  - intros He. destruct (He raw eq_refl).
Qed.

End Validation.

(** ** Interaction with a reachable wheel *)

Lemma map_tabindex_round_trip t (l : list SectionEl) :
  Forall (fun el => tabindex el = t) l ->
  forall t', map (set_tabindex t) (map (set_tabindex t') l) = l.
Proof.
  intros HF t'. induction HF as [|el l Hel _ IH]; cbn; [reflexivity|].
  rewrite IH. destruct el. cbn in Hel. subst. reflexivity.
Qed.

Section Interaction.

Variable JSON_parse : string -> option value.


(** X19. Locking and unlocking.  [toggleLockWheel(b)] called a second
    time does nothing.  On a reachable wheel whose [svg] class agrees
    with the lock state (as it does on every unlocked wheel), toggling
    the lock and toggling it back restores the instance exactly. *)
Theorem lock_toggle_round_trip s :
  reachable JSON_parse s ->
  (forall b,
     toggleLockWheel b (st (toggleLockWheel b s))
     = Reply (Ok tt) (st (toggleLockWheel b s)) [])
  /\ (isLocked s = false -> svgLocked s = false)
  /\ (svgLocked s = isLocked s ->
      st (toggleLockWheel (isLocked s) (st (toggleLockWheel (negb (isLocked s)) s)))
      = s).
Proof.
  intros Hr.
  destruct (reachable_wheel_inv JSON_parse s Hr) as ([Htab Hsvg] & _).
  split; [|split].
  - intros b. rewrite !toggleLockWheel_reply. cbn [st]. f_equal.
    unfold toggle_result at 1. rewrite toggle_result_isLocked.
    destruct b; reflexivity.
  - intros Hl. destruct (svgLocked s); [|reflexivity].
    rewrite Hsvg in Hl by reflexivity. discriminate.
  - intros Hagree. rewrite !toggleLockWheel_reply. cbn [st].
    clear Hr Hsvg. revert Htab Hagree.
    destruct s as [d stp off hov rot kd n over lock auto static secs ptr svg].
    cbn [isLocked svgLocked sections]. intros Htab ->.
    transitivity
      (MkState d stp off hov rot kd n over lock auto static
         (map (set_tabindex (lock_tabindex lock))
            (map (set_tabindex (lock_tabindex (negb lock))) secs)) ptr lock).
    + destruct lock; reflexivity.
    + f_equal. apply (map_tabindex_round_trip _ _ Htab).
Qed.

(** X20. The section-count check of the constructor.  For an element
    without [dynamic-section-count] and without a [data] attribute,
    whose [section-count], if it is a number, is an integer of magnitude
    below 2^53: a missing [section-count], one that is not a number and
    the count 0 make the constructor throw; every other such integer is
    accepted, the negative ones included, and gives a wheel of that many
    sections plus the back section.  A wheel made with a negative count
    rejects every [setSections] call. *)
Theorem section_count_check a :
  attr_dynamic_section_count a = false ->
  attr_data a = None ->
  (forall z, attr_section_count a = Some (Num z) -> - 2 ^ 53 < z < 2 ^ 53) ->
  match attr_section_count a with
  | None | Some NaN | Some (Num 0) =>
      constructor JSON_parse a = Throw BadSectionCount
  | Some (Num z) =>
      exists s,
        constructor JSON_parse a = Ok s
        /\ sectionCount s = z + 1
        /\ staticSectionCount s = true
        /\ (z < 0 ->
            forall raw, exists e,
              is_validation_error e = true
              /\ setSections JSON_parse raw s = Reply (Throw e) s [])
  end.
Proof.
  destruct a as [dyn sc auto d]. cbn. intros -> -> _.
  unfold constructor. rewrite construct_unfold. cbn [attr_data].
  unfold configure. cbn [attr_dynamic_section_count attr_section_count attr_auto_lock].
  destruct sc as [[|z]|]; [reflexivity| |reflexivity].
  assert (exists s,
      match (modify (fun s => set_config (autoLockWheel s) true s);;
             modify (set_sectionCount (z + 1));;
             modify (fun s => set_config auto (staticSectionCount s) s)) initial with
      | Reply (Ok _) s _ => Ok s
      | Reply (Throw e) _ _ => Throw e
      end = Ok s
      /\ sectionCount s = z + 1
      /\ staticSectionCount s = true
      /\ (z < 0 ->
          forall raw, exists e,
            is_validation_error e = true
            /\ setSections JSON_parse raw s = Reply (Throw e) s [])) as Hok.
  { rewrite !bind_modify. eexists. split; [reflexivity|].
    split; [reflexivity|]. split; [reflexivity|]. intros Hz raw.
    match goal with |- context [setSections JSON_parse raw ?s0] => set (s0' := s0) end.
    destruct (normalize JSON_parse (staticSectionCount s0') (sectionCount s0') raw)
      as [items|e] eqn:Hn.
    - destruct (normalize_ok_length JSON_parse _ _ _ _ Hn) as [Hlen Hcap].
      specialize (Hcap eq_refl). cbn in Hcap. lia.
    - exists e. split; [eapply normalize_validation; exact Hn|].
      apply setSections_rejected. exact Hn. }
  rewrite bind_reply in Hok.
  destruct z as [|p|p]; [reflexivity | |];
    cbn [not_number_gt_zero Z.eqb]; rewrite bind_reply; exact Hok.
Qed.

(** X21. The instance a constructor call returns: its lock and
    configuration.  The wheel starts locked without a [data] attribute
    and unlocked with one, in both cases without the
    [unrawheel--locked] class on its [svg]; it has section data exactly
    when the attribute was given; nothing is hovered. *)
Theorem constructor_initial_state a s :
  constructor JSON_parse a = Ok s ->
  autoLockWheel s = attr_auto_lock a
  /\ staticSectionCount s = negb (attr_dynamic_section_count a)
  /\ svgLocked s = false
  /\ prevHoverIndex s = 0
  /\ currSectionPointerRotation s = 0%float
  /\ match attr_data a with
     | None => data s = None /\ isLocked s = true
     | Some str =>
         isLocked s = false
         /\ exists items,
              normalize JSON_parse (negb (attr_dynamic_section_count a))
                (match attr_section_count a with
                 | Some (Num z) => if attr_dynamic_section_count a then 0 else z + 1
                 | _ => 0
                 end) (VStr str) = Ok items
              /\ data s = Some items
     end.
Proof.
  unfold constructor. rewrite construct_unfold.
  destruct (configure a initial) as [[[]|e] s0 o0] eqn:Hc; [|discriminate].
  destruct (configure_ok _ _ _ Hc)
    as (Hd0 & Hsec0 & Hptr0 & Hlock0 & Hsvg0 & Hauto0 & Hstat0 & Hprev0 & Hrot0).
  assert (sectionCount s0
          = match attr_section_count a with
            | Some (Num z) => if attr_dynamic_section_count a then 0 else z + 1
            | _ => 0
            end) as Hcount0.
  { revert Hc. destruct a as [dyn sc auto d]. unfold configure.
    cbn [attr_dynamic_section_count attr_section_count attr_auto_lock].
    destruct dyn.
    - rewrite bind_ret. intros [= <- _]. destruct sc as [[|z]|]; reflexivity.
    - destruct sc as [x|]; [|rewrite bind_throw; discriminate].
      destruct (not_number_gt_zero x) eqn:Hx; [rewrite bind_throw; discriminate|].
      rewrite bind_reply. cbn. intros [= <- _]. destruct x; [discriminate | reflexivity]. }
  destruct (attr_data a) as [str|].
  2: { intros [= <-]. repeat split; assumption. }
  set (m := (setData JSON_parse (VStr str);; modify (set_isLocked false);; render true)).
  destruct (res (m s0)) eqn:Hres; [|discriminate].
  intros [= <-]. subst m. revert Hres. rewrite res_bind, st_bind.
  destruct (normalize JSON_parse (staticSectionCount s0) (sectionCount s0) (VStr str))
    as [items|e] eqn:Hn.
  2: { rewrite (setData_throw JSON_parse s0 _ e Hn). discriminate. }
  rewrite (setData_ok JSON_parse s0 _ items Hn).
  pose proof (setData_result_count JSON_parse s0 _ items Hn) as Hcount.
  destruct (normalize_ok_length JSON_parse _ _ _ _ Hn) as [Hlen _].
  rewrite bind_modify. intros _.
  set (s1 := set_isLocked false (setData_result items s0)).
  assert (0 < sectionCount s1) as Hpos by (cbn in *; lia).
  destruct (same_fixtures_fields _ _ (render_fixtures true s1 Hpos))
    as (Hd & _ & Hh & Hrot & _ & _ & _ & _ & Hl & Hsvg & Ha & Hs & _).
  rewrite Ha, Hs, Hsvg, Hh, Hrot, Hl, Hd. cbn.
  rewrite Hprev0, Hrot0.
  split; [exact Hauto0|]. split; [exact Hstat0|]. split; [exact Hsvg0|].
  split; [destruct (negb (_ =? _)); reflexivity|].
  split; [destruct (negb (_ =? _)); reflexivity|].
  split; [reflexivity|]. exists items. split; [|reflexivity].
  rewrite <- Hstat0, <- Hcount0. exact Hn.
Qed.

(** X22. Removing the [data] attribute does not clear the wheel: the
    callback passes [null] on to [setSections], which raises "expected
    an array" and leaves the instance as it was.  A change of any other
    attribute does nothing. *)
Theorem data_attribute_removed s :
  attributeChangedCallback JSON_parse "data" VNull s = Reply (Throw NotArray) s []
  /\ forall name newValue,
       name <> "data"%string ->
       attributeChangedCallback JSON_parse name newValue s = Reply (Ok tt) s [].
Proof.
  split.
  - unfold attributeChangedCallback. cbn [String.eqb].
    apply setSections_rejected.
    apply (normalize_not_array JSON_parse _ _ VNull VNull); reflexivity.
  - intros name newValue Hne. unfold attributeChangedCallback.
    replace (String.eqb name "data") with false
      by (symmetry; apply String.eqb_neq; exact Hne).
    reflexivity.
Qed.

End Interaction.

(** ** The demo page *)

Lemma demo_objects_fields :
  Forall (fun o : gmap string value =>
            is_Some (o !! "value"%string)
            /\ (exists t, o !! "text"%string = Some (VStr t))
            /\ (exists u, o !! "image"%string = Some (VStr u))
            /\ o !! "key"%string = None) demo_objects.
Proof.
  unfold demo_objects.
  repeat (apply Forall_cons; split;
          [split; [eexists; reflexivity|];
           split; [eexists; reflexivity|];
           split; [eexists; reflexivity | reflexivity]|]).
  apply Forall_nil. exact I.
Qed.

Lemma demo_objects_at k :
  0 <= k < 5 ->
  exists o,
    at_index demo_objects k = Some o
    /\ is_Some (o !! "value"%string)
    /\ (exists t, o !! "text"%string = Some (VStr t))
    /\ (exists u, o !! "image"%string = Some (VStr u))
    /\ o !! "key"%string = None.
Proof.
  intros Hk. unfold at_index.
  replace (k <? 0) with false by (symmetry; apply Z.ltb_ge; lia).
  assert (is_Some (demo_objects !! Z.to_nat k)) as [o Ho]
    by (apply lookup_lt_is_Some; cbn; lia).
  exists o. split; [exact Ho|].
  exact (Forall_lookup_1 _ _ _ _ demo_objects_fields Ho).
Qed.

Lemma ndata_item_valid counter i :
  0 <= counter -> 0 <= i < 5 ->
  exists o,
    ndata_item counter i = Ok (VObj o)
    /\ fields_valid (VObj o)
    /\ o !! "key"%string = None.
Proof.
  intros Hc Hi. unfold ndata_item.
  destruct (demo_objects_at (Z.rem (i + counter) 5)) as (src & -> & _ & [t Ht] & [u Hu] & _).
  { apply Z.rem_bound_pos; lia. }
  destruct (demo_objects_at i Hi) as (tgt & -> & Hv & _ & _ & Hk).
  eexists. split; [reflexivity|]. cbn [default from_option Datatypes.id].
  unfold fields_valid, prop. cbn [assign_empty]. rewrite Ht, Hu.
  cbn [default from_option Datatypes.id].
  split; [split; [|split]|].
  - rewrite !lookup_insert_ne by discriminate. exact Hv.
  - exists t. rewrite lookup_insert_ne by discriminate. apply lookup_insert_eq.
  - right. exists u. apply lookup_insert_eq.
  - rewrite !lookup_insert_ne by discriminate. exact Hk.
Qed.

Lemma ndata_valid counter indices :
  0 <= counter ->
  Forall (fun i => 0 <= i < 5) indices ->
  exists l,
    ndata counter indices = Ok l
    /\ length l
       = length (List.filter
                   (fun i => negb (((i =? 0) && (Z.rem counter 3 =? 0))
                                   || ((i =? 1) && (Z.rem counter 5 =? 0))))
                   indices)
    /\ Forall (fun v => fields_valid v /\ assign_empty v !! "key"%string = None) l.
Proof.
  intros Hc HF. induction HF as [|i indices Hi _ (l & Hl & Hlen & Hvalid)];
    cbn [ndata List.filter].
  - exists []. repeat split. constructor.
  - destruct ((i =? 0) && (Z.rem counter 3 =? 0)); cbn [orb negb].
    { exists l. repeat split; assumption. }
    destruct ((i =? 1) && (Z.rem counter 5 =? 0)); cbn [orb negb].
    { exists l. repeat split; assumption. }
    destruct (ndata_item_valid counter i Hc Hi) as (o & -> & Hf & Hk).
    rewrite Hl. run_monad. exists (VObj o :: l).
    split; [reflexivity|]. split; [cbn; rewrite Hlen; reflexivity|].
    constructor; [split; assumption | exact Hvalid].
Qed.

Section Demo.

Variable JSON_parse : string -> option value.

(** X23. The demo page never hands the wheel a list it rejects.  On a
    reachable wheel with a dynamic section count, or a fixed one of at
    least 5 sections and the back section: the first call
    [setSections(data)] returns normally; the counter of the
    [section-select] listener never becomes negative; and whatever value
    the event carried, the list the listener builds is valid, so that
    its [setSections] call returns normally and leaves 5 sections, less
    one if the counter is a multiple of 3 and less one if it is a
    multiple of 5. *)
Theorem demo_listener_succeeds s v counter :
  reachable JSON_parse s ->
  (staticSectionCount s = true -> 6 <= sectionCount s) ->
  0 <= counter ->
  res (setSections JSON_parse demo_data s) = Ok tt
  /\ 0 <= next_counter v counter
  /\ res (listener JSON_parse (next_counter v counter) s) = Ok tt
  /\ exists items,
       data (st (listener JSON_parse (next_counter v counter) s)) = Some items
       /\ Z.of_nat (length items)
          = 5 - (if Z.rem (next_counter v counter) 3 =? 0 then 1 else 0)
              - (if Z.rem (next_counter v counter) 5 =? 0 then 1 else 0).
Proof.
  intros Hr Hcap Hc. pose proof (reachable_rendered JSON_parse s Hr) as Hrend.
  assert (0 <= next_counter v counter) as Hnext.
  { unfold next_counter. cbv zeta.
    destruct (is_minus_one v);
      [destruct (Z.eqb_spec (counter + -1) (-1)) | destruct (Z.eqb_spec (counter + 1) (-1))];
      lia. }
  split; [|split; [exact Hnext|]].
  - destruct (setSections_accepts JSON_parse s demo_data (VObj <$> demo_objects) Hrend)
      as (items & _ & _ & Hres & _); [reflexivity | discriminate | | | exact Hres].
    + intros Hs. specialize (Hcap Hs). cbn. lia.
    + intros i x Hi. apply list_lookup_fmap_Some in Hi as (o & -> & Ho).
      destruct (Forall_lookup_1 _ _ _ _ demo_objects_fields Ho)
        as (Hv & Ht & Hu & Hk).
      apply lookup_lt_Some in Ho. cbn in Ho.
      split; [repeat split; cbn [assign_empty]; eauto|].
      cbn [assign_empty]. rewrite Hk. lia.
  - set (c := next_counter v counter) in *.
    destruct (ndata_valid c [0; 1; 2; 3; 4] Hnext) as (l & Hl & Hlen & Hvalid).
    { repeat constructor; lia. }
    assert (Z.of_nat (length l)
            = 5 - (if Z.rem c 3 =? 0 then 1 else 0)
                - (if Z.rem c 5 =? 0 then 1 else 0)) as Hcount.
    { rewrite Hlen. cbn [List.filter Z.eqb andb orb negb].
      destruct (Z.rem c 3 =? 0), (Z.rem c 5 =? 0); reflexivity. }
    assert (listener JSON_parse c s = setSections JSON_parse (VArr l) s) as ->.
    { unfold listener. rewrite Hl.
      exact (bind_ret l (fun items => setSections JSON_parse (VArr items)) s). }
    destruct (setSections_accepts JSON_parse s (VArr l) l Hrend eq_refl)
      as (items & _ & Hitems & Hres & Hdata).
    + intros ->. cbn in Hcount. destruct (Z.rem c 3 =? 0), (Z.rem c 5 =? 0); lia.
    + intros Hs. specialize (Hcap Hs).
      destruct (Z.rem c 3 =? 0), (Z.rem c 5 =? 0); lia.
    + intros i x Hi. destruct (Forall_lookup_1 _ _ _ _ Hvalid Hi) as [Hf Hk].
      split; [exact Hf|]. rewrite Hk. apply lookup_lt_Some in Hi.
      destruct (Z.rem c 3 =? 0), (Z.rem c 5 =? 0); lia.
    + split; [exact Hres|]. exists items. split; [exact Hdata|].
      rewrite Hitems. exact Hcount.
Qed.

End Demo.

(** ** Examples of the further properties *)

Lemma dynamic_wheel_reachable : reachable rejecting_parse dynamic_wheel.
Proof.
  apply (reachable_new rejecting_parse dynamic_attributes). vm_compute. reflexivity.
Qed.

(** The [i]-th stored section of a wheel, once it is known to exist. *)
Lemma data_of_lookup s i :
  bool_decide (is_Some (data_of s !! i)) = true ->
  exists item, data_of s !! i = Some item.
Proof. intros H. apply bool_decide_eq_true_1 in H as [item Hi]. eauto. Qed.

(** A click on section 1 of the locked wheel of three items. *)
Lemma click_dispatches_value_witness :
  out (handle rejecting_parse (Click 1) (wheel_of 3)) = [VNum 1].
Proof.
  assert (data (wheel_of 3) = Some (data_of (wheel_of 3))) as Hd
    by (apply data_of_Some; evaluate).
  destruct (data_of_lookup (wheel_of 3) 1) as [item Hi]; [evaluate|].
  assert ((fun o => prop o "value") <$> data_of (wheel_of 3) !! 1%nat
          = Some (VNum 1)) as Hv by evaluate.
  rewrite Hi in Hv. injection Hv as Hv.
  destruct (click_dispatches_value rejecting_parse (wheel_of 3) _ 1 item
              (wheel_of_reachable 3) Hd Hi) as (Hclick & _).
  change (Z.of_nat 1) with 1 in Hclick. rewrite Hclick. cbn [out].
  rewrite Hv. reflexivity.
Defined.

(** [Backspace] on the unlocked wheel. *)
Lemma back_dispatches_minus_one_witness :
  out (handle rejecting_parse (KeyDown "Backspace") used_wheel) = [VNum (-1)].
Proof.
  assert (data used_wheel = Some (data_of used_wheel)) as Hd
    by (apply data_of_Some; evaluate).
  assert (isLocked used_wheel = false) as Hl by evaluate.
  assert (sectionCount used_wheel = Z.of_nat (length (sections used_wheel))) as Hn
    by evaluate.
  destruct (back_dispatches_minus_one rejecting_parse used_wheel _
              used_wheel_reachable Hd Hn) as (_ & Hkey).
  rewrite (Hkey Hl). reflexivity.
Defined.


(** A click on the auto-locking wheel locks it. *)
Lemma auto_lock_cycle_witness :
  isLocked auto_wheel = false
  /\ isLocked (st (handle rejecting_parse (Click 0) auto_wheel)) = true.
Proof.
  assert (autoLockWheel auto_wheel = true) as Hauto by evaluate.
  destruct (auto_lock_cycle rejecting_parse auto_wheel (Click 0) Hauto) as [Hlock _].
  split; [evaluate|]. apply Hlock. evaluate.
Defined.

(** An item whose key is one character outside ASCII is accepted, the
    empty array is not. *)
Lemma setSections_succeeds_iff_witness :
  res (setSections rejecting_parse (VArr [euro_key_item]) (wheel_of 2)) = Ok tt
  /\ res (setSections rejecting_parse (VArr []) (wheel_of 2)) <> Ok tt.
Proof.
  split.
  - apply (setSections_succeeds_iff rejecting_parse (wheel_of 2)
             (VArr [euro_key_item]) [euro_key_item]
             (wheel_of_reachable 2) eq_refl).
    split; [discriminate|]. split; [intros H; vm_compute in H; discriminate|].
    intros [|i] v; [|intros H; destruct i; discriminate].
    intros [= <-].
    assert (assign_empty euro_key_item !! "key"%string = Some (VStr "€")) as Hk
      by evaluate.
    split; [|rewrite Hk; exists "€"%string; split; reflexivity].
    split; [eexists; reflexivity|]. split; [eexists; reflexivity|].
    left. reflexivity.
  - intros H.
    apply (setSections_succeeds_iff rejecting_parse (wheel_of 2) (VArr []) []
             (wheel_of_reachable 2) eq_refl) in H.
    destruct H as [H _]. apply H. reflexivity.
Defined.



(** A valid item with a key outside ASCII followed by an item without
    a value: the error is that of the second item. *)
Lemma validation_reports_first_offender_witness :
  exists v,
    [euro_key_item; valueless_item] !! 1%nat = Some v
    /\ parseUnraWheelData v 1 = Throw (MissingValue 1)
    /\ exists o, parseUnraWheelData euro_key_item 0 = Ok o.
Proof.
  assert (normalize rejecting_parse false 0 (VArr [euro_key_item; valueless_item])
          = Throw (MissingValue 1)) as Hn by evaluate.
  destruct (validation_reports_first_offender rejecting_parse false 0
              (VArr [euro_key_item; valueless_item])
              [euro_key_item; valueless_item] _ eq_refl Hn)
    as [[H _]|[(_ & H & _)|(_ & _ & i & v & Hi & Hp & Hbefore)]]; [discriminate.. |].
  assert (i = 1%nat) as ->.
  { destruct i as [|[|i]]; [|reflexivity|discriminate].
    injection Hi as <-.
    assert (returns (parseUnraWheelData euro_key_item 0) = true) as Hret by evaluate.
    rewrite Hp in Hret. discriminate. }
  exists v. split; [exact Hi|]. split; [exact Hp|].
  exact (Hbefore 0%nat euro_key_item ltac:(lia) eq_refl).
Defined.


(** Locking the used wheel and unlocking it again. *)
Lemma lock_toggle_round_trip_witness :
  st (toggleLockWheel false (st (toggleLockWheel true used_wheel))) = used_wheel.
Proof.
  assert (isLocked used_wheel = false) as Hl by evaluate.
  destruct (lock_toggle_round_trip rejecting_parse used_wheel used_wheel_reachable)
    as (_ & Hsvg & Hround).
  rewrite Hl in Hround. apply Hround. apply Hsvg. exact Hl.
Defined.

(** [<unrawheel-v1 section-count="-3">]. *)
Lemma section_count_check_witness :
  exists s,
    constructor rejecting_parse (MkAttributes false (Some (Num (-3))) false None) = Ok s
    /\ sectionCount s = -2
    /\ exists e, setSections rejecting_parse (items_list 1) s = Reply (Throw e) s [].
Proof.
  destruct (section_count_check rejecting_parse
              (MkAttributes false (Some (Num (-3))) false None) eq_refl eq_refl)
    as (s & Hc & Hn & _ & Hdead).
  { intros z [= <-]. lia. }
  exists s. split; [exact Hc|]. split; [exact Hn|].
  destruct (Hdead ltac:(lia) (items_list 1)) as (e & _ & He). exists e. exact He.
Defined.

(** The dynamic wheel without data starts locked, without the class. *)
Lemma constructor_initial_state_witness :
  isLocked dynamic_wheel = true /\ svgLocked dynamic_wheel = false.
Proof.
  assert (constructor rejecting_parse dynamic_attributes = Ok dynamic_wheel) as Hc
    by evaluate.
  destruct (constructor_initial_state rejecting_parse _ _ Hc)
    as (_ & _ & Hsvg & _ & _ & _ & Hl).
  split; assumption.
Defined.

(** The first selection on the demo page. *)
Lemma demo_listener_succeeds_witness :
  res (setSections rejecting_parse demo_data dynamic_wheel) = Ok tt
  /\ res (listener rejecting_parse (next_counter (VStr "value_1") 0) dynamic_wheel)
     = Ok tt.
Proof.
  destruct (demo_listener_succeeds rejecting_parse dynamic_wheel (VStr "value_1") 0
              dynamic_wheel_reachable) as (Hfirst & _ & Hnext & _).
  - intros H. vm_compute in H. discriminate.
  - lia.
  - split; assumption.
Defined.
